(** * exchangelib: element marshalling and the attachment life cycle

    A shallow embedding of [exchangelib/properties.py] and
    [exchangelib/attachments.py].  Python objects become records, the
    instance dictionary of a generic [EWSElement] becomes a finite map,
    mutation and exceptions become a state-and-error monad, and the
    service classes of [services.py] (CreateAttachment, DeleteAttachment,
    GetAttachment) become functions supplied by the caller. *)

From Stdlib.Strings Require Import String Ascii Byte.
From Stdlib Require Import NArith ZArith.
From stdpp Require Import gmap strings list pretty.

Set Warnings "-register-all".
Open Scope string_scope.

(** ** Python values, exceptions and the state-and-error monad *)

Module Py.

(** The values an attribute of an element can hold. *)
Inductive pyval :=
  | VNone
  | VStr (s : string)
  | VBytes (b : list byte)
  | VInt (z : Z)
  | VBool (b : bool)
  | VList (l : list pyval)
  | VObj (cls : string) (fields : list (string * pyval)).

(** [x is None] *)
Definition is_none (v : pyval) : bool :=
  match v with VNone => true | _ => false end.

(** [bool(x)] *)
Definition truthy (v : pyval) : bool :=
  match v with
  | VNone => false
  | VStr s => negb (String.eqb s "")
  | VBytes b => match b with [] => false | _ => true end
  | VInt z => negb (Z.eqb z 0)
  | VBool b => b
  | VList l => match l with [] => false | _ => true end
  | VObj _ _ => true
  end.

(** The exceptions the two modules raise or let through. *)
Inductive exn :=
  | ValueError (msg : string)
  | TypeError (msg : string)
  | AssertionError
  | AttributeError (msg : string)
  | BinasciiError (msg : string)
  | RemoteError (e : string).

Inductive Res (A : Type) :=
  | Ok (a : A)
  | Raise (e : exn).
Arguments Ok {A} a.
Arguments Raise {A} e.

(** A computation over a mutable state [S]: a result or an exception,
    together with the state as the computation left it. *)
Definition M (S A : Type) : Type := S -> Res A * S.

Definition ret {S A} (a : A) : M S A := fun s => (Ok a, s).
Definition raise {S A} (e : exn) : M S A := fun s => (Raise e, s).
Definition bind {S A B} (m : M S A) (k : A -> M S B) : M S B :=
  fun s => match m s with
           | (Ok a, s') => k a s'
           | (Raise e, s') => (Raise e, s')
           end.
Definition get {S} : M S S := fun s => (Ok s, s).
Definition put {S} (s : S) : M S unit := fun _ => (Ok tt, s).
Definition modify {S} (f : S -> S) : M S unit := fun s => (Ok tt, f s).
Definition lift {S A} (r : Res A) : M S A := fun s => (r, s).

Definition rbind {A B} (r : Res A) (k : A -> Res B) : Res B :=
  match r with Ok a => k a | Raise e => Raise e end.

#[global] Instance M_ret {S} : MRet (M S) := fun A => @ret S A.
#[global] Instance M_bind {S} : MBind (M S) := fun A B k m => @bind S A B m k.
#[global] Instance Res_ret : MRet Res := fun A => @Ok A.
#[global] Instance Res_bind : MBind Res := fun A B k r => @rbind A B r k.

(** [assert c] *)
Definition assert {S} (c : bool) : M S unit :=
  if c then ret tt else raise AssertionError.

(** A generator expression consumed by [list(...)]: the elements are
    produced left to right and the first exception ends the loop. *)
Fixpoint mapM {S A B} (f : A -> M S B) (l : list A) : M S (list B) :=
  match l with
  | [] => ret []
  | x :: xs => y ← f x; ys ← mapM f xs; mret (y :: ys)
  end.

(** [for x in l: body]: the loop variable of the caller is threaded
    through as [b]. *)
Fixpoint foldM {S A B} (body : B -> A -> M S B) (l : list A) (b : B) : M S B :=
  match l with
  | [] => mret b
  | x :: xs => b' ← body b x; foldM body xs b'
  end.

(** A call with keyword arguments: a keyword that the callee does not
    declare raises [TypeError] before the body runs. *)
Definition unexpected_kw (params kwargs : list string) : option string :=
  List.find (fun k => negb (existsb (String.eqb k) params)) kwargs.

Definition call_kw {S A} (fname : string) (params kwargs : list string)
    (body : M S A) : M S A :=
  match unexpected_kw params kwargs with
  | Some k => raise (TypeError (fname ++ "() got an unexpected keyword argument '" ++ k ++ "'"))
  | None => body
  end.

End Py.
Export Py.

(** ** ElementTree elements *)

Module Xml.

(** An element as [xml.etree.ElementTree] holds it: [text] is [None]
    for an element without character data, such as a parsed [<a/>]. *)
Inductive Element := mkElement {
  tag : string;
  attrib : list (string * string);
  text : option string;
  children : list Element
}.

(** [elem.find(t)]: the first direct child with that tag. *)
Definition find (t : string) (e : Element) : option Element :=
  List.find (fun c => String.eqb (tag c) t) (children e).

(** [elem.get(k)] *)
Fixpoint assoc (k : string) (l : list (string * string)) : option string :=
  match l with
  | [] => None
  | (k', v) :: l' => if String.eqb k' k then Some v else assoc k l'
  end.
Definition get_attr (k : string) (e : Element) : option string := assoc k (attrib e).

(** [elem.set(k, v)]: the attribute dictionary keeps insertion order. *)
Fixpoint assoc_set (k v : string) (l : list (string * string)) : list (string * string) :=
  match l with
  | [] => [(k, v)]
  | (k', v') :: l' => if String.eqb k' k then (k, v) :: l' else (k', v') :: assoc_set k v l'
  end.
Definition set_attr (k v : string) (e : Element) : Element :=
  mkElement (tag e) (assoc_set k v (attrib e)) (text e) (children e).

(** [elem.append(c)] *)
Definition append (c : Element) (e : Element) : Element :=
  mkElement (tag e) (attrib e) (text e) (children e ++ [c]).

(** Modelled from the spec: [util.create_element] is absent from the
    sources; encode "creates an element" with the tag it is handed, and
    the element starts without attributes, text or children. *)
Definition create_element (name : string) : Element := mkElement name [] None [].

End Xml.
Export Xml.

(** ** The standard library's base64 decoder *)

Module Base64.

Open Scope N_scope.

(** The base64 alphabet: the 6-bit value of a character, if it has one. *)
Definition b64_index (c : ascii) : option N :=
  let n := N_of_ascii c in
  if (65 <=? n) && (n <=? 90) then Some (n - 65)
  else if (97 <=? n) && (n <=? 122) then Some (n - 71)
  else if (48 <=? n) && (n <=? 57) then Some (n + 4)
  else if n =? 43 then Some 62
  else if n =? 47 then Some 63
  else None.

Definition to_byte (n : N) : byte := byte_of_ascii (ascii_of_N (n mod 256)).

(** [binascii.a2b_base64] in its default, non-strict mode: characters
    outside the alphabet are skipped, a pad sequence that completes a
    quad ends the input, and a dangling quad is an error. *)
Fixpoint a2b_base64 (s : string) (quad_pos : nat) (leftchar : N) (pads : nat)
    (out : list byte) : Res (list byte) :=
  match s with
  | EmptyString =>
      match quad_pos with
      | O => Ok out
      | 1%nat => Raise (BinasciiError "Invalid base64-encoded string")
      | _ => Raise (BinasciiError "Incorrect padding")
      end
  | String c s' =>
      if Ascii.eqb c "=" then
        if Nat.leb 2 quad_pos then
          if Nat.leb 4 (quad_pos + Datatypes.S pads) then Ok out
          else a2b_base64 s' quad_pos leftchar (Datatypes.S pads) out
        else a2b_base64 s' quad_pos leftchar pads out
      else
        match b64_index c with
        | None => a2b_base64 s' quad_pos leftchar pads out
        | Some v =>
            match quad_pos with
            | O => a2b_base64 s' 1%nat v O out
            | 1%nat =>
                a2b_base64 s' 2%nat (N.land v 15) O
                  (out ++ [to_byte (N.lor (N.shiftl leftchar 2) (N.shiftr v 4))])
            | 2%nat =>
                a2b_base64 s' 3%nat (N.land v 3) O
                  (out ++ [to_byte (N.lor (N.shiftl leftchar 4) (N.shiftr v 2))])
            | _ =>
                a2b_base64 s' O 0 O
                  (out ++ [to_byte (N.lor (N.shiftl leftchar 6) v)])
            end
        end
  end.

Definition is_ascii (s : string) : bool :=
  forallb (fun c => N_of_ascii c <? 128) (list_ascii_of_string s).

(** [base64.b64decode(s)] on the text of an element: [None] is not a
    bytes-like object, a string must be ASCII. *)
Definition b64decode (s : option string) : Res (list byte) :=
  match s with
  | None =>
      Raise (TypeError "argument should be a bytes-like object or ASCII string, not 'NoneType'")
  | Some s =>
      if is_ascii s then a2b_base64 s O 0 O []
      else Raise (ValueError "string argument should contain only ASCII characters")
  end.

End Base64.

Definition bytes_of_string (s : string) : list byte := List.map byte_of_ascii (list_ascii_of_string s).

(** ** properties.py *)

(** The two namespaces of the protocol ([NAMESPACE] is "either TNS or
    MNS"). *)
Inductive Namespace := TNS | MNS.

(** Modelled from the spec: the constants [TNS] and [MNS] of
    [services.py] are absent from the sources; they are the protocol's
    two fixed namespace URIs, one for types and one for messages. *)
Definition uri (n : Namespace) : string :=
  match n with
  | TNS => "http://schemas.microsoft.com/exchange/services/2006/types"
  | MNS => "http://schemas.microsoft.com/exchange/services/2006/messages"
  end.

(** The protocol version handed to [to_xml]; the encoders only pass it on. *)
Definition Version := string.

(** The interface of a field descriptor as [EWSElement] uses it.  The
    descriptors themselves live in [fields.py], which is not part of the
    sources, so the three methods are components of the record. *)
Module Field.
Record t := mk {
  name : string;
  is_read_only : bool;
  is_list : bool;
  clean : pyval -> Res pyval;
  from_xml : Element -> Res pyval;
  to_xml : pyval -> Version -> Res Element
}.
End Field.

Module EWSElement.

(** The attributes of an instance, by name. *)
Abbreviation Instance := (gmap string pyval).

(** A class: its constants and the [clean] its instances dispatch to. *)
Record Class := mkClass {
  ELEMENT_NAME : string;
  NAMESPACE : Namespace;
  FIELDS : list Field.t;
  clean_method : M Instance unit
}.

Definition getattr (n : string) : M Instance pyval :=
  fun self => match self !! n with
              | Some v => (Ok v, self)
              | None => (Raise (AttributeError n), self)
              end.

Definition setattr (n : string) (v : pyval) : M Instance unit :=
  modify (fun self => <[n := v]> self).

(** [__init__(self, **kwargs)] *)
Definition __init__ (FIELDS : list Field.t) (kwargs : gmap string pyval) : Res Instance :=
  let '(self, kwargs) :=
    fold_left (fun '(self, kwargs) f =>
                 (<[Field.name f := default VNone (kwargs !! Field.name f)]> self,
                  delete (Field.name f) kwargs))
              FIELDS (∅, kwargs) in
  if decide (kwargs = ∅) then Ok self
  else Raise (TypeError "invalid arguments for this class").

(** [clean(self)] *)
Definition clean (FIELDS : list Field.t) : M Instance unit :=
  foldM (fun (_ : unit) f =>
           val ← getattr (Field.name f);
           val' ← lift (Field.clean f val);
           setattr (Field.name f) val')
        FIELDS tt.

Definition request_tag (cls : Class) : string :=
  match NAMESPACE cls with
  | TNS => "t:" ++ ELEMENT_NAME cls
  | MNS => "m:" ++ ELEMENT_NAME cls
  end.

Definition response_tag (cls : Class) : string :=
  "{" ++ uri (NAMESPACE cls) ++ "}" ++ ELEMENT_NAME cls.

(** [from_xml(cls, elem)].  The closing [elem.clear()] empties the
    response element, which nothing reads afterwards. *)
Definition from_xml (cls : Class) (elem : option Element) : Res (option Instance) :=
  match elem with
  | None => Ok None
  | Some elem =>
      if String.eqb (tag elem) (response_tag cls) then
        kwargs ← fold_left (fun (acc : Res (gmap string pyval)) f =>
                              kwargs ← acc;
                              v ← Field.from_xml f elem;
                              mret (<[Field.name f := v]> kwargs))
                           (FIELDS cls) (Ok ∅);
        self ← __init__ (FIELDS cls) kwargs;
        mret (Some self)
      else Raise AssertionError
  end.

(** The body of the loop of [to_xml]; [i] is the element built so far. *)
Definition to_xml_step (version : Version) (i : Element) (f : Field.t) : M Instance Element :=
  if Field.is_read_only f then mret i
  else
    value ← getattr (Field.name f);
    if is_none value || (Field.is_list f && negb (truthy value)) then mret i
    else
      c ← lift (Field.to_xml f value version);
      mret (append c i).

(** [to_xml(self, version)] *)
Definition to_xml (cls : Class) (version : Version) : M Instance Element :=
  clean_method cls;;
  foldM (to_xml_step version) (FIELDS cls) (create_element (request_tag cls)).

End EWSElement.

Module ItemId.

(** [ItemId] and its two subclasses, which override class constants only. *)
Inductive Class := ItemIdC | ParentItemIdC | RootItemIdC.

Definition ELEMENT_NAME (c : Class) : string :=
  match c with
  | ItemIdC => "ItemId"
  | ParentItemIdC => "ParentItemId"
  | RootItemIdC => "RootItemId"
  end.

Definition NAMESPACE (c : Class) : Namespace :=
  match c with
  | ItemIdC => TNS
  | ParentItemIdC => MNS
  | RootItemIdC => MNS
  end.

Definition ID_ATTR (c : Class) : string :=
  match c with
  | RootItemIdC => "RootItemId"
  | _ => "Id"
  end.

Definition CHANGEKEY_ATTR (c : Class) : string :=
  match c with
  | RootItemIdC => "RootItemChangeKey"
  | _ => "ChangeKey"
  end.

(** An instance: its class and the two slots, each a string or [None]. *)
Record t := mk {
  cls : Class;
  id : option string;
  changekey : option string
}.

Definition request_tag (c : Class) : string :=
  match NAMESPACE c with
  | TNS => "t:" ++ ELEMENT_NAME c
  | MNS => "m:" ++ ELEMENT_NAME c
  end.

Definition response_tag (c : Class) : string :=
  "{" ++ uri (NAMESPACE c) ++ "}" ++ ELEMENT_NAME c.

(** Modelled from the spec: [SimpleField.clean] of [fields.py] is absent
    from the sources; for a required field an absent value is a
    validation error at the clean step, and a string passes unchanged. *)
Definition clean_required (fname : string) (v : option string) : Res (option string) :=
  match v with
  | Some s => Ok (Some s)
  | None => Raise (ValueError ("'" ++ fname ++ "' is a required field with no default"))
  end.

(** [EWSElement.clean] over the two declared fields, in their order. *)
Definition clean : M t unit :=
  self ← get;
  v ← lift (clean_required "id" (id self));
  put (mk (cls self) v (changekey self));;
  self ← get;
  v ← lift (clean_required "changekey" (changekey self));
  put (mk (cls self) (id self) v).

(** [to_xml(self, version)]: the two fields become attributes. *)
Definition to_xml (version : Version) : M t Element :=
  clean;;
  self ← get;
  let elem := create_element (request_tag (cls self)) in
  match id self, changekey self with
  | Some i, Some k =>
      let elem := set_attr (ID_ATTR (cls self)) i elem in
      let elem := set_attr (CHANGEKEY_ATTR (cls self)) k elem in
      mret elem
  | _, _ => raise (TypeError "attribute value must be a string")
  end.

(** The parameters [from_xml] declares besides [cls]. *)
Definition from_xml_params : list string := ["elem"].

(** [from_xml(cls, elem)] *)
Definition from_xml (c : Class) (elem : option Element) : Res (option t) :=
  match elem with
  | None => Ok None
  | Some elem =>
      if String.eqb (tag elem) (response_tag c) then
        Ok (Some (mk c (get_attr (ID_ATTR c) elem) (get_attr (CHANGEKEY_ATTR c) elem)))
      else Raise AssertionError
  end.

(** [__eq__(self, other)] *)
Definition __eq__ (self : t) (other : option t) : bool :=
  match other with
  | None => false
  | Some other =>
      bool_decide (id self = id other) && bool_decide (changekey self = changekey other)
  end.

End ItemId.

(** ** attachments.py *)

Module AttachmentId.

Definition ELEMENT_NAME : string := "AttachmentId".
Definition ID_ATTR : string := "Id".
Definition ROOT_ID_ATTR : string := "RootItemId".
Definition ROOT_CHANGEKEY_ATTR : string := "RootItemChangeKey".

Record t := mk {
  id : option string;
  root_id : option string;
  root_changekey : option string
}.

Definition response_tag : string := "{" ++ uri TNS ++ "}" ++ ELEMENT_NAME.

(** Modelled from the spec: [EWSElementField] and [IdField] of
    [fields.py] are absent from the sources; a nested structured element
    is searched by its tag among the children, absence yields [None], and
    each identity field is read from the attribute of its wire name. *)
Definition field_from_xml (elem : Element) : option t :=
  match find response_tag elem with
  | None => None
  | Some sub =>
      Some (mk (get_attr ID_ATTR sub) (get_attr ROOT_ID_ATTR sub)
               (get_attr ROOT_CHANGEKEY_ATTR sub))
  end.

End AttachmentId.

Module attachments.

(** References to the items of the caller. *)
Abbreviation loc := positive.

Definition Account := string.

(** Modelled from the spec: the class [Item] of [items.py] is absent from
    the sources; the owning entity carries its id, its change-token and
    the account it is bound to, and is true in a boolean context. *)
Record Item := mkItem {
  item_id : option string;
  changekey : option string;
  account : option Account
}.

(** The two concrete classes and the slots each adds. *)
Inductive Extra :=
  | FileAttachment (is_contact_photo : pyval) (_content : pyval)
  | ItemAttachment (_item : pyval).

Record Attachment := mkAttachment {
  parent_item : option loc;
  attachment_id : option AttachmentId.t;
  name : pyval;
  content_type : pyval;
  content_id : pyval;
  content_location : pyval;
  size : pyval;
  last_modified_time : pyval;
  is_inline : pyval;
  extra : Extra
}.

Definition ELEMENT_NAME (a : Attachment) : string :=
  match extra a with
  | FileAttachment _ _ => "FileAttachment"
  | ItemAttachment _ => "ItemAttachment"
  end.

Definition response_tag (a : Attachment) : string :=
  "{" ++ uri TNS ++ "}" ++ ELEMENT_NAME a.

(** What one entry of a service response can be. *)
Inductive Result :=
  | RExc (e : exn)
  | RElem (elem : Element)
  | RTuple.

(** The requests sent to the service classes of [services.py]. *)
Inductive Call :=
  | CreateAttachment (account : Account) (parent_item : loc) (items : list Attachment)
  | DeleteAttachment (account : Account) (items : list AttachmentId.t)
  | GetAttachment (account : Account) (items : list AttachmentId.t)
      (include_mime_content : bool).

(** What the module takes from outside: the decoders of the plain fields
    ([fields.py]), by field name, and the service, which answers a
    request knowing the requests made before it. *)
Record Env := mkEnv {
  field_from_xml : string -> Element -> Res pyval;
  service : list Call -> Call -> list Result
}.

(** The attachment a method runs on, the items it may refer to, and the
    requests made so far. *)
Record State := mkState {
  self : Attachment;
  heap : gmap loc Item;
  calls : list Call
}.

Definition call (env : Env) (c : Call) : M State (list Result) :=
  fun st => (Ok (service env (calls st) c),
             mkState (self st) (heap st) (calls st ++ [c])).

(** Following a reference.  In Python a reference always resolves; a
    state in which one does not is none the program can reach. *)
Definition deref (l : loc) : M State Item :=
  fun st => match heap st !! l with
            | Some i => (Ok i, st)
            | None => (Raise (AttributeError "dangling reference"), st)
            end.

Definition set_parent_changekey (l : loc) (ck : option string) : M State unit :=
  modify (fun st =>
    mkState (self st)
            (alter (fun i => mkItem (item_id i) ck (account i)) l (heap st))
            (calls st)).

Definition set_self (f : Attachment -> Attachment) : M State unit :=
  modify (fun st => mkState (f (self st)) (heap st) (calls st)).

Definition with_attachment_id (v : option AttachmentId.t) (a : Attachment) : Attachment :=
  mkAttachment (parent_item a) v (name a) (content_type a) (content_id a)
    (content_location a) (size a) (last_modified_time a) (is_inline a) (extra a).

Definition with_parent_item (v : option loc) (a : Attachment) : Attachment :=
  mkAttachment v (attachment_id a) (name a) (content_type a) (content_id a)
    (content_location a) (size a) (last_modified_time a) (is_inline a) (extra a).

Definition with_content (v : pyval) (a : Attachment) : Attachment :=
  mkAttachment (parent_item a) (attachment_id a) (name a) (content_type a) (content_id a)
    (content_location a) (size a) (last_modified_time a) (is_inline a)
    match extra a with
    | FileAttachment p _ => FileAttachment p v
    | x => x
    end.

(** The parameters [FileAttachment.from_xml] and [ItemAttachment.from_xml]
    declare besides [cls]. *)
Definition from_xml_params : list string := ["elem"; "account"].

(** [from_xml(cls, elem, account)] of the class of [this]: the fields are
    decoded in the order of [FIELDS] and a new instance is built, with no
    parent item. *)
Definition from_xml (env : Env) (this : Attachment) (elem : option Element)
    (account : Account) : Res (option Attachment) :=
  match elem with
  | None => Ok None
  | Some elem =>
      if String.eqb (tag elem) (response_tag this) then
        let aid := AttachmentId.field_from_xml elem in
        n ← field_from_xml env "name" elem;
        ct ← field_from_xml env "content_type" elem;
        ci ← field_from_xml env "content_id" elem;
        cl ← field_from_xml env "content_location" elem;
        sz ← field_from_xml env "size" elem;
        lm ← field_from_xml env "last_modified_time" elem;
        inl ← field_from_xml env "is_inline" elem;
        x ← match extra this with
            | FileAttachment _ _ =>
                p ← field_from_xml env "is_contact_photo" elem;
                c ← field_from_xml env "_content" elem;
                mret (FileAttachment p c)
            | ItemAttachment _ =>
                i ← field_from_xml env "_item" elem;
                mret (ItemAttachment i)
            end;
        mret (Some (mkAttachment None aid n ct ci cl sz lm inl x))
      else Raise AssertionError
  end.

(** [not self.parent_item or not self.parent_item.account]: the item and
    its account, or the [ValueError] of the guard. *)
Definition parent_with_account (msg : string) : M State (loc * Account) :=
  st ← get;
  match parent_item (self st) with
  | None => raise (ValueError msg)
  | Some l =>
      parent ← deref l;
      match account parent with
      | None => raise (ValueError msg)
      | Some acct => mret (l, acct)
      end
  end.

(** [attach(self)].  The message of the second guard also prints the
    item; the model keeps its constant part. *)
Definition attach (env : Env) : M State unit :=
  st ← get;
  if bool_decide (is_Some (attachment_id (self st))) then
    raise (ValueError "This attachment has already been created")
  else
    '(l, acct) ← parent_with_account "Parent item must have an account";
    st ← get;
    results ← call env (CreateAttachment acct l [self st]);
    items ← mapM (fun i =>
                    match i with
                    | RExc e => mret (inl e)
                    | RElem elem =>
                        r ← call_kw "from_xml" from_xml_params ["elem"; "account"]
                              (lift (from_xml env (self st) (Some elem) acct));
                        mret (inr r)
                    | RTuple => raise (AttributeError "'tuple' object has no attribute 'tag'")
                    end) results;
    assert (length items =? 1)%nat;;
    match items with
    | inl e :: _ => raise e
    | inr None :: _ =>
        raise (AttributeError "'NoneType' object has no attribute 'attachment_id'")
    | inr (Some root_item_id) :: _ =>
        match attachment_id root_item_id with
        | None => raise (AttributeError "'NoneType' object has no attribute 'root_id'")
        | Some attachment_id =>
            parent ← deref l;
            assert (bool_decide (AttachmentId.root_id attachment_id = item_id parent));;
            assert (negb (bool_decide (AttachmentId.root_changekey attachment_id = changekey parent)));;
            set_parent_changekey l (AttachmentId.root_changekey attachment_id);;
            let attachment_id := AttachmentId.mk (AttachmentId.id attachment_id) None None in
            set_self (with_attachment_id (Some attachment_id))
        end
    | [] => raise AssertionError
    end.

(** [detach(self)], as a function of the parameters that the decoder it
    calls, [RootItemId.from_xml], declares. *)
Definition detach_calling (params : list string) (env : Env) : M State unit :=
  st ← get;
  match attachment_id (self st) with
  | None => raise (ValueError "This attachment has not been created")
  | Some aid =>
      '(l, acct) ← parent_with_account "Parent item must have an account";
      results ← call env (DeleteAttachment acct [aid]);
      items ← mapM (fun i =>
                      match i with
                      | RExc e => mret (inl e)
                      | RElem elem =>
                          r ← call_kw "from_xml" params ["elem"; "account"]
                                (lift (ItemId.from_xml ItemId.RootItemIdC (Some elem)));
                          mret (inr r)
                      | RTuple =>
                          call_kw "from_xml" params ["elem"; "account"]
                            (raise (AttributeError "'tuple' object has no attribute 'tag'"))
                      end) results;
      assert (length items =? 1)%nat;;
      match items with
      | inl e :: _ => raise e
      | inr None :: _ => raise (AttributeError "'NoneType' object has no attribute 'id'")
      | inr (Some root_item_id) :: _ =>
          parent ← deref l;
          assert (bool_decide (ItemId.id root_item_id = item_id parent));;
          assert (negb (bool_decide (ItemId.changekey root_item_id = changekey parent)));;
          set_parent_changekey l (ItemId.changekey root_item_id);;
          set_self (with_parent_item None);;
          set_self (with_attachment_id None)
      | [] => raise AssertionError
      end
  end.

(** [detach(self)]: [RootItemId] inherits [from_xml(cls, elem)] from
    [ItemId]. *)
Definition detach : Env -> M State unit := detach_calling ItemId.from_xml_params.

(** The [content] property of [FileAttachment]. *)
Definition content (env : Env) : M State pyval :=
  st ← get;
  match extra (self st) with
  | ItemAttachment _ =>
      raise (AttributeError "'ItemAttachment' object has no attribute 'content'")
  | FileAttachment _ _content =>
      match attachment_id (self st) with
      | None => mret _content
      | Some aid =>
          if negb (is_none _content) then mret _content
          else
            '(l, acct) ← parent_with_account "FileAttachment must have an account";
            elems ← call env (GetAttachment acct [aid] false);
            assert (length elems =? 1)%nat;;
            match elems with
            | RExc e :: _ => raise e
            | RTuple :: _ => raise AssertionError
            | RElem elem :: _ =>
                match find ("{" ++ uri TNS ++ "}Content") elem with
                | None => set_self (with_content VNone)
                | Some val =>
                    b ← lift (Base64.b64decode (text val));
                    set_self (with_content (VBytes b))
                end;;
                st ← get;
                match extra (self st) with
                | FileAttachment _ _content => mret _content
                | ItemAttachment _ => mret VNone
                end
            | [] => raise AssertionError
            end
      end
  end.

End attachments.

(** ** The wire between encode and decode *)

Module wire.

(** Modelled from the spec: the transport is absent from the sources; an
    encoded element carries the prefixed request tag ("a fixed two-letter
    convention"), and what the parser hands to decode carries the
    namespace-qualified tag. *)
Definition qualify (t : string) : string :=
  match t with
  | String "t" (String ":" local) => "{" ++ uri TNS ++ "}" ++ local
  | String "m" (String ":" local) => "{" ++ uri MNS ++ "}" ++ local
  | _ => t
  end.

(** An element without character data is parsed with [text] [None]. *)
Definition parsed_text (x : option string) : option string :=
  match x with
  | Some "" => None
  | _ => x
  end.

(** Modelled from the spec: serialising a request element and parsing it
    back, which is what the absent transport does to every element of
    the tree. *)
Fixpoint transfer (e : Element) : Element :=
  match e with
  | mkElement t a x cs => mkElement (qualify t) a (parsed_text x) (List.map transfer cs)
  end.

End wire.

(** ** Field descriptors *)

Module fields.

Definition request_tag (field_uri : string) : string := "t:" ++ field_uri.
Definition response_tag (field_uri : string) : string := "{" ++ uri TNS ++ "}" ++ field_uri.

Definition check_choice (choices : option (list string)) (s : string) : Res pyval :=
  match choices with
  | None => Ok (VStr s)
  | Some cs =>
      if existsb (String.eqb s) cs then Ok (VStr s)
      else Raise (ValueError "value is not a valid choice")
  end.

(** Modelled from the spec: [fields.py] is absent from the sources; a
    string field encodes to a sub-element named by its wire name whose
    text is the value, decodes by searching that sub-element (absence
    yields [None]), and its validator rejects a value of another type or
    outside the declared choices. *)
Definition TextField (name field_uri : string) (is_read_only : bool)
    (choices : option (list string)) : Field.t :=
  Field.mk name is_read_only false
    (fun v => match v with
              | VNone => Ok VNone
              | VStr s => check_choice choices s
              | _ => Raise (TypeError "value must be a string")
              end)
    (fun elem => match find (response_tag field_uri) elem with
                 | None => Ok VNone
                 | Some c => match text c with
                             | Some s => Ok (VStr s)
                             | None => Ok VNone
                             end
                 end)
    (fun v _ => match v with
                | VStr s => Ok (mkElement (request_tag field_uri) [] (Some s) [])
                | _ => Raise (TypeError "value must be a string")
                end).

Fixpoint parse_digits (s : string) (acc : N) : option N :=
  match s with
  | EmptyString => Some acc
  | String c s' =>
      let n := N_of_ascii c in
      if ((48 <=? n) && (n <=? 57))%N then parse_digits s' (acc * 10 + (n - 48))%N
      else None
  end.

(** Modelled from the spec: the integer field of the absent [fields.py],
    a sub-element whose text is the decimal numeral. *)
Definition IntegerField (name field_uri : string) (is_read_only : bool) : Field.t :=
  Field.mk name is_read_only false
    (fun v => match v with
              | VNone => Ok VNone
              | VInt z => Ok (VInt z)
              | _ => Raise (TypeError "value must be an integer")
              end)
    (fun elem => match find (response_tag field_uri) elem with
                 | None => Ok VNone
                 | Some c => match text c with
                             | Some (String d s) =>
                                 match parse_digits (String d s) 0 with
                                 | Some n => Ok (VInt (Z.of_N n))
                                 | None => Raise (ValueError "invalid literal for int()")
                                 end
                             | _ => Ok VNone
                             end
                 end)
    (fun v _ => match v with
                | VInt z => Ok (mkElement (request_tag field_uri) [] (Some (pretty z)) [])
                | _ => Raise (TypeError "value must be an integer")
                end).

(** An [ItemId] held as an attribute value. *)
Definition ItemId_value (x : ItemId.t) : pyval :=
  VObj (ItemId.ELEMENT_NAME (ItemId.cls x))
       [("id", from_option VStr VNone (ItemId.id x));
        ("changekey", from_option VStr VNone (ItemId.changekey x))].

Definition str_or_none (v : pyval) : option (option string) :=
  match v with
  | VNone => Some None
  | VStr s => Some (Some s)
  | _ => None
  end.

Definition value_ItemId (v : pyval) : option ItemId.t :=
  match v with
  | VObj "ItemId" [("id", i); ("changekey", k)] =>
      i ← str_or_none i; k ← str_or_none k; Some (ItemId.mk ItemId.ItemIdC i k)
  | _ => None
  end.

(** Modelled from the spec: a field of the absent [fields.py] whose value
    class is [ItemId]; it encodes and decodes through the codec of that
    class, and searches the nested element by the tag of the class. *)
Definition ItemIdField (name : string) : Field.t :=
  Field.mk name false false
    (fun v => match v with
              | VNone => Ok VNone
              | _ => match value_ItemId v with
                     | Some _ => Ok v
                     | None => Raise (TypeError "value must be an ItemId")
                     end
              end)
    (fun elem => x ← ItemId.from_xml ItemId.ItemIdC (find (ItemId.response_tag ItemId.ItemIdC) elem);
                 mret (from_option ItemId_value VNone x))
    (fun v version => match value_ItemId v with
                      | Some x => fst (ItemId.to_xml version x)
                      | None => Raise (TypeError "value must be an ItemId")
                      end).

End fields.

(** ** The classes and inputs the examples run on *)

Module Mailbox.

Definition MAILBOX_TYPES : list string :=
  ["Mailbox"; "PublicDL"; "PrivateDL"; "Contact"; "PublicFolder"; "Unknown"; "OneOff"].

Definition FIELDS : list Field.t :=
  [ fields.TextField "name" "Name" false None;
    fields.TextField "email_address" "EmailAddress" false None;
    fields.TextField "mailbox_type" "MailboxType" false (Some MAILBOX_TYPES);
    fields.ItemIdField "item_id" ].

(** [clean(self)]: the generic step, then the cross-field check. *)
Definition clean : M EWSElement.Instance unit :=
  EWSElement.clean FIELDS;;
  email_address ← EWSElement.getattr "email_address";
  item_id ← EWSElement.getattr "item_id";
  if negb (truthy email_address) && negb (truthy item_id) then
    raise (ValueError "Mailbox must have either 'email_address' or 'item_id' set")
  else mret tt.

Definition class : EWSElement.Class :=
  EWSElement.mkClass "Mailbox" TNS FIELDS clean.

End Mailbox.

Module Examples.

Import attachments.

Definition ann_id : ItemId.t := ItemId.mk ItemId.ItemIdC (Some "AAMkAD") (Some "CQAAAB").

Definition ann_kwargs : gmap string pyval :=
  <["name" := VStr "Ann"]>
  (<["email_address" := VStr "ann@example.com"]>
  (<["mailbox_type" := VStr "Mailbox"]>
  (<["item_id" := fields.ItemId_value ann_id]> ∅))).

(** [Mailbox(name=..., email_address=..., mailbox_type=..., item_id=...)] *)
Definition ann : EWSElement.Instance :=
  match EWSElement.__init__ Mailbox.FIELDS ann_kwargs with
  | Ok self => self
  | Raise _ => ∅
  end.

(** The same values, set one by one on an instance, in two orders. *)
Definition ann_assignments : list (string * pyval) :=
  [ ("name", VStr "Ann");
    ("email_address", VStr "ann@example.com");
    ("mailbox_type", VStr "Mailbox");
    ("item_id", fields.ItemId_value ann_id) ].

Definition ann_assignments_reversed : list (string * pyval) :=
  [ ("item_id", fields.ItemId_value ann_id);
    ("mailbox_type", VStr "Mailbox");
    ("email_address", VStr "ann@example.com");
    ("name", VStr "Ann") ].

(** An element class that declares a read-only field next to a writable
    one, the way [Attachment.FIELDS] declares [size] next to [name], and
    inherits everything else from [EWSElement]. *)
Definition sized_FIELDS : list Field.t :=
  [ fields.TextField "name" "Name" false None;
    fields.IntegerField "size" "Size" true ].

Definition sized_class : EWSElement.Class :=
  EWSElement.mkClass "Sized" TNS sized_FIELDS (EWSElement.clean sized_FIELDS).

Definition sized : EWSElement.Instance :=
  <["name" := VStr "report.txt"]> (<["size" := VInt 5]> ∅).

(** An item bound to an account, and an attachment constructed for it. *)
Definition item1 : Item := mkItem (Some "item-1") (Some "ck-1") (Some "ann@example.com").

Definition new_file : Attachment :=
  mkAttachment (Some 1%positive) None (VStr "report.txt") VNone VNone VNone VNone VNone VNone
    (FileAttachment VNone (VBytes (bytes_of_string "hello"))).

Definition new_item_attachment : Attachment :=
  mkAttachment (Some 1%positive) None (VStr "note") VNone VNone VNone VNone VNone VNone
    (ItemAttachment (VObj "Message" [])).

Definition start (a : Attachment) : State := mkState a {[ 1%positive := item1 ]} [].

(** The response to a create request: the attachment element with the
    new identity and the root item's id and change-token. *)
Definition created (cls root_id root_changekey : string) : Element :=
  mkElement ("{" ++ uri TNS ++ "}" ++ cls) [] None
    [ mkElement AttachmentId.response_tag
        [("Id", "att-1"); ("RootItemId", root_id); ("RootItemChangeKey", root_changekey)]
        None [] ].

(** The response to a delete request. *)
Definition deleted (root_id root_changekey : string) : Element :=
  mkElement (ItemId.response_tag ItemId.RootItemIdC)
    [("RootItemId", root_id); ("RootItemChangeKey", root_changekey)] None [].

(** Decoders for a response that carries none of the plain fields. *)
Definition no_fields (_ : string) (_ : Element) : Res pyval := Ok VNone.

(** A service that answers every request with the same batch. *)
Definition always (r : list Result) : Env := mkEnv no_fields (fun _ _ => r).

(** An attachment fetched with its identity only. *)
Definition fetched_file : Attachment :=
  mkAttachment (Some 1%positive) (Some (AttachmentId.mk (Some "att-1") None None))
    (VStr "report.txt") VNone VNone VNone VNone VNone VNone
    (FileAttachment VNone VNone).

(** Responses to a get request: with a payload, with an empty [Content]
    element as the parser delivers it, with an empty text, and without
    the [Content] child. *)
Definition got (cs : list Element) : Element :=
  mkElement ("{" ++ uri TNS ++ "}FileAttachment") [] None cs.
Definition Content (x : option string) : Element :=
  mkElement ("{" ++ uri TNS ++ "}Content") [] x [].

(** A service whose get response carries the payload "hello", and one
    whose get response carries no payload. *)
Definition with_payload : Env := always [RElem (got [Content (Some "aGVsbG8=")])].
Definition without_payload : Env := always [RElem (got [])].

End Examples.

(** ** The statements of the specification *)

Module Spec.

Import EWSElement.

(** The fields encode is said to skip: read-only fields, fields whose
    value is absent, and list fields whose value is empty. *)
Definition skips (f : Field.t) (self : Instance) : bool :=
  Field.is_read_only f ||
  match self !! Field.name f with
  | Some v => is_none v || (Field.is_list f && negb (truthy v))
  | None => false
  end.

(** The element a field that is not skipped contributes. *)
Definition encodes (version : Version) (self : Instance) (f : Field.t) (c : Element) : Prop :=
  exists v, self !! Field.name f = Some v /\ Field.to_xml f v version = Ok c.

(** Setting attribute values one after the other. *)
Definition setattrs (l : list (string * pyval)) (self : Instance) : Instance :=
  foldl (fun self '(n, v) => snd (setattr n v self)) self l.

(** [decode(encode(entity))], the decoder applied to the very element
    the encoder returned. *)
Definition decode_encoded (cls : Class) (version : Version) (self : Instance)
    : Res (option Instance) :=
  elem ← fst (to_xml cls version self); from_xml cls (Some elem).

Definition ItemId_decode_encoded (version : Version) (x : ItemId.t) : Res (option ItemId.t) :=
  elem ← fst (ItemId.to_xml version x); ItemId.from_xml (ItemId.cls x) (Some elem).

(** The same with the transport between the two. *)
Definition decode_transferred (cls : Class) (version : Version) (self : Instance)
    : Res (option Instance) :=
  elem ← fst (to_xml cls version self); from_xml cls (Some (wire.transfer elem)).

Definition ItemId_decode_transferred (version : Version) (x : ItemId.t)
    : Res (option ItemId.t) :=
  elem ← fst (ItemId.to_xml version x);
  ItemId.from_xml (ItemId.cls x) (Some (wire.transfer elem)).

(** An attribute of a decoded instance. *)
Definition attribute_of (n : string) (r : Res (option Instance)) : option pyval :=
  match r with
  | Ok (Some self) => self !! n
  | _ => None
  end.

End Spec.

(** ** attachments.py: the other methods *)

Module attachment_methods.

Import attachments.

(** [isinstance(value, bytes)] *)
Definition is_bytes (v : pyval) : bool :=
  match v with VBytes _ => true | _ => false end.

(** The setter of the [content] property.  [ItemAttachment] has no such
    attribute and no instance dictionary. *)
Definition set_content (value : pyval) : M State unit :=
  st ← get;
  match extra (self st) with
  | ItemAttachment _ =>
      raise (AttributeError "'ItemAttachment' object has no attribute 'content'")
  | FileAttachment _ _ =>
      assert (is_bytes value);;
      set_self (with_content value)
  end.

Definition with_item (v : pyval) (a : Attachment) : Attachment :=
  mkAttachment (parent_item a) (attachment_id a) (name a) (content_type a) (content_id a)
    (content_location a) (size a) (last_modified_time a) (is_inline a)
    match extra a with
    | ItemAttachment _ => ItemAttachment v
    | x => x
    end.

Definition with_content_type (v : pyval) (a : Attachment) : Attachment :=
  mkAttachment (parent_item a) (attachment_id a) (name a) v (content_id a)
    (content_location a) (size a) (last_modified_time a) (is_inline a) (extra a).

(** The [item] property up to [assert len(items) == 1]: the guard, the
    request and the decoding of the response by the class of [self]. *)
Definition item_fetch (env : Env) (aid : AttachmentId.t)
    : M State (list (exn + option Attachment)) :=
  '(l, acct) ← parent_with_account "ItemAttachment must have an account";
  st ← get;
  results ← call env (GetAttachment acct [aid] true);
  items ← mapM (fun i =>
                  match i with
                  | RExc e => mret (inl e)
                  | RElem elem =>
                      r ← call_kw "from_xml" from_xml_params ["elem"; "account"]
                            (lift (from_xml env (self st) (Some elem) acct));
                      mret (inr r)
                  | RTuple => raise (AttributeError "'tuple' object has no attribute 'tag'")
                  end) results;
  assert (length items =? 1)%nat;;
  mret items.

(** The [item] property of [ItemAttachment].  It reads the same property
    of the attachment it decoded, twice, so the definition goes by fuel:
    [None] means that the fuel ran out.  The decoded attachment takes the
    place of [self] while it is read. *)
Fixpoint item (fuel : nat) (env : Env) (st : State) : option (Res pyval * State) :=
  match fuel with
  | O => None
  | Datatypes.S fuel =>
      match extra (self st) with
      | FileAttachment _ _ =>
          Some (Raise (AttributeError "'FileAttachment' object has no attribute 'item'"), st)
      | ItemAttachment _item =>
          match attachment_id (self st) with
          | None => Some (Ok _item, st)
          | Some aid =>
              if negb (is_none _item) then Some (Ok _item, st)
              else
                match item_fetch env aid st with
                | (Raise e, st1) => Some (Raise e, st1)
                | (Ok items, st1) =>
                    match items with
                    | inl e :: _ => Some (Raise e, st1)
                    | inr None :: _ =>
                        Some (Raise (AttributeError "'NoneType' object has no attribute 'item'"),
                              st1)
                    | inr (Some attachment) :: _ =>
                        match item fuel env (mkState attachment (heap st1) (calls st1)) with
                        | None => None
                        | Some (Raise e, sa) =>
                            Some (Raise e, mkState (self st1) (heap sa) (calls sa))
                        | Some (Ok v, sa) =>
                            if is_none v then
                              Some (Raise AssertionError, mkState (self st1) (heap sa) (calls sa))
                            else
                              match item fuel env sa with
                              | None => None
                              | Some (Raise e, sb) =>
                                  Some (Raise e, mkState (self st1) (heap sb) (calls sb))
                              | Some (Ok v', sb) =>
                                  Some (Ok v',
                                        mkState (with_item v' (self st1)) (heap sb) (calls sb))
                              end
                        end
                    | [] => Some (Raise AssertionError, st1)
                    end
                end
          end
      end
  end.

Definition opt_str (o : option string) : pyval := from_option VStr VNone o.

(** A list cannot be hashed. *)
Definition hashable (v : pyval) : bool :=
  match v with VList _ => false | _ => true end.

(** [hash(tuple(...))], with the hash function [h] of the interpreter. *)
Definition hash_tuple (h : list pyval -> Z) (t : list pyval) : Res Z :=
  if forallb hashable t then Ok (h t)
  else Raise (TypeError "unhashable type: 'list'").

(** [EWSElement.__hash__] on an [AttachmentId]: the tuple of its slots. *)
Definition AttachmentId_hash (h : list pyval -> Z) (i : AttachmentId.t) : Res Z :=
  hash_tuple h [opt_str (AttachmentId.id i); opt_str (AttachmentId.root_id i);
                opt_str (AttachmentId.root_changekey i)].

(** The values of [self.__slots__[1:]], every slot but [parent_item], of
    an attachment without identity. *)
Definition slots_after_parent (a : Attachment) : list pyval :=
  [VNone; name a; content_type a; content_id a; content_location a; size a;
   last_modified_time a; is_inline a] ++
  match extra a with
  | FileAttachment is_contact_photo _content => [is_contact_photo; _content]
  | ItemAttachment _item => [_item]
  end.

(** [Attachment.__hash__] *)
Definition __hash__ (h : list pyval -> Z) (a : Attachment) : Res Z :=
  match attachment_id a with
  | None => hash_tuple h (slots_after_parent a)
  | Some i => AttachmentId_hash h i
  end.

(** What an attachment is compared with. *)
Inductive operand :=
  | AnAttachment (a : Attachment)
  | AnAttachmentId (i : AttachmentId.t).

Definition hash_of (h : list pyval -> Z) (o : operand) : Res Z :=
  match o with
  | AnAttachment a => __hash__ h a
  | AnAttachmentId i => AttachmentId_hash h i
  end.

(** [EWSElement.__eq__], which [Attachment] inherits. *)
Definition __eq__ (h : list pyval -> Z) (self : Attachment) (other : operand) : Res bool :=
  x ← __hash__ h self;
  y ← hash_of h other;
  mret (Z.eqb x y).

(** The parameters [EWSElement.clean] declares besides [self]. *)
Definition EWSElement_clean_params : list string := [].

(** [Attachment.clean(self, version=None)].  [guess_type] is the first
    component of [mimetypes.guess_type], [super_clean] the body of
    [EWSElement.clean] on this instance; the owning item is of class
    [Item] by its type. *)
Definition clean (guess_type : string -> option string) (super_clean : M State unit)
    : M State unit :=
  st ← get;
  (if is_none (content_type (self st)) && negb (is_none (name (self st))) then
     match name (self st) with
     | VStr n =>
         set_self (with_content_type
                     (VStr match guess_type n with
                           | Some (String c t) => String c t
                           | _ => "application/octet-stream"
                           end))
     | _ => raise (TypeError "expected str, bytes or os.PathLike object")
     end
   else mret tt);;
  call_kw "clean" EWSElement_clean_params ["version"] super_clean.

End attachment_methods.

(** ** Conditions on a state *)

Module conditions.

Import attachments.

(** The owner is missing, or is not bound to an account. *)
Definition no_account (st : State) : Prop :=
  parent_item (self st) = None \/
  exists l p, parent_item (self st) = Some l /\ heap st !! l = Some p /\ account p = None.

(** The owner is there and bound to an account. *)
Definition owned_by (st : State) (l : loc) (p : Item) (acct : Account) : Prop :=
  parent_item (self st) = Some l /\ heap st !! l = Some p /\ account p = Some acct.

(** The state after one more request. *)
Definition requested (c : Call) (st : State) : State :=
  mkState (self st) (heap st) (calls st ++ [c]).

End conditions.

(** ** Further inputs for the examples *)

Module MoreExamples.

Import attachments Examples.

(** An item attachment fetched with its identity only. *)
Definition fetched_item_attachment : Attachment :=
  mkAttachment (Some 1%positive) (Some (AttachmentId.mk (Some "att-2") None None))
    (VStr "note") VNone VNone VNone VNone VNone VNone (ItemAttachment VNone).

(** Decoders for a get response: the nested item is the [Message] child,
    if there is one. *)
Definition item_fields (n : string) (elem : Element) : Res pyval :=
  if String.eqb n "_item" then
    match find ("{" ++ uri TNS ++ "}Message") elem with
    | Some _ => Ok (VObj "Message" [])
    | None => Ok VNone
    end
  else Ok VNone.

Definition answering (r : list Result) : Env := mkEnv item_fields (fun _ _ => r).

Definition got_item (cs : list Element) : Element :=
  mkElement ("{" ++ uri TNS ++ "}ItemAttachment") [] None cs.

Definition AttachmentId_element : Element :=
  mkElement AttachmentId.response_tag [("Id", "att-2")] None [].

Definition Message_element : Element :=
  mkElement ("{" ++ uri TNS ++ "}Message") [] None [].

(** An item without an account. *)
Definition orphan : Item := mkItem (Some "item-1") (Some "ck-1") None.

Definition remote_failure : exn := RemoteError "ErrorItemNotFound".

End MoreExamples.

(** ** properties.py: the constructor of [ItemId] *)

Module ItemId_init.

(** [ItemId.__init__(self, *args, **kwargs)]: positional arguments are
    paired with the slots only when no keyword is given; then
    [EWSElement.__init__] pops the two declared names and refuses what is
    left, with a message that lists the offending keywords and is
    abbreviated here. *)
Definition __init__ (c : ItemId.Class) (args : list (option string))
    (kwargs : gmap string (option string)) : Res ItemId.t :=
  let kwargs : gmap string (option string) :=
    if decide (kwargs = ∅) then list_to_map (zip ["id"; "changekey"] args) else kwargs in
  let id := default None (kwargs !! "id") in
  let kwargs := delete "id" kwargs in
  let changekey := default None (kwargs !! "changekey") in
  let kwargs := delete "changekey" kwargs in
  if decide (kwargs = ∅) then Ok (ItemId.mk c id changekey)
  else Raise (TypeError "invalid arguments for this class").

End ItemId_init.

(** ** properties.py: the field list of a class *)

Module registry.

(** What the three class methods can raise. *)
Inductive error :=
  | KeyError (k : string)
  | ConcatTypeError
  | NoFIELDS.

Section Descriptors.

(** The field descriptors, compared by [!=], and their names. *)
Context {A : Type} `{EqDecision A}.
Variable name : A -> string.

(** [FIELDS] is declared as a tuple in [properties.py] and as a list in
    [attachments.py]. *)
Inductive Seq :=
  | Tuple (l : list A)
  | PyList (l : list A).

Definition elements (s : Seq) : list A :=
  match s with Tuple l => l | PyList l => l end.

(** The attributes a class holds itself. *)
Record ClassDict := mkClassDict {
  own_FIELDS : option Seq;
  own_fields_map : option (gmap string A)
}.

(** Attribute lookup along the method resolution order of a class,
    itself first. *)
Fixpoint get_FIELDS (mro : list string) (cs : gmap string ClassDict) : option Seq :=
  match mro with
  | [] => None
  | c :: mro' =>
      match cs !! c ≫= own_FIELDS with
      | Some s => Some s
      | None => get_FIELDS mro' cs
      end
  end.

Fixpoint get_fields_map (mro : list string) (cs : gmap string ClassDict)
    : option (gmap string A) :=
  match mro with
  | [] => None
  | c :: mro' =>
      match cs !! c ≫= own_fields_map with
      | Some m => Some m
      | None => get_fields_map mro' cs
      end
  end.

Definition dict_of (c : string) (cs : gmap string ClassDict) : ClassDict :=
  default (mkClassDict None None) (cs !! c).

(** [cls.FIELDS = s] *)
Definition set_FIELDS (c : string) (s : Seq) (cs : gmap string ClassDict)
    : gmap string ClassDict :=
  <[c := mkClassDict (Some s) (own_fields_map (dict_of c cs))]> cs.

(** [cls._fields_map = m] *)
Definition set_fields_map (c : string) (m : gmap string A) (cs : gmap string ClassDict)
    : gmap string ClassDict :=
  <[c := mkClassDict (own_FIELDS (dict_of c cs)) (Some m)]> cs.

(** [try: delattr(cls, '_fields_map') except AttributeError: pass]: only
    an attribute the class holds itself can be deleted. *)
Definition del_fields_map (c : string) (cs : gmap string ClassDict) : gmap string ClassDict :=
  match cs !! c ≫= own_fields_map with
  | Some _ => <[c := mkClassDict (own_FIELDS (dict_of c cs)) None]> cs
  | None => cs
  end.

(** [{f.name: f for f in fields}] *)
Definition by_name (fields : list A) : gmap string A :=
  foldl (fun m f => <[name f := f]> m) ∅ fields.

(** [get_field_by_fieldname(cls, fieldname)], for the class at the head
    of [mro]. *)
Definition get_field_by_fieldname (mro : list string) (fieldname : string)
    (cs : gmap string ClassDict) : (error + A) * gmap string ClassDict :=
  match mro with
  | [] => (inl NoFIELDS, cs)
  | c :: _ =>
      let step :=
        match get_fields_map mro cs with
        | Some _ => inr cs
        | None =>
            match get_FIELDS mro cs with
            | Some s => inr (set_fields_map c (by_name (elements s)) cs)
            | None => inl NoFIELDS
            end
        end in
      match step with
      | inl e => (inl e, cs)
      | inr cs =>
          match get_fields_map mro cs ≫= (.!! fieldname) with
          | Some f => (inr f, cs)
          | None => (inl (KeyError fieldname), cs)
          end
      end
  end.

(** The position at which the slices [s[0:idx]] and [s[idx:]] cut a
    sequence of length [len]. *)
Definition cut (len : nat) (idx : Z) : nat :=
  if (idx <? 0)%Z then Z.to_nat (Z.max 0 (Z.of_nat len + idx))
  else Nat.min (Z.to_nat idx) len.

(** [add_field(cls, field, idx)] *)
Definition add_field (mro : list string) (field : A) (idx : Z)
    (cs : gmap string ClassDict) : (error + unit) * gmap string ClassDict :=
  match mro with
  | [] => (inl NoFIELDS, cs)
  | c :: _ =>
      match get_FIELDS mro cs with
      | None => (inl NoFIELDS, cs)
      | Some (PyList _) => (inl ConcatTypeError, cs)
      | Some (Tuple l) =>
          let n := cut (length l) idx in
          (inr tt, del_fields_map c (set_FIELDS c (Tuple (take n l ++ [field] ++ drop n l)) cs))
      end
  end.

(** [remove_field(cls, field)] *)
Definition remove_field (mro : list string) (field : A)
    (cs : gmap string ClassDict) : (error + unit) * gmap string ClassDict :=
  match mro with
  | [] => (inl NoFIELDS, cs)
  | c :: _ =>
      match get_FIELDS mro cs with
      | None => (inl NoFIELDS, cs)
      | Some s =>
          (inr tt,
           del_fields_map c (set_FIELDS c (Tuple (filter (fun f => f <> field) (elements s))) cs))
      end
  end.

End Descriptors.

End registry.

(** ** attachments.py: the constructors *)

Module attachment_init.

Import EWSElement.

(** The names of the fields the three classes declare, in order. *)
Definition Attachment_names : list string :=
  ["attachment_id"; "name"; "content_type"; "content_id"; "content_location"; "size";
   "last_modified_time"; "is_inline"].

Definition FileAttachment_names : list string :=
  (Attachment_names ++ ["is_contact_photo"; "_content"])%list.

Definition ItemAttachment_names : list string :=
  (Attachment_names ++ ["_item"])%list.

(** [Attachment.__init__(self, **kwargs)]: [parent_item] is popped and
    set, the rest goes to [EWSElement.__init__], which sets the declared
    fields on the same object. *)
Definition Attachment__init__ (FIELDS : list Field.t) (kwargs : gmap string pyval)
    : Res Instance :=
  let parent_item := default VNone (kwargs !! "parent_item") in
  let kwargs := delete "parent_item" kwargs in
  self ← __init__ FIELDS kwargs;
  mret (self ∪ {[ "parent_item" := parent_item ]}).

(** [FileAttachment.__init__(self, **kwargs)] *)
Definition FileAttachment__init__ (FIELDS : list Field.t) (kwargs : gmap string pyval)
    : Res Instance :=
  let kwargs := <["_content" := default VNone (kwargs !! "content")]> (delete "content" kwargs) in
  Attachment__init__ FIELDS kwargs.

(** [ItemAttachment.__init__(self, **kwargs)] *)
Definition ItemAttachment__init__ (FIELDS : list Field.t) (kwargs : gmap string pyval)
    : Res Instance :=
  let kwargs := <["_item" := default VNone (kwargs !! "item")]> (delete "item" kwargs) in
  Attachment__init__ FIELDS kwargs.

(** The keywords a constructor takes: the public name of the payload,
    the owner, and the declared fields. *)
Definition accepted (public : string) (names : list string) : list string :=
  public :: "parent_item" :: names.

End attachment_init.

(** ** Inputs for the examples of the further properties *)

Module FurtherExamples.

Import attachments Examples MoreExamples registry.

(** An attachment whose owner has no account. *)
Definition orphaned (a : Attachment) : State := mkState a {[ 1%positive := orphan ]} [].

(** An attachment whose name has a known type, and one without a name. *)
Definition guess_txt (n : string) : option string :=
  if String.eqb n "report.txt" then Some "text/plain" else None.

(** A hash function for the examples. *)
Definition length_hash (l : list pyval) : Z := Z.of_nat (length l).

(** A field descriptor reduced to its name and its wire name. *)
Definition descriptor : Type := string * option string.

Definition Mailbox_descriptors : list descriptor :=
  [ ("name", Some "Name"); ("email_address", Some "EmailAddress");
    ("mailbox_type", Some "MailboxType"); ("item_id", None) ].

Definition Attachment_descriptors : list descriptor :=
  [ ("attachment_id", None); ("name", Some "Name"); ("content_type", Some "ContentType");
    ("content_id", Some "ContentId"); ("content_location", Some "ContentLocation");
    ("size", Some "Size"); ("last_modified_time", Some "LastModifiedTime");
    ("is_inline", Some "IsInline") ].

Definition routing_type : descriptor := ("routing_type", Some "RoutingType").

(** The class dictionaries as the two modules leave them: [EWSElement]
    and [Mailbox] declare tuples, [Attachment] a list, [Room] nothing. *)
Definition classes : gmap string (ClassDict (A := descriptor)) :=
  <["EWSElement" := mkClassDict (Some (Tuple [])) None]>
  (<["Mailbox" := mkClassDict (Some (Tuple Mailbox_descriptors)) None]>
  (<["Attachment" := mkClassDict (Some (PyList Attachment_descriptors)) None]> ∅)).

(** Fields that carry given names. *)
Definition named (names : list string) : list Field.t :=
  (fun n => fields.TextField n n false None) <$> names.

(** Keywords for the two constructors. *)
Definition file_kwargs : gmap string pyval :=
  <["name" := VStr "report.txt"]>
  (<["content" := VStr "not bytes"]>
  (<["_content" := VBytes (bytes_of_string "hello")]> ∅)).

Definition item_kwargs : gmap string pyval :=
  <["name" := VStr "note"]>
  (<["item" := VObj "Message" []]>
  (<["_item" := VInt 1]> ∅)).

(** A mailbox with a type outside the choices, and one with no value. *)
Definition robot : EWSElement.Instance := <["mailbox_type" := VStr "Robot"]> ann.


End FurtherExamples.

(** * Properties *)

(** Running a computation: unfold the monad down to the state function. *)
Ltac run :=
  unfold mbind, mret, M_bind, M_ret, Res_bind, Res_ret, bind, ret, rbind, raise,
    get, put, modify, lift, assert in *; cbn beta iota in *.

(** Membership in a literal list of fields, case by case. *)
Ltac each_field H :=
  repeat (apply elem_of_cons in H as [->|H]); [..|apply elem_of_nil in H; destruct H].

(** Membership and distinctness in literal lists of names. *)
Ltac by_computation := apply (bool_decide_unpack _); vm_compute; reflexivity.

(** The keys of a literal dictionary, case by case. *)
Ltac each_key H :=
  repeat (apply lookup_insert_Some in H as [[<- _]|[_ H]]; [by_computation|]);
  rewrite lookup_empty in H; discriminate.

(** The decoders are reasoned about through their results. *)
Arguments attachments.from_xml : simpl never.
Arguments ItemId.from_xml : simpl never.
Arguments Base64.b64decode : simpl never.

(** A comprehension returns as many elements as it consumed. *)
Lemma mapM_length {S A B} (f : A -> M S B) (l : list A) s ys s' :
  mapM f l s = (Ok ys, s') -> length ys = length l.
Proof.
  revert s ys s'. induction l as [|x xs IH]; intros s ys s' H; cbn in H; run.
  - inversion H. reflexivity.
  - destruct (f x s) as [[y|e] s1]; [|discriminate].
    destruct (mapM f xs s1) as [[ys'|e] s2] eqn:E; [|discriminate].
    inversion H; subst. cbn. f_equal. eapply IH, E.
Qed.

(** One turn of a loop. *)
Lemma foldM_cons {S A B} (body : B -> A -> M S B) (x : A) (xs : list A) (b : B) (s : S) :
  foldM body (x :: xs) b s =
    match body b x s with
    | (Ok b', s') => foldM body xs b' s'
    | (Raise e, s') => (Raise e, s')
    end.
Proof. reflexivity. Qed.

Section Attachments.

Import attachments.

Variable env : Env.

(** The guard on the owning item passes when it is present and bound to
    an account, and leaves the state alone. *)
Lemma parent_with_account_ok msg st l p acct :
  parent_item (self st) = Some l -> heap st !! l = Some p -> account p = Some acct ->
  parent_with_account msg st = (Ok (l, acct), st).
Proof.
  intros Hl Hp Ha. unfold parent_with_account, deref. run.
  rewrite Hl. cbn. rewrite Hp. cbn. rewrite Ha. reflexivity.
Qed.

(** Updating an item that is there replaces it. *)
Lemma alter_present (f : Item -> Item) l (h : gmap loc Item) p :
  h !! l = Some p -> alter f l h = <[l := f p]> h.
Proof.
  intros Hp. apply map_eq. intros i. destruct (decide (l = i)) as [->|Hne].
  - rewrite lookup_alter_eq, lookup_insert_eq, Hp. reflexivity.
  - rewrite lookup_alter_ne, lookup_insert_ne by done. reflexivity.
Qed.

(** What [attach] does once the guards have passed and the service has
    answered with one element that decodes to an attachment carrying an
    identity. *)
Lemma attach_decoded st l p acct elem r aid :
  attachment_id (self st) = None ->
  parent_item (self st) = Some l -> heap st !! l = Some p -> account p = Some acct ->
  service env (calls st) (CreateAttachment acct l [self st]) = [RElem elem] ->
  from_xml env (self st) (Some elem) acct = Ok (Some r) ->
  attachment_id r = Some aid ->
  attach env st =
    let st1 := mkState (self st) (heap st) (calls st ++ [CreateAttachment acct l [self st]]) in
    if bool_decide (AttachmentId.root_id aid = item_id p) then
      if bool_decide (AttachmentId.root_changekey aid = changekey p) then
        (Raise AssertionError, st1)
      else
        (Ok tt,
         mkState (with_attachment_id (Some (AttachmentId.mk (AttachmentId.id aid) None None)) (self st))
                 (<[l := mkItem (item_id p) (AttachmentId.root_changekey aid) (account p)]> (heap st))
                 (calls st1))
    else (Raise AssertionError, st1).
Proof.
  intros Hnone Hl Hp Ha Hsvc Hdec Haid.
  unfold attach. run. rewrite Hnone.
  rewrite bool_decide_eq_false_2 by (intros [? ?]; discriminate).
  rewrite (parent_with_account_ok _ st l p acct Hl Hp Ha).
  unfold call. rewrite Hsvc. cbn [mapM]. run.
  unfold call_kw. cbn [unexpected_kw from_xml_params List.find existsb negb String.eqb Ascii.eqb Bool.eqb orb].
  run. rewrite Hdec. cbn. rewrite Haid.
  unfold deref. cbn. rewrite Hp. cbn.
  destruct (bool_decide (AttachmentId.root_id aid = item_id p)); cbn; [|reflexivity].
  destruct (bool_decide (AttachmentId.root_changekey aid = changekey p)); cbn; [reflexivity|].
  unfold set_self. run. rewrite (alter_present _ l _ p Hp). reflexivity.
Qed.

(** [attach] returns only along the path of [attach_decoded], with both
    consistency checks passed. *)
Lemma attach_returns st st' :
  attach env st = (Ok tt, st') ->
  exists l p acct elem r aid,
    attachment_id (self st) = None /\
    parent_item (self st) = Some l /\ heap st !! l = Some p /\ account p = Some acct /\
    service env (calls st) (CreateAttachment acct l [self st]) = [RElem elem] /\
    from_xml env (self st) (Some elem) acct = Ok (Some r) /\
    attachment_id r = Some aid /\
    AttachmentId.root_id aid = item_id p /\
    AttachmentId.root_changekey aid <> changekey p.
Proof.
  intros H. pose proof H as H0. unfold attach in H. run.
  destruct (attachment_id (self st)) as [a|] eqn:Hnone.
  { rewrite bool_decide_eq_true_2 in H by eauto. discriminate. }
  rewrite bool_decide_eq_false_2 in H by (intros [? ?]; discriminate).
  unfold parent_with_account, deref in H. run.
  destruct (parent_item (self st)) as [l|] eqn:Hl; [|discriminate]. cbn in H.
  destruct (heap st !! l) as [p|] eqn:Hp; [|discriminate]. cbn in H.
  destruct (account p) as [acct|] eqn:Ha; [|discriminate].
  unfold call in H.
  destruct (service env (calls st) (CreateAttachment acct l [self st]))
    as [|x [|y rest]] eqn:Hsvc.
  - cbn in H. discriminate.
  - destruct x as [e|elem|].
    + cbn in H. discriminate.
    + destruct (from_xml env (self st) (Some elem) acct) as [[r|]|e] eqn:Hdec.
      * destruct (attachment_id r) as [aid|] eqn:Haid.
        -- exists l, p, acct, elem, r, aid.
           rewrite (attach_decoded st l p acct elem r aid) in H0 by assumption.
           cbn zeta in H0. repeat case_bool_decide; try discriminate. tauto.
        -- cbn in H. run. rewrite Hdec in H. cbn in H. rewrite Haid in H. discriminate.
      * cbn in H. run. rewrite Hdec in H. discriminate.
      * cbn in H. run. rewrite Hdec in H. discriminate.
    + cbn in H. discriminate.
  - match type of H with
    | context [mapM ?f ?xs ?s] => destruct (mapM f xs s) as [[items|e] s1] eqn:Hm
    end; [|discriminate].
    apply mapM_length in Hm. cbn in Hm.
    destruct items as [|i1 [|i2 items]]; cbn in Hm; try lia. cbn in H. discriminate.
Qed.

(** [attach] on an attachment that already has an identity stops at the
    first guard. *)
Lemma attach_attached st :
  is_Some (attachment_id (self st)) ->
  attach env st = (Raise (ValueError "This attachment has already been created"), st).
Proof.
  intros H. unfold attach. run. rewrite bool_decide_eq_true_2 by exact H. reflexivity.
Qed.

(** C1: an unattached binary or nested-item attachment whose owning item
    is present and bound to an account, and a create response that
    decodes to an identity whose root id is the owning item's id and
    whose root change-token differs from the item's: [attach] returns,
    the attachment has an identity afterwards, the owning item carries
    the returned change-token, and one request was made.  On an
    attachment that already has an identity, [attach] raises the
    precondition error and the state, with its record of requests, is
    unchanged. *)
Theorem attach_lifecycle :
  (forall st l p acct elem r aid,
     attachment_id (self st) = None ->
     parent_item (self st) = Some l -> heap st !! l = Some p -> account p = Some acct ->
     service env (calls st) (CreateAttachment acct l [self st]) = [RElem elem] ->
     from_xml env (self st) (Some elem) acct = Ok (Some r) ->
     attachment_id r = Some aid ->
     AttachmentId.root_id aid = item_id p ->
     AttachmentId.root_changekey aid <> changekey p ->
     exists st',
       attach env st = (Ok tt, st') /\
       is_Some (attachment_id (self st')) /\
       parent_item (self st') = Some l /\
       heap st' = <[l := mkItem (item_id p) (AttachmentId.root_changekey aid) (account p)]> (heap st) /\
       calls st' = (calls st ++ [CreateAttachment acct l [self st]])%list) /\
  (forall st,
     is_Some (attachment_id (self st)) ->
     attach env st = (Raise (ValueError "This attachment has already been created"), st)).
Proof.
  split; [|exact attach_attached].
  intros st l p acct elem r aid Hnone Hl Hp Ha Hsvc Hdec Haid Hid Hck.
  rewrite (attach_decoded st l p acct elem r aid) by assumption. cbn zeta.
  rewrite bool_decide_eq_true_2 by exact Hid.
  rewrite bool_decide_eq_false_2 by exact Hck.
  eexists. split; [reflexivity|]. cbn. repeat split; eauto.
Qed.

(** C2: under the same circumstances, a create response whose root
    change-token equals the owning item's, or whose root id differs from
    the owning item's id, makes [attach] raise [AssertionError]; the
    attachment, still without an identity, and every item, the owning
    one with its change-token, are as before. *)
Theorem attach_consistency_check st l p acct elem r aid :
  attachment_id (self st) = None ->
  parent_item (self st) = Some l -> heap st !! l = Some p -> account p = Some acct ->
  service env (calls st) (CreateAttachment acct l [self st]) = [RElem elem] ->
  from_xml env (self st) (Some elem) acct = Ok (Some r) ->
  attachment_id r = Some aid ->
  AttachmentId.root_changekey aid = changekey p \/ AttachmentId.root_id aid <> item_id p ->
  exists st',
    attach env st = (Raise AssertionError, st') /\
    self st' = self st /\ heap st' = heap st /\
    attachment_id (self st') = None /\
    changekey <$> heap st' !! l = Some (changekey p).
Proof.
  intros Hnone Hl Hp Ha Hsvc Hdec Haid Hbad.
  rewrite (attach_decoded st l p acct elem r aid) by assumption. cbn zeta.
  assert (Hst : forall c, exists st' : State,
            (@Raise unit AssertionError, mkState (self st) (heap st) c) = (Raise AssertionError, st') /\
            self st' = self st /\ heap st' = heap st /\
            attachment_id (self st') = None /\
            changekey <$> heap st' !! l = Some (changekey p)).
  { intros c. eexists. split; [reflexivity|]. cbn. rewrite Hp. auto. }
  case_bool_decide as Hid; [|apply Hst].
  case_bool_decide as Hck; [apply Hst|]. tauto.
Qed.

(** C4: whenever [attach] returns, the identity stored on the attachment
    has its root id and root change-token set to [None]: it is the
    identity decoded from the create response, which carried the owning
    item's id as root id and a change-token as root change-token, with
    those two fields cleared. *)
Theorem attach_strips_root_fields st st' :
  attach env st = (Ok tt, st') ->
  exists stored,
    attachment_id (self st') = Some stored /\
    AttachmentId.root_id stored = None /\
    AttachmentId.root_changekey stored = None /\
    exists l p acct elem aid,
      parent_item (self st) = Some l /\ heap st !! l = Some p /\
      service env (calls st) (CreateAttachment acct l [self st]) = [RElem elem] /\
      AttachmentId.field_from_xml elem = Some aid /\
      AttachmentId.root_id aid = item_id p /\
      AttachmentId.root_changekey aid <> changekey p /\
      AttachmentId.id stored = AttachmentId.id aid.
Proof.
  intros H. destruct (attach_returns st st' H)
    as (l & p & acct & elem & r & aid & Hnone & Hl & Hp & Ha & Hsvc & Hdec & Haid & Hid & Hck).
  rewrite (attach_decoded st l p acct elem r aid) in H by assumption. cbn zeta in H.
  rewrite bool_decide_eq_true_2 in H by exact Hid.
  rewrite bool_decide_eq_false_2 in H by exact Hck.
  inversion H; subst st'; clear H. cbn.
  eexists. split; [reflexivity|]. cbn. repeat split.
  exists l, p, acct, elem, aid. repeat split; auto.
  unfold from_xml in Hdec.
  destruct (String.eqb (tag elem) (response_tag (self st))); [|discriminate].
  run.
  repeat match type of Hdec with
         | context [match ?x with Ok _ => _ | Raise _ => _ end] => destruct x; try discriminate
         end.
  inversion Hdec; subst r. cbn in Haid. exact Haid.
Qed.

(** [detach] on an attachment without an identity stops at the first
    guard, before any request. *)
Lemma detach_unattached params st :
  attachment_id (self st) = None ->
  detach_calling params env st =
    (Raise (ValueError "This attachment has not been created"), st).
Proof. intros H. unfold detach_calling. run. rewrite H. reflexivity. Qed.

(** The decoder [detach] calls declares [elem] only, so the keyword
    [account] is refused as soon as the response holds an element. *)
Lemma detach_type_error st aid l p acct elem rest :
  attachment_id (self st) = Some aid ->
  parent_item (self st) = Some l -> heap st !! l = Some p -> account p = Some acct ->
  service env (calls st) (DeleteAttachment acct [aid]) = RElem elem :: rest ->
  detach env st =
    (Raise (TypeError "from_xml() got an unexpected keyword argument 'account'"),
     mkState (self st) (heap st) (calls st ++ [DeleteAttachment acct [aid]])).
Proof.
  intros Haid Hl Hp Ha Hsvc. unfold detach, detach_calling. run. rewrite Haid.
  rewrite (parent_with_account_ok _ st l p acct Hl Hp Ha).
  unfold call. rewrite Hsvc. reflexivity.
Qed.

(** Had the decoder declared [account] as well, [detach] would update the
    owning item's change-token and clear the reference to the item and
    the identity. *)
Lemma detach_calling_lifecycle params st aid l p acct elem rid :
  unexpected_kw params ["elem"; "account"] = None ->
  attachment_id (self st) = Some aid ->
  parent_item (self st) = Some l -> heap st !! l = Some p -> account p = Some acct ->
  service env (calls st) (DeleteAttachment acct [aid]) = [RElem elem] ->
  ItemId.from_xml ItemId.RootItemIdC (Some elem) = Ok (Some rid) ->
  ItemId.id rid = item_id p ->
  ItemId.changekey rid <> changekey p ->
  detach_calling params env st =
    (Ok tt,
     mkState (with_attachment_id None (with_parent_item None (self st)))
             (<[l := mkItem (item_id p) (ItemId.changekey rid) (account p)]> (heap st))
             (calls st ++ [DeleteAttachment acct [aid]])).
Proof.
  intros Hkw Haid Hl Hp Ha Hsvc Hdec Hid Hck. unfold detach_calling. run. rewrite Haid.
  rewrite (parent_with_account_ok _ st l p acct Hl Hp Ha).
  unfold call. rewrite Hsvc. cbn [mapM]. run. unfold call_kw. rewrite Hkw.
  run. rewrite Hdec. cbn. unfold deref. cbn. rewrite Hp. cbn.
  rewrite bool_decide_eq_true_2 by exact Hid.
  rewrite bool_decide_eq_false_2 by exact Hck. cbn.
  unfold set_self. run. rewrite (alter_present _ l _ p Hp). reflexivity.
Qed.

(** Reading the payload of a binary attachment that has an identity and
    nothing cached, when the guard passes and the service answers with
    one element. *)
Lemma content_fetch st icp aid l p acct elem :
  extra (self st) = FileAttachment icp VNone ->
  attachment_id (self st) = Some aid ->
  parent_item (self st) = Some l -> heap st !! l = Some p -> account p = Some acct ->
  service env (calls st) (GetAttachment acct [aid] false) = [RElem elem] ->
  content env st =
    let cs := (calls st ++ [GetAttachment acct [aid] false])%list in
    match find ("{" ++ uri TNS ++ "}Content") elem with
    | None => (Ok VNone, mkState (self st) (heap st) cs)
    | Some val =>
        match Base64.b64decode (text val) with
        | Ok b => (Ok (VBytes b), mkState (with_content (VBytes b) (self st)) (heap st) cs)
        | Raise e => (Raise e, mkState (self st) (heap st) cs)
        end
    end.
Proof.
  intros Hx Haid Hl Hp Ha Hsvc. unfold content. run. rewrite Hx, Haid. cbn [is_none negb].
  rewrite (parent_with_account_ok _ st l p acct Hl Hp Ha).
  unfold call. rewrite Hsvc. cbn [length Nat.eqb]. cbn zeta.
  destruct (find _ elem) as [val|].
  - destruct (Base64.b64decode (text val)) as [b|e]; [|reflexivity].
    unfold set_self. run. cbn. rewrite Hx. reflexivity.
  - unfold set_self. run. cbn. rewrite Hx. cbn.
    destruct st as [[pi ai n ct ci cl sz lm il x] h c]. cbn in *. subst x. reflexivity.
Qed.

(** A payload that is not [None] is returned as it is. *)
Lemma content_cached st icp v :
  extra (self st) = FileAttachment icp v -> v <> VNone ->
  content env st = (Ok v, st).
Proof.
  intros Hx Hv. unfold content. run. rewrite Hx.
  destruct (attachment_id (self st)); [|reflexivity].
  destruct v; try reflexivity. congruence.
Qed.

(** A read that fetches returns only when the guard passed and the
    service answered with exactly one element. *)
Lemma content_returns st icp aid v st1 :
  extra (self st) = FileAttachment icp VNone ->
  attachment_id (self st) = Some aid ->
  content env st = (Ok v, st1) ->
  exists l p acct elem,
    parent_item (self st) = Some l /\ heap st !! l = Some p /\ account p = Some acct /\
    service env (calls st) (GetAttachment acct [aid] false) = [RElem elem].
Proof.
  intros Hx Haid H. unfold content in H. run. rewrite Hx, Haid in H. cbn [is_none negb] in H.
  unfold parent_with_account, deref in H. run.
  destruct (parent_item (self st)) as [l|] eqn:Hl; [|discriminate]. cbn in H.
  destruct (heap st !! l) as [p|] eqn:Hp; [|discriminate]. cbn in H.
  destruct (account p) as [acct|] eqn:Ha; [|discriminate].
  unfold call in H.
  destruct (service env (calls st) (GetAttachment acct [aid] false))
    as [|x [|y rest]] eqn:Hsvc; cbn in H; try discriminate.
  destruct x as [e|elem|]; try discriminate.
  exists l, p, acct, elem. auto.
Qed.

(** A read that gets past the guard makes one request, whatever the
    service answers. *)
Lemma content_fetch_calls st icp aid l p acct :
  extra (self st) = FileAttachment icp VNone ->
  attachment_id (self st) = Some aid ->
  parent_item (self st) = Some l -> heap st !! l = Some p -> account p = Some acct ->
  exists r st2,
    content env st = (r, st2) /\
    calls st2 = (calls st ++ [GetAttachment acct [aid] false])%list.
Proof.
  intros Hx Haid Hl Hp Ha. unfold content. run. rewrite Hx, Haid. cbn [is_none negb].
  rewrite (parent_with_account_ok _ st l p acct Hl Hp Ha).
  unfold call.
  destruct (service env (calls st) (GetAttachment acct [aid] false)) as [|x [|y rest]];
    cbn [length Nat.eqb]; cbn zeta; try (destruct x as [e|elem|]);
    try (eexists _, _; split; reflexivity).
  destruct (find _ elem) as [val|].
  - destruct (Base64.b64decode (text val)) as [b|e]; [|eexists _, _; split; reflexivity].
    unfold set_self. run. cbn. rewrite Hx. eexists _, _; split; reflexivity.
  - unfold set_self. run. cbn. rewrite Hx. eexists _, _; split; reflexivity.
Qed.

(** C5, as the code has it: for a binary attachment with an identity and
    no cached payload, a read that returns has made exactly one request;
    when it returned a payload, empty bytes included, a second read
    returns the same value from the attachment and makes no request; when
    it returned [None], nothing was recorded and a second read makes a
    second request. *)
Theorem lazy_fetch_caches_payload st icp aid v st1 :
  extra (self st) = FileAttachment icp VNone ->
  attachment_id (self st) = Some aid ->
  content env st = (Ok v, st1) ->
  length (calls st1) = Datatypes.S (length (calls st)) /\
  (v <> VNone -> content env st1 = (Ok v, st1)) /\
  (v = VNone ->
   exists r st2, content env st1 = (r, st2) /\
                 length (calls st2) = Datatypes.S (Datatypes.S (length (calls st)))).
Proof.
  intros Hx Haid H.
  destruct (content_returns st icp aid v st1 Hx Haid H)
    as (l & p & acct & elem & Hl & Hp & Ha & Hsvc).
  rewrite (content_fetch st icp aid l p acct elem) in H by assumption. cbn zeta in H.
  destruct (find _ elem) as [val|].
  - destruct (Base64.b64decode (text val)) as [b|e]; [|discriminate].
    inversion H; subst v st1; clear H. cbn.
    split; [rewrite length_app; cbn; lia|]. split; [|discriminate].
    intros _. apply (content_cached _ icp). cbn. rewrite Hx. reflexivity. discriminate.
  - inversion H; subst v st1; clear H. cbn.
    split; [rewrite length_app; cbn; lia|]. split; [congruence|].
    intros _.
    destruct (content_fetch_calls (mkState (self st) (heap st)
                (calls st ++ [GetAttachment acct [aid] false])) icp aid l p acct)
      as (r & st2 & Hr & Hc); try assumption.
    exists r, st2. split; [exact Hr|]. rewrite Hc. cbn. rewrite !length_app. cbn. lia.
Qed.

End Attachments.

Section AttachmentExamples.

Import attachments Examples.

(** C1 at a create response for the file attachment of the example, and
    at that attachment once it carries an identity. *)
Lemma attach_lifecycle_witness :
  (exists st',
     attach (always [RElem (created "FileAttachment" "item-1" "ck-2")]) (start new_file) = (Ok tt, st') /\
     is_Some (attachment_id (self st')) /\
     parent_item (self st') = Some 1%positive /\
     heap st' = <[1%positive := mkItem (Some "item-1") (Some "ck-2") (Some "ann@example.com")]>
                  (heap (start new_file)) /\
     calls st' = [CreateAttachment "ann@example.com" 1%positive [new_file]]) /\
  attach (always [RElem (created "FileAttachment" "item-1" "ck-2")]) (start fetched_file) =
    (Raise (ValueError "This attachment has already been created"), start fetched_file).
Proof.
  split.
  - apply (proj1 (attach_lifecycle (always [RElem (created "FileAttachment" "item-1" "ck-2")]))
             (start new_file) 1%positive item1 "ann@example.com"
             (created "FileAttachment" "item-1" "ck-2")
             (mkAttachment None (Some (AttachmentId.mk (Some "att-1") (Some "item-1") (Some "ck-2")))
                VNone VNone VNone VNone VNone VNone VNone (FileAttachment VNone VNone))
             (AttachmentId.mk (Some "att-1") (Some "item-1") (Some "ck-2")));
      try reflexivity.
    cbn. discriminate.
  - apply (proj2 (attach_lifecycle (always [RElem (created "FileAttachment" "item-1" "ck-2")]))).
    cbn. eauto.
Defined.

(** C2 at a create response that repeats the item's change-token. *)
Lemma attach_consistency_check_witness :
  exists st',
    attach (always [RElem (created "FileAttachment" "item-1" "ck-1")]) (start new_file) =
      (Raise AssertionError, st') /\
    self st' = new_file /\ heap st' = heap (start new_file) /\
    attachment_id (self st') = None /\
    changekey <$> heap st' !! 1%positive = Some (Some "ck-1").
Proof.
  apply (attach_consistency_check (always [RElem (created "FileAttachment" "item-1" "ck-1")])
           (start new_file) 1%positive item1 "ann@example.com"
           (created "FileAttachment" "item-1" "ck-1")
           (mkAttachment None (Some (AttachmentId.mk (Some "att-1") (Some "item-1") (Some "ck-1")))
              VNone VNone VNone VNone VNone VNone VNone (FileAttachment VNone VNone))
           (AttachmentId.mk (Some "att-1") (Some "item-1") (Some "ck-1")));
    try reflexivity.
  left. reflexivity.
Defined.

(** C4 at the create response of the example, whose identity carries
    both root fields. *)
Lemma attach_strips_root_fields_witness :
  AttachmentId.field_from_xml (created "FileAttachment" "item-1" "ck-2") =
    Some (AttachmentId.mk (Some "att-1") (Some "item-1") (Some "ck-2")) /\
  exists stored,
    attachment_id (self (snd (attach (always [RElem (created "FileAttachment" "item-1" "ck-2")])
                                (start new_file)))) = Some stored /\
    AttachmentId.root_id stored = None /\
    AttachmentId.root_changekey stored = None.
Proof.
  split; [reflexivity|].
  destruct (attach_strips_root_fields
              (always [RElem (created "FileAttachment" "item-1" "ck-2")])
              (start new_file)
              (snd (attach (always [RElem (created "FileAttachment" "item-1" "ck-2")])
                      (start new_file)))
              eq_refl)
    as (stored & Hs & Hr & Hc & _).
  exists stored. auto.
Defined.

(** C3 at an attached file attachment and a delete response with the
    owning item's id and a new change-token: [detach] raises [TypeError]
    at the call of the decoder; the request has been made, the item keeps
    its change-token, and the attachment keeps its identity and its
    reference to the item. *)
Theorem detach_raises_type_error :
  detach (always [RElem (deleted "item-1" "ck-2")]) (start fetched_file) =
    (Raise (TypeError "from_xml() got an unexpected keyword argument 'account'"),
     mkState fetched_file (heap (start fetched_file))
       [DeleteAttachment "ann@example.com" [AttachmentId.mk (Some "att-1") None None]]) /\
  ItemId.from_xml ItemId.RootItemIdC (Some (deleted "item-1" "ck-2")) =
    Ok (Some (ItemId.mk ItemId.RootItemIdC (Some "item-1") (Some "ck-2"))) /\
  changekey <$> heap (start fetched_file) !! 1%positive = Some (Some "ck-1") /\
  detach (always [RElem (deleted "item-1" "ck-2")]) (start new_file) =
    (Raise (ValueError "This attachment has not been created"), start new_file).
Proof.
  split; [|split; [reflexivity|split; [reflexivity|]]].
  - apply (detach_type_error _ (start fetched_file) _ 1%positive item1 "ann@example.com"
             (deleted "item-1" "ck-2") []); reflexivity.
  - apply detach_unattached. reflexivity.
Qed.

(** C5 at a response that carries a payload. *)
Lemma lazy_fetch_caches_payload_witness :
  content with_payload (start fetched_file) =
    (Ok (VBytes (bytes_of_string "hello")), snd (content with_payload (start fetched_file))) /\
  length (calls (snd (content with_payload (start fetched_file)))) = 1%nat /\
  content with_payload (snd (content with_payload (start fetched_file))) =
    (Ok (VBytes (bytes_of_string "hello")), snd (content with_payload (start fetched_file))).
Proof.
  destruct (lazy_fetch_caches_payload with_payload (start fetched_file) VNone
              (AttachmentId.mk (Some "att-1") None None)
              (VBytes (bytes_of_string "hello"))
              (snd (content with_payload (start fetched_file))) eq_refl eq_refl eq_refl)
    as (Hlen & Hhit & _).
  split; [reflexivity|]. split; [exact Hlen|]. apply Hhit. discriminate.
Defined.

(** C5 as the spec states it fails when the first fetch finds no payload:
    both reads return [None] and the two reads make two requests. *)
Lemma lazy_fetch_none_is_fetched_again :
  ~ (forall r1 st1 r2 st2,
       content without_payload (start fetched_file) = (r1, st1) ->
       content without_payload st1 = (r2, st2) ->
       length (calls st2) = Datatypes.S (length (calls (start fetched_file))) /\
       content without_payload st1 = (r1, st1)).
Proof.
  intros H.
  destruct (H (Ok VNone) (snd (content without_payload (start fetched_file))) (Ok VNone)
              (snd (content without_payload (snd (content without_payload (start fetched_file)))))
              eq_refl eq_refl) as [Hlen _].
  vm_compute in Hlen. discriminate.
Qed.

(** C6 at the three responses: a [Content] element without character
    data, which the parser delivers with [text] [None], makes the read
    raise [TypeError] and records no payload; with the empty string as
    text the payload is the empty bytes; without the [Content] child it
    is [None]; and the two values differ. *)
Theorem content_of_empty_element_raises :
  content (always [RElem (got [Content None])]) (start fetched_file) =
    (Raise (TypeError "argument should be a bytes-like object or ASCII string, not 'NoneType'"),
     mkState fetched_file (heap (start fetched_file))
       [GetAttachment "ann@example.com" [AttachmentId.mk (Some "att-1") None None] false]) /\
  fst (content (always [RElem (got [Content (Some "")])]) (start fetched_file)) = Ok (VBytes []) /\
  fst (content (always [RElem (got [])]) (start fetched_file)) = Ok VNone /\
  VBytes [] <> VNone.
Proof.
  split; [|split; [reflexivity|split; [reflexivity|discriminate]]].
  rewrite (content_fetch _ (start fetched_file) VNone (AttachmentId.mk (Some "att-1") None None)
             1%positive item1 "ann@example.com" (got [Content None]));
    reflexivity.
Qed.

End AttachmentExamples.

Section Identity.

(** Equality of two identities is equality of the two fields. *)
Lemma ItemId_eq_spec (a b : ItemId.t) :
  ItemId.__eq__ a (Some b) = true <->
  ItemId.id a = ItemId.id b /\ ItemId.changekey a = ItemId.changekey b.
Proof.
  unfold ItemId.__eq__. rewrite andb_true_iff, !bool_decide_eq_true. reflexivity.
Qed.

(** Two strings that differ in one character are different. *)
Lemma one_character_apart (p q : string) (c c' : ascii) :
  c <> c' -> p ++ String c q <> p ++ String c' q.
Proof.
  intros Hc. induction p as [|x p IH]; cbn; intros H; inversion H; subst; auto.
Qed.

(** C7: two identities are equal exactly when their ids are the same
    string and their change-tokens are the same string; ids that differ
    in one character, or change-tokens that do, make them unequal. *)
Theorem ItemId_equality (a b : ItemId.t) :
  (ItemId.__eq__ a (Some b) = true <->
   ItemId.id a = ItemId.id b /\ ItemId.changekey a = ItemId.changekey b) /\
  (forall p q c c',
     c <> c' ->
     ItemId.id a = Some (p ++ String c q) -> ItemId.id b = Some (p ++ String c' q) ->
     ItemId.__eq__ a (Some b) = false) /\
  (forall p q c c',
     c <> c' ->
     ItemId.changekey a = Some (p ++ String c q) -> ItemId.changekey b = Some (p ++ String c' q) ->
     ItemId.__eq__ a (Some b) = false).
Proof.
  split; [apply ItemId_eq_spec|].
  split; intros p q c c' Hc Ha Hb; apply not_true_is_false; rewrite ItemId_eq_spec;
    rewrite Ha, Hb; intros [H1 H2];
    [inversion H1 as [H]|inversion H2 as [H]]; exact (one_character_apart p q c c' Hc H).
Qed.

(** C7 at two identities whose ids differ in their last character, and
    two whose change-tokens do. *)
Lemma ItemId_equality_witness :
  ItemId.__eq__ (ItemId.mk ItemId.ItemIdC (Some "AAMkAD") (Some "CQAAAB"))
                (Some (ItemId.mk ItemId.ItemIdC (Some "AAMkAE") (Some "CQAAAB"))) = false /\
  ItemId.__eq__ (ItemId.mk ItemId.ItemIdC (Some "AAMkAD") (Some "CQAAAB"))
                (Some (ItemId.mk ItemId.ItemIdC (Some "AAMkAD") (Some "CQAAAC"))) = false.
Proof.
  split.
  - apply (proj1 (proj2 (ItemId_equality _ _)) "AAMkA" "" "D"%char "E"%char);
      [discriminate|reflexivity|reflexivity].
  - apply (proj2 (proj2 (ItemId_equality _ _)) "CQAAA" "" "B"%char "C"%char);
      [discriminate|reflexivity|reflexivity].
Defined.

(** C10: identities of any two of the three classes that carry the same
    id and change-token compare equal, although two different classes
    encode to different request tags and expect different response tags;
    and an identity compared with [None] is unequal to it. *)
Theorem ItemId_equality_ignores_class (c1 c2 : ItemId.Class) (i k : option string) :
  ItemId.__eq__ (ItemId.mk c1 i k) (Some (ItemId.mk c2 i k)) = true /\
  (c1 <> c2 ->
   ItemId.request_tag c1 <> ItemId.request_tag c2 /\
   ItemId.response_tag c1 <> ItemId.response_tag c2) /\
  ItemId.__eq__ (ItemId.mk c1 i k) None = false.
Proof.
  split; [|split; [|reflexivity]].
  - apply ItemId_eq_spec. split; reflexivity.
  - intros Hc. destruct c1, c2; try congruence; split; discriminate.
Qed.

(** C10 at an item identity and a root-item identity. *)
Lemma ItemId_equality_ignores_class_witness :
  ItemId.__eq__ (ItemId.mk ItemId.ItemIdC (Some "AAMkAD") (Some "CQAAAB"))
                (Some (ItemId.mk ItemId.RootItemIdC (Some "AAMkAD") (Some "CQAAAB"))) = true /\
  ItemId.request_tag ItemId.ItemIdC <> ItemId.request_tag ItemId.RootItemIdC.
Proof.
  destruct (ItemId_equality_ignores_class ItemId.ItemIdC ItemId.RootItemIdC
              (Some "AAMkAD") (Some "CQAAAB")) as (Heq & Htag & _).
  split; [exact Heq|]. apply Htag. discriminate.
Defined.

End Identity.

Section Encode.

Import EWSElement Spec.

Implicit Types (self : Instance) (f : Field.t).

(** Assignments to different attributes commute. *)
Lemma setattrs_permutation (l1 l2 : list (string * pyval)) self :
  l1 ≡ₚ l2 -> NoDup l1.*1 -> setattrs l1 self = setattrs l2 self.
Proof.
  intros Hp. revert self. induction Hp as [|[n v] l1 l2 Hp IH|[n1 v1] [n2 v2] l|l1 l2 l3 H12 IH12 H23 IH23];
    intros self Hnd.
  - reflexivity.
  - cbn. apply IH. inversion Hnd; assumption.
  - cbn. f_equal. unfold setattr, modify. cbn.
    apply insert_insert_ne.
    inversion Hnd as [|? ? Hnotin _]; subst. intros ->. apply Hnotin. left.
  - rewrite IH12 by assumption. apply IH23. rewrite <- H12. exact Hnd.
Qed.

(** The loop appends, in the order of the fields, the contribution of
    each field that is not skipped, and leaves the instance alone. *)
Lemma to_xml_loop version self (fs : list Field.t) :
  (forall f, f ∈ fs -> Field.is_read_only f = false -> is_Some (self !! Field.name f)) ->
  (forall f v, f ∈ fs -> skips f self = false -> self !! Field.name f = Some v ->
               exists c, Field.to_xml f v version = Ok c) ->
  forall i, exists cs,
    foldM (to_xml_step version) fs i self =
      (Ok (mkElement (tag i) (attrib i) (text i) (children i ++ cs)), self) /\
    Forall2 (encodes version self) (filter (fun f => skips f self = false) fs) cs.
Proof.
  induction fs as [|f fs IH]; intros Hattr Henc i.
  - exists []. cbn. rewrite app_nil_r. destruct i. split; [reflexivity|constructor].
  - assert (Hattr' : forall g, g ∈ fs -> Field.is_read_only g = false ->
                                is_Some (self !! Field.name g))
      by (intros g Hg; apply Hattr; right; exact Hg).
    assert (Henc' : forall g v, g ∈ fs -> skips g self = false -> self !! Field.name g = Some v ->
                                 exists c, Field.to_xml g v version = Ok c)
      by (intros g v Hg; apply Henc; right; exact Hg).
    specialize (IH Hattr' Henc').
    rewrite foldM_cons. unfold to_xml_step at 1.
    destruct (Field.is_read_only f) eqn:Hro.
    + destruct (IH i) as (cs & Hrun & Hcs). exists cs. split; [exact Hrun|].
      rewrite filter_cons_False; [exact Hcs|]. unfold skips. rewrite Hro. discriminate.
    + destruct (Hattr f (ltac:(left)) Hro) as [v Hv].
      unfold getattr. run. rewrite Hv.
      destruct (is_none v || (Field.is_list f && negb (truthy v))) eqn:Hskip.
      * destruct (IH i) as (cs & Hrun & Hcs). exists cs. split; [exact Hrun|].
        rewrite filter_cons_False; [exact Hcs|]. unfold skips. rewrite Hro, Hv, Hskip. discriminate.
      * assert (Hs : skips f self = false) by (unfold skips; rewrite Hro, Hv, Hskip; reflexivity).
        destruct (Henc f v (ltac:(left)) Hs Hv) as [c Hc]. rewrite Hc.
        destruct (IH (append c i)) as (cs & Hrun & Hcs). exists (c :: cs). split.
        -- rewrite Hrun. cbn. rewrite <- app_assoc. reflexivity.
        -- rewrite filter_cons_True by exact Hs. constructor; [|exact Hcs].
           exists v. split; assumption.
Qed.

(** What [to_xml] returns once [clean] has passed. *)
Lemma to_xml_cleaned cls version self self' :
  clean_method cls self = (Ok tt, self') ->
  (forall f, f ∈ FIELDS cls -> Field.is_read_only f = false -> is_Some (self' !! Field.name f)) ->
  (forall f v, f ∈ FIELDS cls -> skips f self' = false -> self' !! Field.name f = Some v ->
               exists c, Field.to_xml f v version = Ok c) ->
  exists cs,
    to_xml cls version self = (Ok (mkElement (request_tag cls) [] None cs), self') /\
    Forall2 (encodes version self') (filter (fun f => skips f self' = false) (FIELDS cls)) cs.
Proof.
  intros Hclean Hattr Henc.
  destruct (to_xml_loop version self' (FIELDS cls) Hattr Henc (create_element (request_tag cls)))
    as (cs & Hrun & Hcs).
  exists cs. split; [|exact Hcs].
  unfold to_xml. run. rewrite Hclean. exact Hrun.
Qed.

(** C8: whatever the order in which the attribute values were set,
    [to_xml] returns the element with the request tag of the class whose
    children are, in the order of [FIELDS], one child for each declared
    field that is neither read-only, nor [None], nor an empty list. *)
Theorem to_xml_declared_order cls version self0 (l1 l2 : list (string * pyval)) self' :
  l1 ≡ₚ l2 -> NoDup l1.*1 ->
  clean_method cls (setattrs l1 self0) = (Ok tt, self') ->
  (forall f, f ∈ FIELDS cls -> Field.is_read_only f = false -> is_Some (self' !! Field.name f)) ->
  (forall f v, f ∈ FIELDS cls -> skips f self' = false -> self' !! Field.name f = Some v ->
               exists c, Field.to_xml f v version = Ok c) ->
  exists el,
    to_xml cls version (setattrs l1 self0) = (Ok el, self') /\
    to_xml cls version (setattrs l2 self0) = (Ok el, self') /\
    tag el = request_tag cls /\
    Forall2 (fun f c => exists v, self' !! Field.name f = Some v /\ Field.to_xml f v version = Ok c)
            (filter (fun f => skips f self' = false) (FIELDS cls)) (children el).
Proof.
  intros Hp Hnd Hclean Hattr Henc.
  destruct (to_xml_cleaned cls version _ self' Hclean Hattr Henc) as (cs & Hrun & Hcs).
  eexists. split; [exact Hrun|].
  rewrite <- (setattrs_permutation l1 l2 self0 Hp Hnd).
  split; [exact Hrun|]. split; [reflexivity|exact Hcs].
Qed.

(** C8 at a mailbox whose four values were set in declaration order and
    in the reverse order. *)
Lemma to_xml_declared_order_witness :
  exists el,
    to_xml Mailbox.class "Exchange2016" (setattrs Examples.ann_assignments ∅) =
      (Ok el, setattrs Examples.ann_assignments ∅) /\
    to_xml Mailbox.class "Exchange2016" (setattrs Examples.ann_assignments_reversed ∅) =
      (Ok el, setattrs Examples.ann_assignments ∅) /\
    tag el = "t:Mailbox" /\
    List.map tag (children el) = ["t:Name"; "t:EmailAddress"; "t:MailboxType"; "t:ItemId"].
Proof.
  destruct (to_xml_declared_order Mailbox.class "Exchange2016" ∅
              Examples.ann_assignments Examples.ann_assignments_reversed
              (setattrs Examples.ann_assignments ∅))
    as (el & H1 & H2 & Htag & Hcs).
  - change Examples.ann_assignments_reversed with (reverse Examples.ann_assignments).
    symmetry. apply reverse_Permutation.
  - apply (bool_decide_unpack _). vm_compute. reflexivity.
  - vm_compute. reflexivity.
  - intros f Hf _. each_field Hf; vm_compute; eauto.
  - intros f v Hf _ Hv. each_field Hf; vm_compute in Hv; inversion Hv; subst v;
      vm_compute; eauto.
  - exists el. split; [exact H1|]. split; [exact H2|]. split; [exact Htag|].
    assert (He : Ok el = fst (to_xml Mailbox.class "Exchange2016"
                                (setattrs Examples.ann_assignments ∅)))
      by (rewrite H1; reflexivity).
    vm_compute in He. inversion He. reflexivity.
Defined.

End Encode.

Section Roundtrip.

Import EWSElement Spec.

Implicit Types (self : Instance) (f : Field.t).

(** The transport turns the request tag of a class into the tag its
    decoder expects. *)
Lemma qualify_request_tag cls : wire.qualify (request_tag cls) = response_tag cls.
Proof. unfold request_tag, response_tag. destruct (NAMESPACE cls); reflexivity. Qed.

Lemma ItemId_qualify_request_tag c :
  wire.qualify (ItemId.request_tag c) = ItemId.response_tag c.
Proof. destruct c; reflexivity. Qed.

(** An identity with both fields set survives encode, transport and
    decode. *)
Lemma ItemId_roundtrip version (x : ItemId.t) i k :
  ItemId.id x = Some i -> ItemId.changekey x = Some k ->
  ItemId_decode_transferred version x = Ok (Some x).
Proof.
  destruct x as [c xi xk]. cbn. intros -> ->.
  unfold ItemId_decode_transferred, ItemId.to_xml, ItemId.clean. run. cbn.
  unfold ItemId.from_xml. cbn [tag]. rewrite ItemId_qualify_request_tag, String.eqb_refl.
  destruct c; cbn; rewrite ?String.eqb_refl; reflexivity.
Qed.

(** The comprehension of [from_xml]: when every field decodes to the
    value the instance holds under its name, the keyword arguments are
    those values. *)
Lemma from_xml_kwargs self (elem : Element) (fs : list Field.t) :
  (forall f, f ∈ fs -> exists v, self !! Field.name f = Some v /\ Field.from_xml f elem = Ok v) ->
  forall m : gmap string pyval, exists m' : gmap string pyval,
    fold_left (fun (acc : Res (gmap string pyval)) f =>
                 kwargs ← acc;
                 v ← Field.from_xml f elem;
                 mret (<[Field.name f := v]> kwargs)) fs (Ok m) = Ok m' /\
    forall n, m' !! n = if decide (n ∈ Field.name <$> fs) then self !! n else m !! n.
Proof.
  induction fs as [|f fs IH]; intros Hdec m.
  - exists m. split; [reflexivity|]. intros n. rewrite decide_False by set_solver. reflexivity.
  - destruct (Hdec f ltac:(left)) as (v & Hv & Hf).
    destruct (IH (fun g Hg => Hdec g ltac:(right; exact Hg)) (<[Field.name f := v]> m))
      as (m' & Hrun & Hm').
    exists m'. split.
    + cbn [fold_left]. run. rewrite Hf. exact Hrun.
    + intros n. rewrite Hm'. rewrite fmap_cons.
      destruct (decide (n = Field.name f)) as [->|Hne].
      * rewrite (decide_True (P := _ ∈ _ :: _)) by left.
        case_decide; [reflexivity|]. rewrite lookup_insert_eq. congruence.
      * case_decide as Hin.
        -- rewrite decide_True by (right; exact Hin). reflexivity.
        -- rewrite decide_False by (intros Hc; apply elem_of_cons in Hc as [?|?]; tauto).
           apply lookup_insert_ne. congruence.
Qed.

(** The loop of [__init__] over fields with distinct names: every
    declared name is set from the keyword arguments and removed from
    them. *)
Lemma init_loop (fs : list Field.t) :
  NoDup (Field.name <$> fs) ->
  forall (s kw : gmap string pyval),
  exists s' kw' : gmap string pyval,
    fold_left (fun '(self, kwargs) f =>
                 (<[Field.name f := default VNone (kwargs !! Field.name f)]> self,
                  delete (Field.name f) kwargs)) fs (s, kw) = (s', kw') /\
    (forall n, s' !! n = if decide (n ∈ Field.name <$> fs)
                         then Some (default VNone (kw !! n)) else s !! n) /\
    (forall n, kw' !! n = if decide (n ∈ Field.name <$> fs) then None else kw !! n).
Proof.
  induction fs as [|f fs IH]; intros Hnd s kw.
  - exists s, kw. split; [reflexivity|].
    split; intros n; rewrite decide_False by set_solver; reflexivity.
  - rewrite fmap_cons in Hnd. apply NoDup_cons in Hnd as [Hnotin Hnd].
    destruct (IH Hnd (<[Field.name f := default VNone (kw !! Field.name f)]> s)
                (delete (Field.name f) kw)) as (s' & kw' & Hrun & Hs & Hk).
    exists s', kw'. split; [exact Hrun|].
    split; intros n; [rewrite Hs|rewrite Hk]; rewrite fmap_cons;
      destruct (decide (n = Field.name f)) as [->|Hne].
    + rewrite decide_False by exact Hnotin.
      rewrite (decide_True (P := _ ∈ _ :: _)) by left. apply lookup_insert_eq.
    + case_decide as Hin.
      * rewrite decide_True by (right; exact Hin). rewrite lookup_delete_ne by congruence.
        reflexivity.
      * rewrite decide_False by (intros Hc; apply elem_of_cons in Hc as [?|?]; tauto).
        apply lookup_insert_ne. congruence.
    + rewrite decide_False by exact Hnotin.
      rewrite (decide_True (P := _ ∈ _ :: _)) by left. apply lookup_delete_eq.
    + case_decide as Hin.
      * rewrite decide_True by (right; exact Hin). reflexivity.
      * rewrite decide_False by (intros Hc; apply elem_of_cons in Hc as [?|?]; tauto).
        apply lookup_delete_ne. congruence.
Qed.

(** [__init__] on the decoded keyword arguments rebuilds the instance. *)
Lemma init_rebuilds self (fs : list Field.t) (kwargs : gmap string pyval) :
  NoDup (Field.name <$> fs) ->
  (forall n, is_Some (self !! n) <-> n ∈ Field.name <$> fs) ->
  (forall n, kwargs !! n = if decide (n ∈ Field.name <$> fs) then self !! n else None) ->
  __init__ fs kwargs = Ok self.
Proof.
  intros Hnd Hdom Hkw. unfold __init__.
  destruct (init_loop fs Hnd ∅ kwargs) as (s' & kw' & Hrun & Hs & Hk).
  rewrite Hrun.
  assert (kw' = ∅) as ->.
  { apply map_eq. intros n. rewrite Hk, lookup_empty, Hkw. case_decide; reflexivity. }
  rewrite decide_True by reflexivity. f_equal.
  apply map_eq. intros n. rewrite Hs, Hkw, lookup_empty.
  case_decide as Hin.
  - apply Hdom in Hin as [v Hv]. rewrite Hv. reflexivity.
  - symmetry. apply eq_None_not_Some. rewrite Hdom. exact Hin.
Qed.

(** Filtering with a predicate that holds throughout keeps the list. *)
Lemma filter_all {A} (P : A -> Prop) `{forall x, Decision (P x)} (l : list A) :
  (forall x, x ∈ l -> P x) -> filter P l = l.
Proof.
  induction l as [|x l IH]; intros Hall; [reflexivity|].
  rewrite filter_cons_True by (apply Hall; left).
  f_equal. apply IH. intros y Hy. apply Hall. right. exact Hy.
Qed.

(** Among the transferred children of an encoded element, searching for
    the tag of the child of a field finds that child, provided the
    fields have distinct names and encode to distinct tags. *)
Lemma find_encoded version self (fs : list Field.t) (cs : list Element) :
  Forall2 (encodes version self) fs cs ->
  NoDup (Field.name <$> fs) ->
  (forall f g c d, f ∈ fs -> g ∈ fs -> Field.name f <> Field.name g ->
     encodes version self f c -> encodes version self g d ->
     tag (wire.transfer c) <> tag (wire.transfer d)) ->
  forall i f c, fs !! i = Some f -> cs !! i = Some c ->
    List.find (fun d => String.eqb (tag d) (tag (wire.transfer c))) (List.map wire.transfer cs)
    = Some (wire.transfer c).
Proof.
  induction 1 as [|f0 c0 fs cs H0 Hrest IH]; intros Hnd Hdist i f c Hf Hc.
  - rewrite lookup_nil in Hf. discriminate.
  - rewrite fmap_cons in Hnd. apply NoDup_cons in Hnd as [Hnotin Hnd].
    destruct i as [|i]; cbn in Hf, Hc.
    + inversion Hf; inversion Hc; subst. cbn. rewrite String.eqb_refl. reflexivity.
    + assert (Hin : f ∈ fs) by (eapply list_elem_of_lookup_2; exact Hf).
      assert (Hfc : encodes version self f c) by (eapply Forall2_lookup_lr; eauto).
      assert (Hne : Field.name f0 <> Field.name f).
      { intros Heq. apply Hnotin. rewrite Heq. apply list_elem_of_fmap_2. exact Hin. }
      cbn [List.map List.find].
      destruct (String.eqb_spec (tag (wire.transfer c0)) (tag (wire.transfer c))) as [Heq|_].
      * exfalso. eapply (Hdist f0 f c0 c); eauto; [left|right; exact Hin].
      * eapply IH; eauto.
        intros g h d e Hg Hh. apply Hdist; right; assumption.
Qed.

(** An instance of a class without skipped fields, whose values pass
    [clean] unchanged and whose fields decode what they encoded,
    survives encode, transport and decode. *)
Lemma decode_transferred_instance cls version self :
  NoDup (Field.name <$> FIELDS cls) ->
  (forall n, is_Some (self !! n) <-> n ∈ Field.name <$> FIELDS cls) ->
  clean_method cls self = (Ok tt, self) ->
  (forall f, f ∈ FIELDS cls -> skips f self = false) ->
  (forall f v, f ∈ FIELDS cls -> self !! Field.name f = Some v ->
     exists c, Field.to_xml f v version = Ok c) ->
  (forall f v c parent, f ∈ FIELDS cls -> self !! Field.name f = Some v ->
     Field.to_xml f v version = Ok c ->
     find (tag (wire.transfer c)) parent = Some (wire.transfer c) ->
     Field.from_xml f parent = Ok v) ->
  (forall f g c d, f ∈ FIELDS cls -> g ∈ FIELDS cls -> Field.name f <> Field.name g ->
     encodes version self f c -> encodes version self g d ->
     tag (wire.transfer c) <> tag (wire.transfer d)) ->
  decode_transferred cls version self = Ok (Some self).
Proof.
  intros Hnd Hdom Hclean Hskip Henc Hlaw Hdist.
  destruct (to_xml_cleaned cls version self self Hclean) as (cs & Hrun & Hcs).
  { intros f Hf _. apply Hdom. apply list_elem_of_fmap_2. exact Hf. }
  { intros f v Hf _. apply Henc. exact Hf. }
  rewrite filter_all in Hcs by exact Hskip.
  unfold decode_transferred. rewrite Hrun. cbn [fst]. run.
  unfold from_xml. cbn [wire.transfer tag].
  rewrite qualify_request_tag, String.eqb_refl.
  set (parent := mkElement (response_tag cls) [] (wire.parsed_text None)
                   (List.map wire.transfer cs)).
  destruct (from_xml_kwargs self parent (FIELDS cls)) with (m := (∅ : gmap string pyval))
    as (m' & Hm & Hlook).
  { intros f Hf. apply list_elem_of_lookup_1 in Hf as [i Hi].
    destruct (Forall2_lookup_l _ _ _ _ _ Hcs Hi) as (c & Hc & v & Hv & Hto).
    exists v. split; [exact Hv|].
    apply (Hlaw f v c parent); [eapply list_elem_of_lookup_2; exact Hi|exact Hv|exact Hto|].
    unfold find. cbn [children parent]. eapply find_encoded; eauto. }
  run. rewrite Hm. rewrite (init_rebuilds self (FIELDS cls) m' Hnd Hdom); [reflexivity|].
  intros n. rewrite Hlook, lookup_empty. reflexivity.
Qed.

(** C9, as the code has it: between encode and decode stands the
    transport, which turns the prefixed request tags into the
    namespace-qualified tags the decoders expect.  Across it, an identity
    of any of the three classes with both fields set decodes to itself;
    and so does an instance of a generic class whose fields have distinct
    names and tags, none of them skipped on encode (read-only, [None] or
    an empty list), whose values pass [clean] unchanged and whose fields
    decode what they encoded. *)
Theorem decode_transferred_roundtrip :
  (forall version (x : ItemId.t) i k,
     ItemId.id x = Some i -> ItemId.changekey x = Some k ->
     ItemId_decode_transferred version x = Ok (Some x)) /\
  (forall cls version self,
     NoDup (Field.name <$> FIELDS cls) ->
     (forall n, is_Some (self !! n) <-> n ∈ Field.name <$> FIELDS cls) ->
     clean_method cls self = (Ok tt, self) ->
     (forall f, f ∈ FIELDS cls -> skips f self = false) ->
     (forall f v, f ∈ FIELDS cls -> self !! Field.name f = Some v ->
        exists c, Field.to_xml f v version = Ok c) ->
     (forall f v c parent, f ∈ FIELDS cls -> self !! Field.name f = Some v ->
        Field.to_xml f v version = Ok c ->
        find (tag (wire.transfer c)) parent = Some (wire.transfer c) ->
        Field.from_xml f parent = Ok v) ->
     (forall f g c d, f ∈ FIELDS cls -> g ∈ FIELDS cls -> Field.name f <> Field.name g ->
        encodes version self f c -> encodes version self g d ->
        tag (wire.transfer c) <> tag (wire.transfer d)) ->
     decode_transferred cls version self = Ok (Some self)).
Proof.
  split; [exact ItemId_roundtrip|exact decode_transferred_instance].
Qed.

(** The mailbox of the example meets the conditions of the round trip. *)
Lemma ann_attributes n :
  is_Some (Examples.ann !! n) <-> n ∈ Field.name <$> FIELDS Mailbox.class.
Proof.
  change Examples.ann with (setattrs Examples.ann_assignments_reversed ∅).
  rewrite <- elem_of_dom. cbn. unfold setattr, modify. cbn.
  rewrite !dom_insert, dom_empty. set_solver.
Qed.

Lemma ann_encodes f v :
  f ∈ FIELDS Mailbox.class -> Examples.ann !! Field.name f = Some v ->
  exists c, Field.to_xml f v "Exchange2016" = Ok c.
Proof.
  intros Hf Hv. each_field Hf; vm_compute in Hv; inversion Hv; subst v; vm_compute; eauto.
Qed.

Lemma ann_decodes f v c parent :
  f ∈ FIELDS Mailbox.class -> Examples.ann !! Field.name f = Some v ->
  Field.to_xml f v "Exchange2016" = Ok c ->
  find (tag (wire.transfer c)) parent = Some (wire.transfer c) ->
  Field.from_xml f parent = Ok v.
Proof.
  intros Hf Hv Hto Hfind.
  each_field Hf; vm_compute in Hv; inversion Hv; subst v;
    vm_compute in Hto; inversion Hto; subst c;
    cbn in Hfind; cbn; unfold fields.response_tag, ItemId.response_tag; cbn;
    rewrite Hfind; reflexivity.
Qed.

Lemma ann_tags f g c d :
  f ∈ FIELDS Mailbox.class -> g ∈ FIELDS Mailbox.class -> Field.name f <> Field.name g ->
  encodes "Exchange2016" Examples.ann f c -> encodes "Exchange2016" Examples.ann g d ->
  tag (wire.transfer c) <> tag (wire.transfer d).
Proof.
  intros Hf Hg Hne (v & Hv & Hc) (w & Hw & Hd).
  each_field Hf; each_field Hg; try (exfalso; apply Hne; reflexivity);
    vm_compute in Hv; inversion Hv; subst v; vm_compute in Hw; inversion Hw; subst w;
    vm_compute in Hc; inversion Hc; subst c; vm_compute in Hd; inversion Hd; subst d;
    vm_compute; discriminate.
Qed.

(** C9 at the identity and at the mailbox of the example. *)
Lemma decode_transferred_roundtrip_witness :
  ItemId_decode_transferred "Exchange2016" Examples.ann_id = Ok (Some Examples.ann_id) /\
  decode_transferred Mailbox.class "Exchange2016" Examples.ann = Ok (Some Examples.ann).
Proof.
  split.
  - apply (proj1 decode_transferred_roundtrip "Exchange2016" Examples.ann_id "AAMkAD" "CQAAAB");
      reflexivity.
  - apply (proj2 decode_transferred_roundtrip Mailbox.class "Exchange2016" Examples.ann).
    + apply (bool_decide_unpack _). vm_compute. reflexivity.
    + exact ann_attributes.
    + vm_compute. reflexivity.
    + intros f Hf. each_field Hf; vm_compute; reflexivity.
    + exact ann_encodes.
    + exact ann_decodes.
    + exact ann_tags.
Defined.

(** C9 as the spec states it fails twice.  The decoder applied to the
    element the encoder returned raises [AssertionError], for an identity
    and for a mailbox alike, because that element carries the request
    tag; and across the transport a populated read-only field, which the
    encoder skips, comes back as [None]. *)
Lemma decode_encoded_fails :
  ItemId_decode_encoded "Exchange2016" Examples.ann_id = Raise AssertionError /\
  decode_encoded Mailbox.class "Exchange2016" Examples.ann = Raise AssertionError /\
  Examples.sized !! "size" = Some (VInt 5) /\
  attribute_of "size" (decode_transferred Examples.sized_class "Exchange2016" Examples.sized)
    = Some VNone /\
  decode_transferred Examples.sized_class "Exchange2016" Examples.sized <> Ok (Some Examples.sized).
Proof.
  split; [vm_compute; reflexivity|].
  split; [vm_compute; reflexivity|].
  split; [vm_compute; reflexivity|].
  split; [vm_compute; reflexivity|].
  intros H.
  assert (Hs : attribute_of "size"
                 (decode_transferred Examples.sized_class "Exchange2016" Examples.sized)
               = Examples.sized !! "size") by (rewrite H; reflexivity).
  vm_compute in Hs. discriminate.
Qed.

End Roundtrip.

(** * Further properties of attachments.py *)

Section Guards.

Import attachments attachment_methods conditions.

Variable env : Env.

Lemma parent_with_account_fails msg st :
  no_account st -> parent_with_account msg st = (Raise (ValueError msg), st).
Proof.
  intros [Hn|(l & p & Hl & Hp & Ha)]; unfold parent_with_account, deref; run.
  - rewrite Hn. reflexivity.
  - rewrite Hl. cbn. rewrite Hp. cbn. rewrite Ha. reflexivity.
Qed.

(** X1: without an owning item, or with one that has no account, every
    operation that would talk to the service raises [ValueError] before
    any request: the state, with its record of requests, is unchanged. *)
Theorem operations_need_an_account st :
  no_account st ->
  (attachment_id (self st) = None ->
   attach env st = (Raise (ValueError "Parent item must have an account"), st)) /\
  (is_Some (attachment_id (self st)) ->
   detach env st = (Raise (ValueError "Parent item must have an account"), st)) /\
  (is_Some (attachment_id (self st)) ->
   forall p, extra (self st) = FileAttachment p VNone ->
   content env st = (Raise (ValueError "FileAttachment must have an account"), st)) /\
  (is_Some (attachment_id (self st)) ->
   extra (self st) = ItemAttachment VNone ->
   forall fuel,
   item (Datatypes.S fuel) env st =
     Some (Raise (ValueError "ItemAttachment must have an account"), st)).
Proof.
  intros Hno. repeat split.
  - intros Hnone. unfold attach. run. rewrite Hnone.
    rewrite bool_decide_eq_false_2 by (intros [? ?]; discriminate).
    rewrite (parent_with_account_fails _ st Hno). reflexivity.
  - intros [aid Haid]. unfold detach, detach_calling. run. rewrite Haid.
    rewrite (parent_with_account_fails _ st Hno). reflexivity.
  - intros [aid Haid] p Hx. unfold content. run. rewrite Hx, Haid. cbn [is_none negb].
    rewrite (parent_with_account_fails _ st Hno). reflexivity.
  - intros [aid Haid] Hx fuel. cbn [item]. rewrite Hx, Haid. cbn [is_none negb].
    unfold item_fetch. run.
    rewrite (parent_with_account_fails _ st Hno). reflexivity.
Qed.

End Guards.

Section Responses.

Import attachments attachment_methods conditions.

Variable env : Env.

Lemma guard_passes msg st l p acct :
  owned_by st l p acct -> parent_with_account msg st = (Ok (l, acct), st).
Proof. intros (Hl & Hp & Ha). exact (parent_with_account_ok msg st l p acct Hl Hp Ha). Qed.

(** X2: an error that the service returns as the single entry of its
    answer is raised as it is by [attach], [detach], [content] and
    [item]; the request has been made, and the attachment and the items
    are unchanged. *)
Theorem remote_error_is_raised st l p acct e :
  owned_by st l p acct ->
  (attachment_id (self st) = None ->
   service env (calls st) (CreateAttachment acct l [self st]) = [RExc e] ->
   attach env st = (Raise e, requested (CreateAttachment acct l [self st]) st)) /\
  (forall aid,
   attachment_id (self st) = Some aid ->
   service env (calls st) (DeleteAttachment acct [aid]) = [RExc e] ->
   detach env st = (Raise e, requested (DeleteAttachment acct [aid]) st)) /\
  (forall aid q,
   attachment_id (self st) = Some aid -> extra (self st) = FileAttachment q VNone ->
   service env (calls st) (GetAttachment acct [aid] false) = [RExc e] ->
   content env st = (Raise e, requested (GetAttachment acct [aid] false) st)) /\
  (forall aid fuel,
   attachment_id (self st) = Some aid -> extra (self st) = ItemAttachment VNone ->
   service env (calls st) (GetAttachment acct [aid] true) = [RExc e] ->
   item (Datatypes.S fuel) env st =
     Some (Raise e, requested (GetAttachment acct [aid] true) st)).
Proof.
  intros Hown. repeat split.
  - intros Hnone Hsvc. unfold attach. run. rewrite Hnone.
    rewrite bool_decide_eq_false_2 by (intros [? ?]; discriminate).
    rewrite (guard_passes _ st l p acct Hown). unfold call. rewrite Hsvc. reflexivity.
  - intros aid Haid Hsvc. unfold detach, detach_calling. run. rewrite Haid.
    rewrite (guard_passes _ st l p acct Hown). unfold call. rewrite Hsvc. reflexivity.
  - intros aid q Haid Hx Hsvc. unfold content. run. rewrite Hx, Haid. cbn [is_none negb].
    rewrite (guard_passes _ st l p acct Hown). unfold call. rewrite Hsvc. reflexivity.
  - intros aid fuel Haid Hx Hsvc. cbn [item]. rewrite Hx, Haid. cbn [is_none negb].
    unfold item_fetch. run.
    rewrite (guard_passes _ st l p acct Hown). unfold call. rewrite Hsvc. reflexivity.
Qed.

(** X3: an empty answer makes each of the four operations raise
    [AssertionError] after the request, and so does, for [content], any
    answer that does not hold exactly one entry; the attachment and the
    items are unchanged. *)
Theorem answer_must_hold_one_entry st l p acct :
  owned_by st l p acct ->
  (attachment_id (self st) = None ->
   service env (calls st) (CreateAttachment acct l [self st]) = [] ->
   attach env st = (Raise AssertionError, requested (CreateAttachment acct l [self st]) st)) /\
  (forall aid,
   attachment_id (self st) = Some aid ->
   service env (calls st) (DeleteAttachment acct [aid]) = [] ->
   detach env st = (Raise AssertionError, requested (DeleteAttachment acct [aid]) st)) /\
  (forall aid q,
   attachment_id (self st) = Some aid -> extra (self st) = FileAttachment q VNone ->
   length (service env (calls st) (GetAttachment acct [aid] false)) <> 1%nat ->
   content env st = (Raise AssertionError, requested (GetAttachment acct [aid] false) st)) /\
  (forall aid fuel,
   attachment_id (self st) = Some aid -> extra (self st) = ItemAttachment VNone ->
   service env (calls st) (GetAttachment acct [aid] true) = [] ->
   item (Datatypes.S fuel) env st =
     Some (Raise AssertionError, requested (GetAttachment acct [aid] true) st)).
Proof.
  intros Hown. repeat split.
  - intros Hnone Hsvc. unfold attach. run. rewrite Hnone.
    rewrite bool_decide_eq_false_2 by (intros [? ?]; discriminate).
    rewrite (guard_passes _ st l p acct Hown). unfold call. rewrite Hsvc. reflexivity.
  - intros aid Haid Hsvc. unfold detach, detach_calling. run. rewrite Haid.
    rewrite (guard_passes _ st l p acct Hown). unfold call. rewrite Hsvc. reflexivity.
  - intros aid q Haid Hx Hlen. unfold content. run. rewrite Hx, Haid. cbn [is_none negb].
    rewrite (guard_passes _ st l p acct Hown). unfold call.
    destruct (service env (calls st) (GetAttachment acct [aid] false)) as [|x [|y rest]];
      cbn in Hlen; try reflexivity; congruence.
  - intros aid fuel Haid Hx Hsvc. cbn [item]. rewrite Hx, Haid. cbn [is_none negb].
    unfold item_fetch. run.
    rewrite (guard_passes _ st l p acct Hown). unfold call. rewrite Hsvc. reflexivity.
Qed.

End Responses.

Section Atomicity.

Import attachments attachment_methods conditions.

Variable env : Env.

(** A comprehension whose body leaves the state alone leaves it alone. *)
Lemma mapM_pure {S A B} (f : A -> M S B) :
  (forall x s, snd (f x s) = s) -> forall l s, snd (mapM f l s) = s.
Proof.
  intros Hf. induction l as [|x xs IH]; intros s; cbn; run; [reflexivity|].
  pose proof (Hf x s) as Hx. destruct (f x s) as [[y|e] s1]; cbn in Hx; subst s1; [|reflexivity].
  pose proof (IH s) as Hxs. destruct (mapM f xs s) as [[ys|e] s2]; cbn in Hxs; subst s2; reflexivity.
Qed.

(** When [attach] raises, whatever the reason, the attachment and the
    items are as they were. *)
Lemma attach_raises_unchanged st e st' :
  attach env st = (Raise e, st') -> self st' = self st /\ heap st' = heap st.
Proof.
  intros H. unfold attach in H. run.
  destruct (attachment_id (self st)) as [a|] eqn:Hnone.
  { rewrite bool_decide_eq_true_2 in H by eauto. inversion H; subst; auto. }
  rewrite bool_decide_eq_false_2 in H by (intros [? ?]; discriminate).
  unfold parent_with_account, deref in H. run.
  destruct (parent_item (self st)) as [l|] eqn:Hl; [|inversion H; subst; auto]. cbn in H.
  destruct (heap st !! l) as [p|] eqn:Hp; [|inversion H; subst; auto]. cbn in H.
  destruct (account p) as [acct|] eqn:Ha; [|inversion H; subst; auto].
  unfold call in H.
  match type of H with
  | context [mapM ?f ?xs ?s] =>
      assert (Hs : snd (mapM f xs s) = s);
      [apply mapM_pure|destruct (mapM f xs s) as [[items|e'] s1] eqn:Hm]
  end.
  { intros [x|x|] s; cbn; try reflexivity. destruct (from_xml _ _ _ _); reflexivity. }
  all: cbn in Hs; subst s1.
  2: { inversion H; subst; auto. }
  destruct items as [|i [|j tl]]; cbn in H; try (inversion H; subst; auto; fail).
  destruct i as [e0|[r0|]]; try (inversion H; subst; auto; fail).
  destruct (attachment_id r0) as [aid|]; [|inversion H; subst; auto].
  cbn in H. rewrite Hp in H. cbn in H.
  destruct (bool_decide (AttachmentId.root_id aid = item_id p)); cbn in H;
    [|inversion H; subst; auto].
  destruct (bool_decide (AttachmentId.root_changekey aid = changekey p)); cbn in H;
    [inversion H; subst; auto|discriminate].
Qed.

(** What a call of [attach] that returns has changed. *)
Lemma attach_returned_state st st' :
  attach env st = (Ok tt, st') ->
  exists l p aid ck,
    parent_item (self st) = Some l /\ heap st !! l = Some p /\
    self st' = with_attachment_id (Some aid) (self st) /\
    heap st' = <[l := mkItem (item_id p) ck (account p)]> (heap st) /\
    ck <> changekey p.
Proof.
  intros H.
  destruct (attach_returns env st st' H)
    as (l & p & acct & elem & r & aid & Hnone & Hl & Hp & Ha & Hsvc & Hdec & Haid & Hid & Hck).
  rewrite (attach_decoded env st l p acct elem r aid) in H by assumption. cbn zeta in H.
  rewrite bool_decide_eq_true_2 in H by exact Hid.
  rewrite bool_decide_eq_false_2 in H by exact Hck.
  inversion H; subst st'; clear H. cbn.
  exists l, p, (AttachmentId.mk (AttachmentId.id aid) None None), (AttachmentId.root_changekey aid).
  auto.
Qed.

(** X4: [attach] is all or nothing.  When it raises, for whatever reason,
    the attachment and every item are as they were.  When it returns, the
    attachment differs from before in its identity only, and the items
    differ in the change-token of the owning item only, which is a new
    one; the reference to the owner, the payload and the other items
    are untouched. *)
Theorem attach_is_all_or_nothing st r st' :
  attach env st = (r, st') ->
  match r with
  | Raise _ => self st' = self st /\ heap st' = heap st
  | Ok _ =>
      exists l p aid ck,
        parent_item (self st) = Some l /\ heap st !! l = Some p /\
        self st' = with_attachment_id (Some aid) (self st) /\
        heap st' = <[l := mkItem (item_id p) ck (account p)]> (heap st) /\
        ck <> changekey p
  end.
Proof.
  intros H. destruct r as [[]|e].
  - exact (attach_returned_state st st' H).
  - exact (attach_raises_unchanged st e st' H).
Qed.

End Atomicity.

Section Detach.

Import attachments attachment_methods conditions.

Variable env : Env.

(** A comprehension whose body either yields an error value or raises,
    and leaves the state alone, returns error values only. *)
Lemma mapM_errors_only {A B} (f : A -> M State (exn + B)) :
  (forall x s, (exists e, f x s = (Ok (inl e), s)) \/ (exists e, f x s = (Raise e, s))) ->
  forall l s, exists r,
    mapM f l s = (r, s) /\
    match r with
    | Ok items => Forall (fun i : exn + B => exists e, i = inl e) items
    | Raise _ => True
    end.
Proof.
  intros Hf. induction l as [|x xs IH]; intros s; cbn [mapM].
  - eexists. split; [reflexivity|]. constructor.
  - run. destruct (Hf x s) as [[e ->]|[e ->]]; [|eexists; split; [reflexivity|exact I]].
    destruct (IH s) as ([items|e'] & -> & Hitems).
    + eexists. split; [reflexivity|]. constructor; eauto.
    + eexists. split; [reflexivity|exact I].
Qed.

(** X5: [detach] never returns.  Every call ends in an exception, and the
    attachment, with its identity and its reference to the owner, and
    every item, with its change-token, are as they were. *)
Theorem detach_never_returns st :
  exists e st',
    detach env st = (Raise e, st') /\ self st' = self st /\ heap st' = heap st.
Proof.
  unfold detach, detach_calling. run.
  destruct (attachment_id (self st)) as [aid|]; [|eauto].
  unfold parent_with_account, deref. run.
  destruct (parent_item (self st)) as [l|]; [|eauto]. cbn.
  destruct (heap st !! l) as [p|]; [|eauto]. cbn.
  destruct (account p) as [acct|]; [|eauto].
  unfold call.
  match goal with
  | |- context [mapM ?f ?xs ?s0] =>
      assert (Hf : forall x s, (exists e, f x s = (Ok (inl e), s)) \/
                               (exists e, f x s = (Raise e, s)))
        by (intros [e|elem|] s; cbn; eauto);
      destruct (mapM_errors_only f Hf xs s0) as (r & Hm & Hitems); rewrite Hm
  end.
  destruct r as [items|e]; [|eauto].
  destruct items as [|i [|j tl]]; cbn; eauto.
  inversion Hitems as [|? ? [e ->] _]; subst. cbn. eauto.
Qed.

End Detach.

Section Payload.

Import attachments attachment_methods conditions.

Variable env : Env.

(** X6: the payload a binary attachment holds locally is read without the
    service.  Without an identity the read returns what is stored, [None]
    included, whether or not there is an owner; a payload assigned
    through the setter is what the next read returns, identity or not,
    with no request made; and the setter refuses, with [AssertionError]
    and no change, a value that is not a bytes object. *)
Theorem local_payload_needs_no_service st q c :
  extra (self st) = FileAttachment q c ->
  (attachment_id (self st) = None -> content env st = (Ok c, st)) /\
  (forall b, exists st1,
     set_content (VBytes b) st = (Ok tt, st1) /\
     st1 = mkState (with_content (VBytes b) (self st)) (heap st) (calls st) /\
     content env st1 = (Ok (VBytes b), st1)) /\
  (forall v, is_bytes v = false -> set_content v st = (Raise AssertionError, st)).
Proof.
  intros Hx. repeat split.
  - intros Hnone. unfold content. run. rewrite Hx, Hnone. reflexivity.
  - intros b. eexists. split; [|split; [reflexivity|]].
    + unfold set_content, set_self. run. rewrite Hx. reflexivity.
    + apply (content_cached env _ q); [cbn; rewrite Hx; reflexivity|discriminate].
  - intros v Hv. unfold set_content. run. rewrite Hx, Hv. reflexivity.
Qed.

(** X7: reading the payload changes nothing but the payload.  Whatever
    the outcome, the items are as they were; when the read raises, so is
    the attachment; when it returns, the attachment is as it was or
    differs in the payload only, which is then the bytes returned. *)
Theorem content_changes_only_the_payload st r st' :
  content env st = (r, st') ->
  heap st' = heap st /\
  match r with
  | Raise _ => self st' = self st
  | Ok v => self st' = self st \/
            exists b, v = VBytes b /\ self st' = with_content (VBytes b) (self st)
  end.
Proof.
  unfold content. run.
  destruct (extra (self st)) as [q c|i] eqn:Hx; [|intros H; inversion H; subst; auto].
  destruct (attachment_id (self st)) as [aid|]; [|intros H; inversion H; subst; auto].
  destruct (negb (is_none c)) eqn:Hc; [intros H; inversion H; subst; auto|].
  assert (c = VNone) as -> by (destruct c; try discriminate; reflexivity). clear Hc.
  unfold parent_with_account, deref. run.
  destruct (parent_item (self st)) as [l|]; [|intros H; inversion H; subst; auto]. cbn.
  destruct (heap st !! l) as [p|]; [|intros H; inversion H; subst; auto]. cbn.
  destruct (account p) as [acct|]; [|intros H; inversion H; subst; auto].
  unfold call.
  destruct (service env (calls st) (GetAttachment acct [aid] false)) as [|x [|y rest]];
    cbn [length Nat.eqb]; cbn zeta; try (intros H; inversion H; subst; auto; fail).
  destruct x as [e|elem|]; try (intros H; inversion H; subst; auto; fail).
  destruct (find _ elem) as [val|].
  - destruct (Base64.b64decode (text val)) as [b|e]; [|intros H; inversion H; subst; auto].
    unfold set_self. run. cbn. rewrite Hx. intros H; inversion H; subst. cbn. eauto.
  - unfold set_self. run. cbn. rewrite Hx. cbn. intros H; inversion H; subst. cbn.
    split; [reflexivity|]. left.
    destruct st as [[pi ai n ct ci cl sz lm il x] h cs]. cbn in *. subst x. reflexivity.
Qed.

(** X8: a binary attachment created with a payload keeps it through
    [attach]: the read that follows returns that payload and makes no
    request. *)
Theorem attach_keeps_the_payload st st1 q b :
  extra (self st) = FileAttachment q (VBytes b) ->
  attach env st = (Ok tt, st1) ->
  content env st1 = (Ok (VBytes b), st1).
Proof.
  intros Hx H.
  destruct (attach_returned_state env st st1 H)
    as (l & p & aid & ck & _ & _ & Hself & _).
  apply (content_cached env st1 q); [rewrite Hself; exact Hx|discriminate].
Qed.

End Payload.

Section NestedItem.

Import attachments attachment_methods conditions.

Variable env : Env.

(** A decoded attachment is of the class that decoded it and refers to no
    owning item. *)
Lemma from_xml_fresh this elem acct r :
  from_xml env this elem acct = Ok (Some r) ->
  parent_item r = None /\
  attachment_id r = (elem ≫= AttachmentId.field_from_xml) /\
  match extra this with
  | FileAttachment _ _ => exists q c, extra r = FileAttachment q c
  | ItemAttachment _ => exists i, extra r = ItemAttachment i
  end.
Proof.
  unfold from_xml. destruct elem as [elem|]; [|discriminate].
  destruct (String.eqb (tag elem) (response_tag this)); [|discriminate].
  run. intros H.
  repeat match type of H with
         | context [match ?x with Ok _ => _ | Raise _ => _ end] =>
             let E := fresh "E" in destruct x eqn:E; try discriminate
         end.
  destruct (extra this); cbn in *;
    repeat match goal with
           | E : context [match ?x with Ok _ => _ | Raise _ => _ end] |- _ =>
               destruct x; try discriminate
           end;
    inversion E6; subst; inversion H; subst; cbn; eauto.
Qed.

(** Reading [item] on an attachment without an owner never reaches the
    service: it returns what is stored, or stops at the guard. *)
Lemma item_without_owner fuel (r : Attachment) h cs :
  parent_item r = None ->
  item (Datatypes.S fuel) env (mkState r h cs) =
    Some (match extra r with
          | FileAttachment _ _ =>
              Raise (AttributeError "'FileAttachment' object has no attribute 'item'")
          | ItemAttachment v =>
              match attachment_id r with
              | None => Ok v
              | Some _ =>
                  if is_none v then Raise (ValueError "ItemAttachment must have an account")
                  else Ok v
              end
          end, mkState r h cs).
Proof.
  intros Hp. cbn [item self]. destruct (extra r) as [q c|v]; [reflexivity|].
  destruct (attachment_id r) as [aid|]; [|reflexivity].
  destruct (is_none v); cbn [negb]; [|reflexivity].
  unfold item_fetch, parent_with_account. run. cbn [self]. rewrite Hp. reflexivity.
Qed.

(** What [item] does once the guard has passed and the service has
    answered with one element that decodes. *)
Lemma item_decoded fuel st l p acct aid elem r :
  owned_by st l p acct ->
  attachment_id (self st) = Some aid -> extra (self st) = ItemAttachment VNone ->
  service env (calls st) (GetAttachment acct [aid] true) = [RElem elem] ->
  from_xml env (self st) (Some elem) acct = Ok (Some r) ->
  item (Datatypes.S (Datatypes.S fuel)) env st =
    let st1 := requested (GetAttachment acct [aid] true) st in
    match extra r with
    | FileAttachment _ _ =>
        Some (Raise (AttributeError "'FileAttachment' object has no attribute 'item'"), st1)
    | ItemAttachment v =>
        if is_none v then
          match attachment_id r with
          | None => Some (Raise AssertionError, st1)
          | Some _ => Some (Raise (ValueError "ItemAttachment must have an account"), st1)
          end
        else Some (Ok v, mkState (with_item v (self st)) (heap st) (calls st1))
    end.
Proof.
  intros Hown Haid Hx Hsvc Hdec.
  destruct (from_xml_fresh _ _ _ _ Hdec) as (Hp & _ & _).
  remember (Datatypes.S fuel) as n eqn:Hn.
  cbn [item]. rewrite Hx, Haid. cbn [is_none negb].
  unfold item_fetch. run.
  rewrite (guard_passes _ st l p acct Hown). unfold call. rewrite Hsvc.
  cbn [mapM]. run. unfold call_kw.
  cbn [unexpected_kw from_xml_params List.find existsb negb String.eqb Ascii.eqb Bool.eqb orb].
  run. rewrite Hdec. cbn [length Nat.eqb heap calls self]. subst n.
  rewrite (item_without_owner fuel r _ _ Hp).
  unfold requested. cbn zeta.
  destruct (extra r) as [q c|v] eqn:Hr; [reflexivity|].
  destruct (attachment_id r) as [a|] eqn:Ha.
  - destruct (is_none v) eqn:Hv; [reflexivity|].
    rewrite (item_without_owner fuel r _ _ Hp). rewrite Hr, Ha, Hv. reflexivity.
  - destruct (is_none v) eqn:Hv; [reflexivity|].
    rewrite (item_without_owner fuel r _ _ Hp). rewrite Hr, Ha. reflexivity.
Qed.

(** X9: the nested item is fetched once.  For a nested-item attachment
    with an identity and no item held, when the answer decodes to an
    attachment that carries an item, [item] makes one request for the
    attachment with its MIME content, stores that item and returns it;
    the next read returns it from the attachment and makes no request. *)
Theorem item_is_fetched_once fuel st l p acct aid elem r v :
  owned_by st l p acct ->
  attachment_id (self st) = Some aid -> extra (self st) = ItemAttachment VNone ->
  service env (calls st) (GetAttachment acct [aid] true) = [RElem elem] ->
  from_xml env (self st) (Some elem) acct = Ok (Some r) ->
  extra r = ItemAttachment v -> v <> VNone ->
  let st1 := mkState (with_item v (self st)) (heap st)
               (calls st ++ [GetAttachment acct [aid] true]) in
  item (Datatypes.S (Datatypes.S fuel)) env st = Some (Ok v, st1) /\
  item (Datatypes.S fuel) env st1 = Some (Ok v, st1).
Proof.
  intros Hown Haid Hx Hsvc Hdec Hr Hv st1.
  assert (Hn : is_none v = false) by (destruct v; try reflexivity; congruence).
  split.
  - rewrite (item_decoded fuel st l p acct aid elem r) by assumption.
    cbn zeta. rewrite Hr, Hn. reflexivity.
  - cbn [item]. subst st1. cbn [self with_item extra attachment_id].
    rewrite Hx, Haid, Hn. reflexivity.
Qed.

(** X10: an answer without the nested item.  When the decoded attachment
    carries an identity, the property's reading of that attachment stops
    at the guard on the owner, which a decoded attachment never has:
    [item] raises [ValueError], not the assertion on the missing item;
    only when the decoded attachment carries no identity either does it
    raise [AssertionError].  In both cases the attachment and the items
    are unchanged. *)
Theorem item_missing_in_answer fuel st l p acct aid elem r :
  owned_by st l p acct ->
  attachment_id (self st) = Some aid -> extra (self st) = ItemAttachment VNone ->
  service env (calls st) (GetAttachment acct [aid] true) = [RElem elem] ->
  from_xml env (self st) (Some elem) acct = Ok (Some r) ->
  extra r = ItemAttachment VNone ->
  item (Datatypes.S (Datatypes.S fuel)) env st =
    Some (match attachment_id r with
          | Some _ => Raise (ValueError "ItemAttachment must have an account")
          | None => Raise AssertionError
          end, requested (GetAttachment acct [aid] true) st).
Proof.
  intros Hown Haid Hx Hsvc Hdec Hr.
  rewrite (item_decoded fuel st l p acct aid elem r) by assumption.
  cbn zeta. rewrite Hr. cbn [is_none]. destruct (attachment_id r); reflexivity.
Qed.

(** What a comprehension returns satisfies what each of its elements is
    known to satisfy. *)
Lemma mapM_Forall {S A B} (P : B -> Prop) (f : A -> M S B) :
  (forall x s y s', f x s = (Ok y, s') -> P y) ->
  forall l s ys s', mapM f l s = (Ok ys, s') -> Forall P ys.
Proof.
  intros Hf. induction l as [|x xs IH]; intros s ys s' H; cbn in H; run.
  - inversion H. constructor.
  - destruct (f x s) as [[y|e] s1] eqn:Hx; [|discriminate].
    destruct (mapM f xs s1) as [[ys'|e] s2] eqn:Hxs; [|discriminate].
    inversion H; subst. constructor; eauto.
Qed.

(** Up to the list of decoded attachments, [item] changes the record of
    requests only, and every attachment in the list is without owner. *)
Lemma item_fetch_frame aid st r st1 :
  item_fetch env aid st = (r, st1) ->
  self st1 = self st /\ heap st1 = heap st /\
  match r with
  | Ok items => Forall (fun i => forall a, i = inr (Some a) -> parent_item a = None) items
  | Raise _ => True
  end.
Proof.
  unfold item_fetch, parent_with_account, deref. run.
  destruct (parent_item (self st)) as [l|]; [|intros H; inversion H; subst; auto]. cbn.
  destruct (heap st !! l) as [p|]; [|intros H; inversion H; subst; auto]. cbn.
  destruct (account p) as [acct|]; [|intros H; inversion H; subst; auto].
  unfold call. cbn [self heap calls].
  match goal with
  | |- context [mapM ?f ?xs ?s0] =>
      assert (Hs : snd (mapM f xs s0) = s0);
      [apply mapM_pure|
       pose proof (mapM_Forall
                     (fun i => forall a, i = inr (Some a) -> parent_item a = None) f) as HP;
       destruct (mapM f xs s0) as [[items|e'] s1] eqn:Hm]
  end.
  { intros [x|x|] s; cbn; try reflexivity. unfold call_kw. cbn.
    destruct (from_xml _ _ _ _); reflexivity. }
  all: cbn in Hs; subst s1.
  - assert (HF : Forall (fun i => forall a, i = inr (Some a) -> parent_item a = None) items).
    { eapply HP; [|exact Hm]. intros [x|x|] s y s'; cbn; try discriminate.
      - intros H; inversion H; subst. discriminate.
      - unfold call_kw. cbn.
        destruct (from_xml env (self st) (Some x) acct) as [o|e] eqn:Hd; [|discriminate].
        intros H; inversion H; subst. intros a Ha. inversion Ha; subst.
        apply (from_xml_fresh _ _ _ _ Hd). }
    destruct (length items =? 1)%nat; intros H; inversion H; subst; auto.
  - intros H; inversion H; subst; auto.
Qed.

(** X11: [item] reads at most two levels deep and changes nothing but the
    item it holds.  With fuel for two levels it always ends, with more
    fuel it ends the same way; the items are as they were, and the
    attachment is as it was or differs in the nested item only, which is
    then the value returned. *)
Theorem item_reads_two_levels fuel st :
  exists r st',
    item 2 env st = Some (r, st') /\
    item (Datatypes.S (Datatypes.S fuel)) env st = Some (r, st') /\
    heap st' = heap st /\
    (self st' = self st \/ exists v, r = Ok v /\ self st' = with_item v (self st)).
Proof.
  assert (Hgen : forall n, exists r st',
             item (Datatypes.S (Datatypes.S n)) env st = Some (r, st') /\
             (forall m, item (Datatypes.S (Datatypes.S m)) env st = Some (r, st')) /\
             heap st' = heap st /\
             (self st' = self st \/ exists v, r = Ok v /\ self st' = with_item v (self st))).
  { intros n.
    assert (Hstep : forall k, item (Datatypes.S (Datatypes.S k)) env st =
              match extra (self st) with
              | FileAttachment _ _ =>
                  Some (Raise (AttributeError "'FileAttachment' object has no attribute 'item'"), st)
              | ItemAttachment _item =>
                  match attachment_id (self st) with
                  | None => Some (Ok _item, st)
                  | Some aid =>
                      if negb (is_none _item) then Some (Ok _item, st)
                      else
                        match item_fetch env aid st with
                        | (Raise e, st1) => Some (Raise e, st1)
                        | (Ok items, st1) =>
                            match items with
                            | inl e :: _ => Some (Raise e, st1)
                            | inr None :: _ =>
                                Some (Raise (AttributeError
                                               "'NoneType' object has no attribute 'item'"), st1)
                            | inr (Some attachment) :: _ =>
                                match item (Datatypes.S k) env
                                        (mkState attachment (heap st1) (calls st1)) with
                                | None => None
                                | Some (Raise e, sa) =>
                                    Some (Raise e, mkState (self st1) (heap sa) (calls sa))
                                | Some (Ok v, sa) =>
                                    if is_none v then
                                      Some (Raise AssertionError,
                                            mkState (self st1) (heap sa) (calls sa))
                                    else
                                      match item (Datatypes.S k) env sa with
                                      | None => None
                                      | Some (Raise e, sb) =>
                                          Some (Raise e, mkState (self st1) (heap sb) (calls sb))
                                      | Some (Ok v', sb) =>
                                          Some (Ok v', mkState (with_item v' (self st1))
                                                         (heap sb) (calls sb))
                                      end
                                end
                            | [] => Some (Raise AssertionError, st1)
                            end
                        end
                  end
              end) by reflexivity.
    destruct (extra (self st)) as [q c|i] eqn:Hx.
    { eexists _, _. split; [rewrite Hstep; reflexivity|].
      split; [intros m; rewrite Hstep; reflexivity|auto]. }
    destruct (attachment_id (self st)) as [aid|] eqn:Haid.
    2: { eexists _, _. split; [rewrite Hstep; reflexivity|].
         split; [intros m; rewrite Hstep; reflexivity|auto]. }
    destruct (negb (is_none i)) eqn:Hi.
    { eexists _, _. split; [rewrite Hstep; reflexivity|].
      split; [intros m; rewrite Hstep; reflexivity|auto]. }
    destruct (item_fetch env aid st) as [[items|e] st1] eqn:Hf;
      destruct (item_fetch_frame aid st _ st1 Hf) as (Hs1 & Hh1 & HF).
    2: { eexists _, _. split; [rewrite Hstep; reflexivity|].
         split; [intros m; rewrite Hstep; reflexivity|auto]. }
    destruct items as [|[e|[a|]] tl].
    1, 2, 4: eexists _, _; (split; [rewrite Hstep; reflexivity|]);
             (split; [intros m; rewrite Hstep; reflexivity|auto]).
    assert (Hp : parent_item a = None)
      by (inversion HF as [|? ? Ha _]; subst; apply Ha; reflexivity).
    assert (Hnested : forall k, item (Datatypes.S (Datatypes.S k)) env st =
              match (match extra a with
                     | FileAttachment _ _ =>
                         Raise (AttributeError "'FileAttachment' object has no attribute 'item'")
                     | ItemAttachment v =>
                         match attachment_id a with
                         | None => Ok v
                         | Some _ =>
                             if is_none v
                             then Raise (ValueError "ItemAttachment must have an account")
                             else Ok v
                         end
                     end) with
              | Raise e => Some (Raise e, mkState (self st1) (heap st1) (calls st1))
              | Ok v =>
                  if is_none v
                  then Some (Raise AssertionError, mkState (self st1) (heap st1) (calls st1))
                  else Some (Ok v, mkState (with_item v (self st1)) (heap st1) (calls st1))
              end).
    { intros k. rewrite Hstep. rewrite !(item_without_owner k a _ _ Hp).
      destruct (extra a) as [q c|v]; [reflexivity|].
      destruct (attachment_id a) as [b|]; destruct (is_none v) eqn:Hv;
        cbn; rewrite ?Hv; reflexivity. }
    clear Hstep. revert Hnested.
    destruct (extra a) as [q c|v].
    { intros Hnested. eexists _, _. split; [apply Hnested|].
      split; [intros m; apply Hnested|]. cbn. rewrite Hs1, Hh1. auto. }
    destruct (attachment_id a); destruct (is_none v) eqn:Hv; cbn; rewrite ?Hv;
      intros Hnested; (eexists _, _; split; [apply Hnested|]);
      (split; [intros m; apply Hnested|]); cbn; rewrite ?Hs1, ?Hh1; eauto. }
  destruct (Hgen fuel) as (r & st' & _ & Hall & Hh & Hs).
  exists r, st'. split; [apply (Hall 0%nat)|]. split; [apply Hall|]. auto.
Qed.

End NestedItem.

Section Equality.

Import attachments attachment_methods.

(** The hash function of the interpreter: any function will do. *)
Variable h : list pyval -> Z.

Lemma AttachmentId_hash_ok i :
  AttachmentId_hash h i =
    Ok (h [opt_str (AttachmentId.id i); opt_str (AttachmentId.root_id i);
           opt_str (AttachmentId.root_changekey i)]).
Proof.
  unfold AttachmentId_hash, hash_tuple.
  destruct i as [[a|] [b|] [c|]]; reflexivity.
Qed.

(** X12: once attachments have an identity, equality looks at nothing
    else.  Two attachments with the same identity compare equal whatever
    their names, payloads, classes or owners; and an attachment compares
    equal to its identity object itself. *)
Theorem attached_equal_by_identity (a b : Attachment) (i : AttachmentId.t) :
  attachment_id a = Some i -> attachment_id b = Some i ->
  __eq__ h a (AnAttachment b) = Ok true /\
  __eq__ h a (AnAttachmentId i) = Ok true.
Proof.
  intros Ha Hb. unfold __eq__, hash_of, __hash__. rewrite Ha, Hb.
  rewrite AttachmentId_hash_ok. run. rewrite Z.eqb_refl. auto.
Qed.

(** X13: before an attachment has an identity, equality looks at every
    slot but the owner: the attachment compares equal to itself bound to
    any other owner, provided no slot holds a list; if one does, the
    comparison raises [TypeError]. *)
Theorem unattached_equal_whatever_owner (a : Attachment) (l : option loc) :
  attachment_id a = None ->
  (forallb hashable (slots_after_parent a) = true ->
   __eq__ h a (AnAttachment (with_parent_item l a)) = Ok true) /\
  (forallb hashable (slots_after_parent a) = false ->
   __eq__ h a (AnAttachment (with_parent_item l a))
     = Raise (TypeError "unhashable type: 'list'")).
Proof.
  intros Ha. unfold __eq__, hash_of, __hash__. cbn [attachment_id with_parent_item].
  rewrite Ha. unfold hash_tuple.
  change (slots_after_parent (with_parent_item l a)) with (slots_after_parent a).
  split; intros ->; run; [rewrite Z.eqb_refl|]; reflexivity.
Qed.

(** X14: [Attachment.clean] never returns.  It first defaults an absent
    content type from the name, then calls [EWSElement.clean] with the
    keyword [version], which that method does not declare: the call
    raises [TypeError], and the defaulted content type stays on the
    attachment. *)
Theorem attachment_clean_raises (guess_type : string -> option string)
    (super_clean : M State unit) (st : State) :
  (is_none (content_type (self st)) && negb (is_none (name (self st))) = false ->
   clean guess_type super_clean st =
     (Raise (TypeError "clean() got an unexpected keyword argument 'version'"), st)) /\
  (forall n,
   content_type (self st) = VNone -> name (self st) = VStr n ->
   exists t,
     clean guess_type super_clean st =
       (Raise (TypeError "clean() got an unexpected keyword argument 'version'"),
        mkState (with_content_type (VStr t) (self st)) (heap st) (calls st)) /\
     t <> "" /\
     (t = "application/octet-stream" \/ guess_type n = Some t)) /\
  (exists e st', clean guess_type super_clean st = (Raise e, st') /\ heap st' = heap st).
Proof.
  unfold clean, set_self. run. repeat split.
  - intros ->. reflexivity.
  - intros n Hct Hn. rewrite Hct, Hn. cbn.
    destruct (guess_type n) as [[|c t]|]; eexists; (split; [reflexivity|]);
      (split; [discriminate|auto]).
  - destruct (is_none (content_type (self st)) && negb (is_none (name (self st)))); [|eauto].
    destruct (name (self st)); cbn; eauto.
Qed.

End Equality.

(** * Further properties of properties.py *)

Section Registry.

Import registry.

Context {A : Type} `{EqDecision A}.
Variable name : A -> string.

Implicit Types (cs : gmap string (ClassDict (A := A))) (f g : A).

(** The dictionary built from a field list maps a name to the last field
    that carries it. *)
Lemma by_name_from (l : list A) (m : gmap string A) (n : string) :
  foldl (fun m f => <[name f := f]> m) m l !! n =
    match last (filter (fun f => name f = n) l) with
    | Some f => Some f
    | None => m !! n
    end.
Proof.
  revert m. induction l as [|f l IH]; intros m; [reflexivity|].
  cbn [foldl]. rewrite IH. destruct (decide (name f = n)) as [Hn|Hn].
  - rewrite filter_cons_True by exact Hn. rewrite last_cons.
    destruct (last (filter _ l)); [reflexivity|]. rewrite <- Hn. apply lookup_insert_eq.
  - rewrite filter_cons_False by exact Hn.
    destruct (last (filter _ l)); [reflexivity|]. apply lookup_insert_ne. exact Hn.
Qed.

Lemma by_name_lookup (l : list A) (n : string) :
  by_name name l !! n = last (filter (fun f => name f = n) l).
Proof.
  unfold by_name. rewrite by_name_from, lookup_empty.
  destruct (last _); reflexivity.
Qed.

(** Setting an attribute on a class does not change what the classes
    after it in the resolution order hold. *)
Lemma get_fields_map_other (rest : list string) c d cs :
  c ∉ rest -> get_fields_map rest (<[c := d]> cs) = get_fields_map rest cs.
Proof.
  induction rest as [|x rest IH]; intros Hc; [reflexivity|]. cbn.
  rewrite lookup_insert_ne by (intros ->; apply Hc; left).
  rewrite IH by (intros Hin; apply Hc; right; exact Hin). reflexivity.
Qed.

Lemma get_FIELDS_other (rest : list string) c d cs :
  c ∉ rest -> get_FIELDS rest (<[c := d]> cs) = get_FIELDS rest cs.
Proof.
  induction rest as [|x rest IH]; intros Hc; [reflexivity|]. cbn.
  rewrite lookup_insert_ne by (intros ->; apply Hc; left).
  rewrite IH by (intros Hin; apply Hc; right; exact Hin). reflexivity.
Qed.

(** A lookup on a class that sees a dictionary is answered from it. *)
Lemma cached_lookup c rest cs (m : gmap string A) n :
  get_fields_map (c :: rest) cs = Some m ->
  get_field_by_fieldname name (c :: rest) n cs =
    (match m !! n with
     | Some f => inr f
     | None => inl (KeyError n)
     end, cs).
Proof.
  intros Hm. unfold get_field_by_fieldname. cbv zeta. rewrite Hm.
  cbv beta iota. rewrite Hm. cbn -[by_name]. destruct (m !! n); reflexivity.
Qed.

(** The first lookup builds the dictionary and keeps it on the class. *)
Lemma first_lookup c rest cs s n :
  get_fields_map (c :: rest) cs = None ->
  get_FIELDS (c :: rest) cs = Some s ->
  get_fields_map (c :: rest) (set_fields_map c (by_name name (elements s)) cs) =
    Some (by_name name (elements s)) /\
  get_field_by_fieldname name (c :: rest) n cs =
    (match last (filter (fun f => name f = n) (elements s)) with
     | Some f => inr f
     | None => inl (KeyError n)
     end, set_fields_map c (by_name name (elements s)) cs).
Proof.
  intros Hmap HF.
  assert (Hcs1 : get_fields_map (c :: rest) (set_fields_map c (by_name name (elements s)) cs)
                 = Some (by_name name (elements s))).
  { cbn. unfold set_fields_map. rewrite lookup_insert_eq. reflexivity. }
  split; [exact Hcs1|].
  unfold get_field_by_fieldname. rewrite Hmap, HF. rewrite Hcs1.
  cbn -[by_name]. rewrite (by_name_lookup (elements s) n).
  destruct (last _); reflexivity.
Qed.

(** X15: on a class for which no dictionary of fields has been built, in
    itself or in a class it inherits from, [get_field_by_fieldname]
    returns the last field of [FIELDS] that carries the name, raises
    [KeyError] when there is none, and keeps the dictionary on the class:
    the next lookup is answered from it. *)
Theorem get_field_by_fieldname_finds_last c rest cs s n :
  get_fields_map (c :: rest) cs = None ->
  get_FIELDS (c :: rest) cs = Some s ->
  let cs1 := set_fields_map c (by_name name (elements s)) cs in
  get_field_by_fieldname name (c :: rest) n cs =
    (match last (filter (fun f => name f = n) (elements s)) with
     | Some f => inr f
     | None => inl (KeyError n)
     end, cs1) /\
  get_fields_map (c :: rest) cs1 = Some (by_name name (elements s)) /\
  forall n', get_field_by_fieldname name (c :: rest) n' cs1 =
    (match last (filter (fun f => name f = n') (elements s)) with
     | Some f => inr f
     | None => inl (KeyError n')
     end, cs1).
Proof.
  intros Hmap HF cs1.
  destruct (first_lookup c rest cs s n Hmap HF) as [Hcs1 Hfirst].
  split; [exact Hfirst|]. split; [exact Hcs1|].
  intros n'. rewrite (cached_lookup c rest cs1 _ n' Hcs1).
  rewrite (by_name_lookup (elements s) n'). reflexivity.
Qed.

(** What [add_field] and [remove_field] leave on the class: the new
    tuple and no dictionary. *)
Lemma del_set_FIELDS c (s : Seq) cs :
  del_fields_map c (set_FIELDS c s cs) = <[c := mkClassDict (Some s) None]> cs.
Proof.
  unfold del_fields_map, set_FIELDS. rewrite lookup_insert_eq. cbn.
  destruct (own_fields_map (dict_of c cs)) as [m|] eqn:Hm.
  - unfold dict_of at 1. rewrite lookup_insert_eq. cbn. apply insert_insert_eq.
  - reflexivity.
Qed.

Lemma get_FIELDS_own c rest (s : Seq) (m : option (gmap string A)) cs :
  get_FIELDS (c :: rest) (<[c := mkClassDict (Some s) m]> cs) = Some s.
Proof. cbn. rewrite lookup_insert_eq. reflexivity. Qed.

Lemma get_fields_map_cleared c rest (s : option Seq) cs :
  c ∉ rest ->
  get_fields_map (c :: rest) (<[c := mkClassDict s None]> cs) = get_fields_map rest cs.
Proof.
  intros Hc. cbn. rewrite lookup_insert_eq. cbn. apply get_fields_map_other. exact Hc.
Qed.

(** Building the dictionary does not change the declared fields. *)
Lemma get_FIELDS_set_fields_map (mro : list string) c (m : gmap string A) cs :
  get_FIELDS mro (set_fields_map c m cs) = get_FIELDS mro cs.
Proof.
  induction mro as [|x mro IH]; [reflexivity|]. cbn. rewrite IH.
  unfold set_fields_map, dict_of. destruct (decide (c = x)) as [->|Hne].
  - rewrite lookup_insert_eq. cbn. destruct (cs !! x); reflexivity.
  - rewrite lookup_insert_ne by exact Hne. reflexivity.
Qed.

(** Filtering with a predicate that holds nowhere leaves nothing. *)
Lemma filter_none (P : A -> Prop) `{forall x, Decision (P x)} (l : list A) :
  (forall x, x ∈ l -> ~ P x) -> filter P l = [].
Proof.
  induction l as [|x l IH]; intros Hall; [reflexivity|].
  rewrite filter_cons_False by (apply Hall; left).
  apply IH. intros y Hy. apply Hall. right. exact Hy.
Qed.

(** Inserting a field changes the fields of its own name only. *)
Lemma filter_inserted (P : A -> Prop) `{forall x, Decision (P x)} (l : list A) (k : nat) f :
  filter P (take k l ++ [f] ++ drop k l)%list =
    (filter P (take k l) ++ (if decide (P f) then [f] else []) ++ filter P (drop k l))%list.
Proof.
  rewrite !filter_app.
  destruct (decide (P f)); [rewrite filter_cons_True by assumption|
                            rewrite filter_cons_False by assumption]; reflexivity.
Qed.

(** X16: [add_field] puts the field at the position the two slices cut,
    whatever the index, negative or beyond the end, and discards the
    dictionary of the class.  When no class it inherits from holds a
    dictionary, the lookups that follow see the new list: the new field
    is found under its name, provided no declared field carries that
    name, and every other name is answered as the old list answers it. *)
Theorem add_field_is_seen_by_lookup c rest cs (l : list A) f (idx : Z) :
  c ∉ rest ->
  get_fields_map rest cs = None ->
  get_FIELDS (c :: rest) cs = Some (Tuple l) ->
  (forall g, g ∈ l -> name g <> name f) ->
  let k := cut (length l) idx in
  let cs1 := <[c := mkClassDict (Some (Tuple (take k l ++ [f] ++ drop k l)%list)) None]> cs in
  add_field (c :: rest) f idx cs = (inr tt, cs1) /\
  (k <= length l)%nat /\
  fst (get_field_by_fieldname name (c :: rest) (name f) cs1) = inr f /\
  forall n, n <> name f ->
    fst (get_field_by_fieldname name (c :: rest) n cs1) =
      match last (filter (fun g => name g = n) l) with
      | Some g => inr g
      | None => inl (KeyError n)
      end.
Proof.
  intros Hc Hrest HF Hfresh k cs1.
  assert (Hadd : add_field (c :: rest) f idx cs = (inr tt, cs1)).
  { unfold add_field. rewrite HF. fold k. rewrite del_set_FIELDS. reflexivity. }
  assert (Hk : (k <= length l)%nat).
  { unfold k, cut. destruct (idx <? 0)%Z eqn:Hi; lia. }
  assert (Hmap : get_fields_map (c :: rest) cs1 = None).
  { unfold cs1. rewrite get_fields_map_cleared by exact Hc. exact Hrest. }
  assert (HF1 : get_FIELDS (c :: rest) cs1
                = Some (Tuple (take k l ++ [f] ++ drop k l)%list)).
  { apply get_FIELDS_own. }
  split; [exact Hadd|]. split; [exact Hk|].
  pose proof (first_lookup c rest cs1 _ (name f) Hmap HF1) as (_ & H1).
  split.
  - rewrite H1. cbn [fst elements]. rewrite filter_inserted.
    rewrite decide_True by reflexivity.
    rewrite (filter_none _ (drop k l)).
    + rewrite app_nil_r. rewrite last_snoc. reflexivity.
    + intros g Hg. apply Hfresh. eapply subseteq_drop. exact Hg.
  - intros n Hn.
    pose proof (first_lookup c rest cs1 _ n Hmap HF1) as (_ & H2).
    rewrite H2. cbn [fst elements]. rewrite filter_inserted.
    rewrite decide_False by congruence. cbn [app].
    rewrite <- filter_app, take_drop. reflexivity.
Qed.

(** X17: removing a field that was added gives the declared fields back.
    For a field that is not yet declared and any index, [add_field]
    followed by [remove_field] leaves on the class the tuple it started
    from and no dictionary. *)
Theorem remove_field_undoes_add_field c rest cs (l : list A) f (idx : Z) :
  get_FIELDS (c :: rest) cs = Some (Tuple l) ->
  f ∉ l ->
  exists cs1 cs2,
    add_field (c :: rest) f idx cs = (inr tt, cs1) /\
    remove_field (c :: rest) f cs1 = (inr tt, cs2) /\
    get_FIELDS (c :: rest) cs2 = Some (Tuple l) /\
    cs2 = <[c := mkClassDict (Some (Tuple l)) None]> cs.
Proof.
  intros HF Hf. eexists _, _. split.
  { unfold add_field. rewrite HF. rewrite del_set_FIELDS. reflexivity. }
  unfold remove_field. rewrite get_FIELDS_own. cbn [elements].
  rewrite del_set_FIELDS, insert_insert_eq.
  rewrite filter_inserted. rewrite decide_False by (intros Hne; apply Hne; reflexivity).
  cbn [app]. rewrite <- filter_app, take_drop.
  rewrite filter_all by (intros x Hx ->; exact (Hf Hx)).
  split; [reflexivity|]. split; [apply get_FIELDS_own|reflexivity].
Qed.

(** X18: a dictionary built on a parent class hides from a subclass the
    fields added to the subclass.  When the parent has been looked up
    first, so that it holds the dictionary, and a field is then added to
    a subclass that holds no dictionary of its own, the field is in
    [FIELDS] of the subclass, yet looking it up on the subclass raises
    [KeyError]: [delattr] on the subclass found nothing to delete, and the
    lookup is answered from the dictionary of the parent. *)
Theorem inherited_dictionary_hides_added_field c p rest cs (l : list A) f (idx : Z) n :
  c <> p -> c ∉ rest ->
  cs !! c ≫= own_fields_map = None ->
  cs !! c ≫= own_FIELDS = None ->
  get_fields_map (p :: rest) cs = None ->
  get_FIELDS (p :: rest) cs = Some (Tuple l) ->
  (forall g, g ∈ l -> name g <> name f) ->
  exists cs1 cs2,
    snd (get_field_by_fieldname name (p :: rest) n cs) = cs1 /\
    add_field (c :: p :: rest) f idx cs1 = (inr tt, cs2) /\
    (exists l', get_FIELDS (c :: p :: rest) cs2 = Some (Tuple l') /\ f ∈ l') /\
    get_field_by_fieldname name (c :: p :: rest) (name f) cs2 = (inl (KeyError (name f)), cs2).
Proof.
  intros Hcp Hc Hcmap HcF Hmap HF Hfresh.
  destruct (first_lookup p rest cs _ n Hmap HF) as (Hm1 & H1).
  set (cs1 := set_fields_map p (by_name name (elements (Tuple l))) cs) in *.
  assert (HcF1 : cs1 !! c ≫= own_FIELDS = None).
  { unfold cs1, set_fields_map. rewrite lookup_insert_ne by congruence. exact HcF. }
  assert (Hcmap1 : cs1 !! c ≫= own_fields_map = None).
  { unfold cs1, set_fields_map. rewrite lookup_insert_ne by congruence. exact Hcmap. }
  assert (HF1 : get_FIELDS (c :: p :: rest) cs1 = Some (Tuple l)).
  { unfold cs1. rewrite get_FIELDS_set_fields_map.
    change (get_FIELDS (c :: p :: rest) cs)
      with (match cs !! c ≫= own_FIELDS with
            | Some s => Some s
            | None => get_FIELDS (p :: rest) cs
            end).
    rewrite HcF. exact HF. }
  set (k := cut (length l) idx).
  set (cs2 := <[c := mkClassDict (Some (Tuple (take k l ++ [f] ++ drop k l)%list)) None]> cs1).
  exists cs1, cs2. split; [rewrite H1; reflexivity|]. split.
  { unfold add_field. rewrite HF1. fold k. rewrite del_set_FIELDS. reflexivity. }
  split.
  { eexists. split; [apply get_FIELDS_own|]. apply elem_of_app. right. left. }
  assert (Hm2 : get_fields_map (c :: p :: rest) cs2 = Some (by_name name l)).
  { unfold cs2. rewrite get_fields_map_cleared; [exact Hm1|].
    intros Hin. apply elem_of_cons in Hin as [?|?]; [congruence|auto]. }
  unfold get_field_by_fieldname. cbv zeta. rewrite Hm2. cbv beta iota. rewrite Hm2.
  cbn -[by_name]. rewrite (by_name_lookup l (name f)).
  rewrite (filter_none _ l) by (intros g Hg; apply Hfresh; exact Hg). reflexivity.
Qed.

(** X19: a class whose [FIELDS] is a list, as the classes of
    [attachments.py] declare it, cannot take a new field: [add_field]
    raises [TypeError] on the concatenation of a list and a tuple and
    changes nothing.  [remove_field] does work on it and leaves a tuple,
    after which [add_field] works. *)
Theorem add_field_refuses_a_list c rest cs (l : list A) f g (idx : Z) :
  get_FIELDS (c :: rest) cs = Some (PyList l) ->
  add_field (c :: rest) f idx cs = (inl ConcatTypeError, cs) /\
  exists cs1 cs2,
    remove_field (c :: rest) g cs = (inr tt, cs1) /\
    get_FIELDS (c :: rest) cs1 = Some (Tuple (filter (fun x => x <> g) l)) /\
    add_field (c :: rest) f idx cs1 = (inr tt, cs2) /\
    exists l', get_FIELDS (c :: rest) cs2 = Some (Tuple l') /\ f ∈ l'.
Proof.
  intros HF. split.
  { unfold add_field. rewrite HF. reflexivity. }
  eexists _, _. split.
  { unfold remove_field. rewrite HF. rewrite del_set_FIELDS. reflexivity. }
  split; [apply get_FIELDS_own|]. split.
  { unfold add_field. rewrite get_FIELDS_own. rewrite del_set_FIELDS. reflexivity. }
  eexists. split; [apply get_FIELDS_own|]. apply elem_of_app. right. left.
Qed.

End Registry.

Section Constructors.

Import EWSElement.

(** What [EWSElement.__init__] does with the keyword arguments of an
    identity, once [ItemId.__init__] has chosen them. *)
Lemma ItemId_init_accepts c (kw : gmap string (option string)) :
  kw <> ∅ ->
  (forall n, n <> "id" -> n <> "changekey" -> kw !! n = None) ->
  ItemId_init.__init__ c [] kw =
    Ok (ItemId.mk c (default None (kw !! "id")) (default None (kw !! "changekey"))).
Proof.
  intros Hne Hkw. unfold ItemId_init.__init__.
  rewrite (decide_False (P := kw = ∅)) by exact Hne.
  rewrite lookup_delete_ne by discriminate.
  rewrite decide_True; [reflexivity|].
  apply map_eq. intros n. rewrite lookup_empty.
  destruct (decide (n = "changekey")) as [->|H1]; [apply lookup_delete_eq|].
  rewrite lookup_delete_ne by congruence.
  destruct (decide (n = "id")) as [->|H2]; [apply lookup_delete_eq|].
  rewrite lookup_delete_ne by congruence. apply Hkw; assumption.
Qed.

Lemma ItemId_init_positional c i k (rest : list (option string)) :
  ItemId_init.__init__ c (i :: k :: rest) ∅ = Ok (ItemId.mk c i k).
Proof.
  unfold ItemId_init.__init__.
  rewrite (decide_True (P := (∅ : gmap string (option string)) = ∅)) by reflexivity.
  cbn [zip zip_with list_to_map foldr uncurry fst snd].
  rewrite lookup_insert_eq. cbn [default].
  rewrite lookup_delete_ne by discriminate.
  rewrite lookup_insert_ne by discriminate. rewrite lookup_insert_eq. cbn [default].
  rewrite decide_True; [reflexivity|].
  apply map_eq. intros n. rewrite lookup_empty.
  destruct (decide (n = "changekey")) as [->|H1]; [apply lookup_delete_eq|].
  rewrite lookup_delete_ne by congruence.
  destruct (decide (n = "id")) as [->|H2]; [apply lookup_delete_eq|].
  rewrite lookup_delete_ne by congruence.
  rewrite !lookup_insert_ne by congruence. apply lookup_empty.
Qed.

Lemma ItemId_init_keywords_only c args (kwargs : gmap string (option string)) :
  kwargs <> ∅ -> ItemId_init.__init__ c args kwargs = ItemId_init.__init__ c [] kwargs.
Proof.
  intros Hne. unfold ItemId_init.__init__.
  rewrite !(decide_False (P := kwargs = ∅)) by exact Hne. reflexivity.
Qed.

(** X20: the arguments of the constructor of an identity.  Two positional
    arguments are the id and the change-token, and any further ones are
    dropped without a word; as soon as one keyword is given the
    positional arguments are ignored altogether, so that a positional id
    next to a keyword change-token leaves the id [None]; and a keyword
    other than the two slots raises [TypeError]. *)
Theorem ItemId_constructor_arguments (c : ItemId.Class) :
  (forall i k rest, ItemId_init.__init__ c (i :: k :: rest) ∅ = Ok (ItemId.mk c i k)) /\
  (forall args kwargs,
     kwargs <> ∅ -> ItemId_init.__init__ c args kwargs = ItemId_init.__init__ c [] kwargs) /\
  (forall args k,
     ItemId_init.__init__ c args {[ "changekey" := k ]} = Ok (ItemId.mk c None k)) /\
  (forall args kwargs n,
     is_Some (kwargs !! n) -> n <> "id" -> n <> "changekey" ->
     exists msg, ItemId_init.__init__ c args kwargs = Raise (TypeError msg)).
Proof.
  split; [|split; [|split]].
  - apply ItemId_init_positional.
  - apply ItemId_init_keywords_only.
  - intros args k.
    assert (Hne : ({[ "changekey" := k ]} : gmap string (option string)) <> ∅)
      by apply insert_non_empty.
    rewrite (ItemId_init_keywords_only c args _ Hne).
    rewrite ItemId_init_accepts.
    + rewrite lookup_singleton_ne by discriminate. rewrite lookup_singleton_eq. reflexivity.
    + exact Hne.
    + intros n _ Hn. apply lookup_singleton_ne. congruence.
  - intros args kwargs n [v Hv] Hid Hck. unfold ItemId_init.__init__.
    rewrite (decide_False (P := kwargs = ∅))
      by (intros ->; rewrite lookup_empty in Hv; discriminate).
    rewrite decide_False; [eexists; reflexivity|].
    intros He. assert (Hn : delete "changekey" (delete "id" kwargs) !! n = Some v).
    { rewrite !lookup_delete_ne by congruence. exact Hv. }
    rewrite He, lookup_empty in Hn. discriminate.
Qed.

(** The loop of [__init__], whatever the names of the fields: every
    declared name becomes an attribute and leaves the keyword arguments. *)
Lemma init_loop_names (fs : list Field.t) (s kw : gmap string pyval) :
  exists s' kw' : gmap string pyval,
    fold_left (fun '(self, kwargs) f =>
                 (<[Field.name f := default VNone (kwargs !! Field.name f)]> self,
                  delete (Field.name f) kwargs)) fs (s, kw) = (s', kw') /\
    (forall n, is_Some (s' !! n) <-> is_Some (s !! n) \/ n ∈ Field.name <$> fs) /\
    (forall n, kw' !! n = if decide (n ∈ Field.name <$> fs) then None else kw !! n).
Proof.
  revert s kw. induction fs as [|f fs IH]; intros s kw.
  - exists s, kw. split; [reflexivity|]. split; intros n.
    + split; [auto|]. intros [?|Hin]; [assumption|]. inversion Hin.
    + rewrite decide_False; [reflexivity|]. intros Hin. inversion Hin.
  - destruct (IH (<[Field.name f := default VNone (kw !! Field.name f)]> s)
                (delete (Field.name f) kw)) as (s' & kw' & Hrun & Hs & Hk).
    exists s', kw'. split; [exact Hrun|]. split; intros n.
    + rewrite Hs, fmap_cons, elem_of_cons, lookup_insert_is_Some. 
      destruct (decide (Field.name f = n)); intuition congruence.
    + rewrite Hk, fmap_cons. destruct (decide (n = Field.name f)) as [->|Hne].
      * rewrite (decide_True (P := _ ∈ _ :: _)) by left.
        case_decide; [reflexivity|]. apply lookup_delete_eq.
      * case_decide as Hin.
        -- rewrite decide_True by (right; exact Hin). reflexivity.
        -- rewrite decide_False by (intros Hc; apply elem_of_cons in Hc as [?|?]; tauto).
           apply lookup_delete_ne. congruence.
Qed.

(** X21: [EWSElement.__init__] accepts exactly the keywords that are
    declared field names.  With such keywords only it returns an instance
    whose attributes are the declared names, so that no later [getattr]
    on a declared field can fail; each attribute holds the keyword's
    value, or [None] without one, provided the names are distinct.  With
    any other keyword it raises [TypeError]. *)
Theorem init_sets_the_declared_fields (fs : list Field.t) (kwargs : gmap string pyval) :
  ((forall n, is_Some (kwargs !! n) -> n ∈ Field.name <$> fs) ->
   exists self,
     __init__ fs kwargs = Ok self /\
     (forall n, is_Some (self !! n) <-> n ∈ Field.name <$> fs) /\
     (NoDup (Field.name <$> fs) ->
      forall n, n ∈ Field.name <$> fs -> self !! n = Some (default VNone (kwargs !! n)))) /\
  (forall n, is_Some (kwargs !! n) -> n ∉ Field.name <$> fs ->
   exists msg, __init__ fs kwargs = Raise (TypeError msg)).
Proof.
  destruct (init_loop_names fs ∅ kwargs) as (s' & kw' & Hrun & Hs & Hk).
  split.
  - intros Hall. exists s'. unfold __init__. rewrite Hrun.
    assert (kw' = ∅) as ->.
    { apply map_eq. intros n. rewrite Hk, lookup_empty. case_decide as Hin; [reflexivity|].
      apply eq_None_not_Some. intros Hsome. apply Hin, Hall, Hsome. }
    rewrite decide_True by reflexivity. split; [reflexivity|]. split.
    + intros n. rewrite Hs, lookup_empty. split; [intros [[? ?]|?]; [discriminate|assumption]|auto].
    + intros Hnd n Hn.
      destruct (init_loop fs Hnd ∅ kwargs) as (s2 & kw2 & Hrun2 & Hs2 & _).
      rewrite Hrun in Hrun2. inversion Hrun2; subst s2.
      rewrite Hs2. rewrite decide_True by exact Hn. reflexivity.
  - intros n Hsome Hn. unfold __init__. rewrite Hrun.
    rewrite decide_False; [eexists; reflexivity|].
    intros ->. specialize (Hk n). rewrite decide_False in Hk by exact Hn.
    rewrite lookup_empty in Hk. rewrite <- Hk in Hsome. destruct Hsome; discriminate.
Qed.

(** [__init__] with distinct names and declared keywords only. *)
Lemma init_returns (fs : list Field.t) (kwargs : gmap string pyval) :
  NoDup (Field.name <$> fs) ->
  (forall n, is_Some (kwargs !! n) -> n ∈ Field.name <$> fs) ->
  exists self,
    __init__ fs kwargs = Ok self /\
    forall n, self !! n = if decide (n ∈ Field.name <$> fs)
                          then Some (default VNone (kwargs !! n)) else None.
Proof.
  intros Hnd Hall.
  destruct (init_loop fs Hnd ∅ kwargs) as (s' & kw' & Hrun & Hs & Hk).
  exists s'. unfold __init__. rewrite Hrun.
  assert (kw' = ∅) as ->.
  { apply map_eq. intros n. rewrite Hk, lookup_empty. case_decide as Hin; [reflexivity|].
    apply eq_None_not_Some. intros Hsome. apply Hin, Hall, Hsome. }
  rewrite decide_True by reflexivity. split; [reflexivity|].
  intros n. rewrite Hs, lookup_empty. reflexivity.
Qed.

Lemma init_refuses (fs : list Field.t) (kwargs : gmap string pyval) n :
  is_Some (kwargs !! n) -> n ∉ Field.name <$> fs ->
  exists msg, __init__ fs kwargs = Raise (TypeError msg).
Proof.
  intros Hsome Hn.
  destruct (init_loop_names fs ∅ kwargs) as (s' & kw' & Hrun & Hs & Hk).
  unfold __init__. rewrite Hrun.
  rewrite decide_False; [eexists; reflexivity|].
  intros ->. specialize (Hk n). rewrite decide_False in Hk by exact Hn.
  rewrite lookup_empty in Hk. rewrite <- Hk in Hsome. destruct Hsome; discriminate.
Qed.

Import attachment_init.

(** The constructor of a subclass that renames [public] to [private]. *)
Lemma renaming_constructor (public private : string) (fs : list Field.t)
    (kwargs : gmap string pyval) :
  NoDup (Field.name <$> fs) ->
  private ∈ Field.name <$> fs ->
  public ∉ Field.name <$> fs -> "parent_item" ∉ Field.name <$> fs ->
  public <> "parent_item" ->
  let kwargs' := <[private := default VNone (kwargs !! public)]> (delete public kwargs) in
  ((forall n, is_Some (kwargs !! n) -> n ∈ accepted public (Field.name <$> fs)) ->
   exists self,
     Attachment__init__ fs kwargs' = Ok self /\
     self !! private = Some (default VNone (kwargs !! public)) /\
     self !! "parent_item" = Some (default VNone (kwargs !! "parent_item")) /\
     (forall n, n ∈ Field.name <$> fs -> n <> private ->
        self !! n = Some (default VNone (kwargs !! n))) /\
     (forall n, is_Some (self !! n) <-> n = "parent_item" \/ n ∈ Field.name <$> fs)) /\
  (forall n, is_Some (kwargs !! n) -> n ∉ accepted public (Field.name <$> fs) ->
   exists msg, Attachment__init__ fs kwargs' = Raise (TypeError msg)).
Proof.
  intros Hnd Hpriv Hpub Hpar Hne kwargs'. split.
  - intros Hall.
    destruct (init_returns fs (delete "parent_item" kwargs') Hnd) as (self & Hinit & Hself).
    { intros n [v Hv]. apply lookup_delete_Some in Hv as [Hn Hv].
      unfold kwargs' in Hv. apply lookup_insert_Some in Hv as [[<- _]|[Hn2 Hv]].
      - exact Hpriv.
      - apply lookup_delete_Some in Hv as [Hn3 Hv].
        specialize (Hall n (mk_is_Some _ _ Hv)). unfold accepted in Hall.
        apply elem_of_cons in Hall as [?|Hall]; [congruence|].
        apply elem_of_cons in Hall as [?|Hall]; [congruence|]. exact Hall. }
    assert (Hprivne : private <> "parent_item") by (intros ->; apply Hpar, Hpriv).
    assert (Hprivpub : private <> public) by (intros ->; apply Hpub, Hpriv).
    exists (self ∪ {[ "parent_item" := default VNone (kwargs' !! "parent_item") ]}).
    unfold Attachment__init__. rewrite Hinit. split; [reflexivity|].
    assert (Hfield : forall n, n ∈ Field.name <$> fs ->
              (self ∪ {[ "parent_item" := default VNone (kwargs' !! "parent_item") ]}) !! n
              = Some (default VNone (kwargs' !! n))).
    { intros n Hn. apply lookup_union_Some_l. rewrite Hself, decide_True by exact Hn.
      rewrite lookup_delete_ne; [reflexivity|]. intros <-. apply Hpar, Hn. }
    assert (Hparent : kwargs' !! "parent_item" = kwargs !! "parent_item").
    { unfold kwargs'. rewrite lookup_insert_ne by exact Hprivne.
      apply lookup_delete_ne. exact Hne. }
    split; [|split; [|split]].
    + rewrite (Hfield _ Hpriv). unfold kwargs'. rewrite lookup_insert_eq. reflexivity.
    + rewrite lookup_union_r by (rewrite Hself, decide_False by exact Hpar; reflexivity).
      rewrite Hparent. apply lookup_singleton_eq.
    + intros n Hn Hnp. rewrite (Hfield _ Hn). unfold kwargs'.
      rewrite lookup_insert_ne by congruence.
      rewrite lookup_delete_ne; [reflexivity|]. intros <-. apply Hpub, Hn.
    + intros n. rewrite lookup_union_is_Some, Hself.
      rewrite lookup_singleton_is_Some.
      case_decide as Hn; split.
      * intros _. right. exact Hn.
      * intros _. left. eauto.
      * intros [[? ?]|<-]; [discriminate|]. left. reflexivity.
      * intros [->|?]; [right; reflexivity|]. tauto.
  - intros n Hsome Hn. unfold accepted in Hn.
    assert (Hn1 : n <> public) by (intros ->; apply Hn; left).
    assert (Hn2 : n <> "parent_item") by (intros ->; apply Hn; right; left).
    assert (Hn3 : n ∉ Field.name <$> fs) by (intros Hc; apply Hn; right; right; exact Hc).
    destruct (init_refuses fs (delete "parent_item" kwargs') n) as [msg Hmsg].
    + rewrite lookup_delete_ne by congruence. unfold kwargs'.
      rewrite lookup_insert_ne by (intros <-; apply Hn3, Hpriv).
      rewrite lookup_delete_ne by congruence. exact Hsome.
    + exact Hn3.
    + exists msg. unfold Attachment__init__. rewrite Hmsg. reflexivity.
Qed.

(** X26: the keywords of [FileAttachment(...)].  Whatever fields carry
    the declared names, the constructor accepts [content], [parent_item]
    and the declared names; it stores the value of [content], of any
    type, in [_content], so that a [_content] keyword has no effect at
    all; it stores [None] for every keyword left out; and it raises
    [TypeError] for any other keyword. *)
Theorem FileAttachment_constructor_keywords (FIELDS : list Field.t)
    (kwargs : gmap string pyval) :
  Field.name <$> FIELDS = FileAttachment_names ->
  ((forall n, is_Some (kwargs !! n) -> n ∈ accepted "content" FileAttachment_names) ->
   exists self,
     FileAttachment__init__ FIELDS kwargs = Ok self /\
     self !! "_content" = Some (default VNone (kwargs !! "content")) /\
     self !! "parent_item" = Some (default VNone (kwargs !! "parent_item")) /\
     (forall n, n ∈ FileAttachment_names -> n <> "_content" ->
        self !! n = Some (default VNone (kwargs !! n))) /\
     (forall n, is_Some (self !! n) <-> n = "parent_item" \/ n ∈ FileAttachment_names)) /\
  (forall n, is_Some (kwargs !! n) -> n ∉ accepted "content" FileAttachment_names ->
   exists msg, FileAttachment__init__ FIELDS kwargs = Raise (TypeError msg)).
Proof.
  intros Hnames. unfold FileAttachment__init__. rewrite <- Hnames.
  apply renaming_constructor; rewrite ?Hnames.
  - apply (bool_decide_unpack _). vm_compute. reflexivity.
  - apply (bool_decide_unpack _). vm_compute. reflexivity.
  - apply (bool_decide_unpack _). vm_compute. reflexivity.
  - apply (bool_decide_unpack _). vm_compute. reflexivity.
  - discriminate.
Qed.

(** X27: the same for [ItemAttachment(...)], whose public keyword is
    [item] and whose slot is [_item]. *)
Theorem ItemAttachment_constructor_keywords (FIELDS : list Field.t)
    (kwargs : gmap string pyval) :
  Field.name <$> FIELDS = ItemAttachment_names ->
  ((forall n, is_Some (kwargs !! n) -> n ∈ accepted "item" ItemAttachment_names) ->
   exists self,
     ItemAttachment__init__ FIELDS kwargs = Ok self /\
     self !! "_item" = Some (default VNone (kwargs !! "item")) /\
     self !! "parent_item" = Some (default VNone (kwargs !! "parent_item")) /\
     (forall n, n ∈ ItemAttachment_names -> n <> "_item" ->
        self !! n = Some (default VNone (kwargs !! n))) /\
     (forall n, is_Some (self !! n) <-> n = "parent_item" \/ n ∈ ItemAttachment_names)) /\
  (forall n, is_Some (kwargs !! n) -> n ∉ accepted "item" ItemAttachment_names ->
   exists msg, ItemAttachment__init__ FIELDS kwargs = Raise (TypeError msg)).
Proof.
  intros Hnames. unfold ItemAttachment__init__. rewrite <- Hnames.
  apply renaming_constructor; rewrite ?Hnames.
  - apply (bool_decide_unpack _). vm_compute. reflexivity.
  - apply (bool_decide_unpack _). vm_compute. reflexivity.
  - apply (bool_decide_unpack _). vm_compute. reflexivity.
  - apply (bool_decide_unpack _). vm_compute. reflexivity.
  - discriminate.
Qed.

End Constructors.

Section Validation.

Import EWSElement.

Lemma clean_cons (f : Field.t) (fs : list Field.t) (self : Instance) :
  clean (f :: fs) self =
    match self !! Field.name f with
    | None => (Raise (AttributeError (Field.name f)), self)
    | Some v =>
        match Field.clean f v with
        | Ok v' => clean fs (<[Field.name f := v']> self)
        | Raise e => (Raise e, self)
        end
    end.
Proof.
  unfold clean. cbn [foldM]. unfold getattr, setattr. run.
  destruct (self !! Field.name f) as [v|]; [|reflexivity].
  destruct (Field.clean f v); reflexivity.
Qed.

Lemma clean_app (pre post : list Field.t) (self : Instance) :
  clean (pre ++ post) self =
    match clean pre self with
    | (Ok _, self1) => clean post self1
    | (Raise e, self1) => (Raise e, self1)
    end.
Proof.
  revert self. induction pre as [|f pre IH]; intros self; [reflexivity|].
  rewrite <- app_comm_cons, !clean_cons.
  destruct (self !! Field.name f) as [v|]; [|reflexivity].
  destruct (Field.clean f v); [apply IH|reflexivity].
Qed.

(** What a [clean] that returns has done, field by field. *)
Lemma clean_returned (fs : list Field.t) :
  NoDup (Field.name <$> fs) ->
  forall self self' u,
  clean fs self = (Ok u, self') ->
  (forall f, f ∈ fs ->
     exists v v', self !! Field.name f = Some v /\ Field.clean f v = Ok v' /\
                  self' !! Field.name f = Some v') /\
  (forall n, n ∉ Field.name <$> fs -> self' !! n = self !! n).
Proof.
  induction fs as [|f fs IH]; intros Hnd self self' u Hrun.
  - inversion Hrun; subst. split; [|reflexivity].
    intros f Hf. inversion Hf.
  - rewrite fmap_cons in Hnd. apply NoDup_cons in Hnd as [Hnotin Hnd].
    rewrite clean_cons in Hrun.
    destruct (self !! Field.name f) as [v|] eqn:Hv; [|discriminate].
    destruct (Field.clean f v) as [v'|] eqn:Hc; [|discriminate].
    destruct (IH Hnd _ _ _ Hrun) as [Hin Hout]. split.
    + intros g Hg. apply elem_of_cons in Hg as [->|Hg].
      * exists v, v'. split; [exact Hv|]. split; [exact Hc|].
        rewrite (Hout _ Hnotin). apply lookup_insert_eq.
      * destruct (Hin g Hg) as (w & w' & Hw & Hcw & Hw'). exists w, w'.
        split; [|split; assumption].
        rewrite lookup_insert_ne in Hw; [exact Hw|].
        intros Heq. apply Hnotin. rewrite Heq. apply list_elem_of_fmap_2, Hg.
    + intros n Hn. rewrite fmap_cons in Hn.
      rewrite Hout by (intros Hc'; apply Hn; right; exact Hc').
      apply lookup_insert_ne. intros Heq. apply Hn. rewrite <- Heq. left.
Qed.

(** X22: what [EWSElement.clean] does when it returns.  With distinct
    field names, [clean] returns with a given instance exactly when every
    declared field is an attribute whose validator accepts its value, and
    then each declared attribute holds what its validator returned and
    every other attribute is as before. *)
Theorem clean_replaces_by_validated (fs : list Field.t) (self self' : Instance) :
  NoDup (Field.name <$> fs) ->
  clean fs self = (Ok tt, self') <->
  (forall f, f ∈ fs ->
     exists v v', self !! Field.name f = Some v /\ Field.clean f v = Ok v' /\
                  self' !! Field.name f = Some v') /\
  (forall n, n ∉ Field.name <$> fs -> self' !! n = self !! n).
Proof.
  intros Hnd. split; [apply clean_returned, Hnd|].
  intros [Hin Hout].
  assert (Hex : exists s1, clean fs self = (Ok tt, s1)).
  { assert (Hall : forall f, f ∈ fs ->
              exists v v', self !! Field.name f = Some v /\ Field.clean f v = Ok v').
    { intros f Hf. destruct (Hin f Hf) as (v & v' & ? & ? & _). eauto. }
    clear Hin Hout self'. revert self Hall.
    induction fs as [|f fs IH]; intros self Hall; [eexists; reflexivity|].
    rewrite fmap_cons in Hnd. apply NoDup_cons in Hnd as [Hnotin Hnd].
    rewrite clean_cons.
    destruct (Hall f) as (v & v' & -> & ->); [left|].
    apply IH; [exact Hnd|]. intros g Hg.
    destruct (Hall g) as (w & w' & Hw & Hcw); [right; exact Hg|].
    exists w, w'. split; [|exact Hcw].
    rewrite lookup_insert_ne; [exact Hw|].
    intros Heq. apply Hnotin. rewrite Heq. apply list_elem_of_fmap_2, Hg. }
  destruct Hex as [s1 Hs1]. rewrite Hs1. f_equal.
  destruct (clean_returned fs Hnd _ _ _ Hs1) as [Hin1 Hout1].
  apply map_eq. intros n.
  destruct (decide (n ∈ Field.name <$> fs)) as [Hn|Hn].
  - apply list_elem_of_fmap in Hn as (f & -> & Hf).
    destruct (Hin f Hf) as (v & v' & Hv & Hc & ->).
    destruct (Hin1 f Hf) as (w & w' & Hw & Hcw & ->). congruence.
  - rewrite Hout, Hout1 by exact Hn. reflexivity.
Qed.

(** X23: [clean] is not atomic.  When the validator of a field raises
    after the fields declared before it were cleaned, [clean] raises that
    exception, the validators of the later fields are not consulted, and
    the instance keeps what the earlier validators wrote. *)
Theorem clean_stops_at_first_failure (pre post : list Field.t) (f : Field.t)
    (self self1 : Instance) v e :
  clean pre self = (Ok tt, self1) ->
  self1 !! Field.name f = Some v ->
  Field.clean f v = Raise e ->
  clean (pre ++ f :: post) self = (Raise e, self1).
Proof.
  intros Hpre Hv Hc. rewrite clean_app, Hpre, clean_cons, Hv, Hc. reflexivity.
Qed.

(** The encoder never returns for an instance its [clean] refuses. *)
Lemma to_xml_raises_what_clean_raises cls version (self self' : Instance) e :
  clean_method cls self = (Raise e, self') ->
  to_xml cls version self = (Raise e, self').
Proof.
  intros Hc. unfold to_xml. run. rewrite Hc. reflexivity.
Qed.

(** The loop of [to_xml] appends to the element it was handed. *)
Lemma to_xml_loop_tag version (fs : list Field.t) :
  forall (i el : Element) (self self' : Instance),
  foldM (to_xml_step version) fs i self = (Ok el, self') -> tag el = tag i.
Proof.
  induction fs as [|f fs IH]; intros i el self self' Hrun.
  - inversion Hrun. reflexivity.
  - rewrite foldM_cons in Hrun.
    destruct (to_xml_step version i f self) as [[i'|e] s1] eqn:Hstep; [|discriminate].
    rewrite (IH _ _ _ _ Hrun).
    unfold to_xml_step, getattr in Hstep. run.
    destruct (Field.is_read_only f); [inversion Hstep; reflexivity|].
    destruct (self !! Field.name f) as [v|]; [|discriminate].
    destruct (is_none v || (Field.is_list f && negb (truthy v)));
      [inversion Hstep; reflexivity|].
    destruct (Field.to_xml f v version); inversion Hstep. reflexivity.
Qed.

Lemma request_tag_is_not_response_tag cls : request_tag cls <> response_tag cls.
Proof.
  unfold request_tag, response_tag. destruct (NAMESPACE cls); discriminate.
Qed.

(** X24: for every class and every instance, the decoder applied to the
    very element the encoder returned never yields an instance: the
    encoder names the element by [request_tag], the decoder asserts
    [response_tag], and the two differ for every class. *)
Theorem decode_encoded_never_returns cls version (self : Instance) :
  (forall el self', to_xml cls version self = (Ok el, self') ->
     tag el = request_tag cls /\ from_xml cls (Some el) = Raise AssertionError) /\
  (forall r, Spec.decode_encoded cls version self <> Ok r).
Proof.
  assert (H : forall el self', to_xml cls version self = (Ok el, self') ->
     tag el = request_tag cls /\ from_xml cls (Some el) = Raise AssertionError).
  { intros el self' Hrun. unfold to_xml in Hrun. run.
    destruct (clean_method cls self) as [[u|e] s1]; [|discriminate].
    apply to_xml_loop_tag in Hrun. cbn in Hrun. split; [exact Hrun|].
    unfold from_xml. rewrite Hrun.
    destruct (String.eqb (request_tag cls) (response_tag cls)) eqn:Heq; [|reflexivity].
    apply String.eqb_eq in Heq. destruct (request_tag_is_not_response_tag cls Heq). }
  split; [exact H|].
  intros r. unfold Spec.decode_encoded. run.
  destruct (to_xml cls version self) as [[el|e] s1] eqn:Hrun; cbn [fst]; [|discriminate].
  destruct (H el s1 eq_refl) as [_ ->]. discriminate.
Qed.


End Validation.

(** * The further properties at concrete inputs *)

Section FurtherWitnesses.

Import attachments attachment_methods conditions Examples MoreExamples FurtherExamples.

(** X1 at an attachment whose owner has no account. *)
Lemma operations_need_an_account_witness :
  attach with_payload (orphaned new_file) =
    (Raise (ValueError "Parent item must have an account"), orphaned new_file) /\
  detach with_payload (orphaned fetched_file) =
    (Raise (ValueError "Parent item must have an account"), orphaned fetched_file) /\
  content with_payload (orphaned fetched_file) =
    (Raise (ValueError "FileAttachment must have an account"), orphaned fetched_file) /\
  item 1 with_payload (orphaned fetched_item_attachment) =
    Some (Raise (ValueError "ItemAttachment must have an account"),
          orphaned fetched_item_attachment).
Proof.
  assert (Hno : forall a, parent_item a = Some 1%positive -> no_account (orphaned a)).
  { intros a Ha. right. exists 1%positive, orphan. repeat split; [exact Ha|reflexivity..]. }
  split; [|split; [|split]].
  - apply (operations_need_an_account with_payload (orphaned new_file) (Hno new_file eq_refl)).
    reflexivity.
  - apply (operations_need_an_account with_payload (orphaned fetched_file) (Hno fetched_file eq_refl)).
    eexists. reflexivity.
  - apply (operations_need_an_account with_payload (orphaned fetched_file) (Hno fetched_file eq_refl)
             : _ /\ _ /\ _ /\ _) with (p := VNone); [eexists|]; reflexivity.
  - apply (operations_need_an_account with_payload (orphaned fetched_item_attachment)
             (Hno fetched_item_attachment eq_refl)); [eexists|]; reflexivity.
Defined.

(** X2 at a service that answers with an error. *)
Lemma remote_error_is_raised_witness :
  attach (always [RExc remote_failure]) (start new_file) =
    (Raise remote_failure,
     requested (CreateAttachment "ann@example.com" 1%positive [new_file]) (start new_file)) /\
  content (always [RExc remote_failure]) (start fetched_file) =
    (Raise remote_failure,
     requested (GetAttachment "ann@example.com" [AttachmentId.mk (Some "att-1") None None] false)
       (start fetched_file)).
Proof.
  split.
  - apply (remote_error_is_raised (always [RExc remote_failure]) (start new_file)
             1%positive item1 "ann@example.com" remote_failure);
      [repeat split; reflexivity|reflexivity|reflexivity].
  - apply (remote_error_is_raised (always [RExc remote_failure]) (start fetched_file)
             1%positive item1 "ann@example.com" remote_failure
             (conj eq_refl (conj eq_refl eq_refl))) with (q := VNone); reflexivity.
Defined.

(** X3 at a service that answers with nothing. *)
Lemma answer_must_hold_one_entry_witness :
  attach (always []) (start new_file) =
    (Raise AssertionError,
     requested (CreateAttachment "ann@example.com" 1%positive [new_file]) (start new_file)) /\
  item 1 (always []) (start fetched_item_attachment) =
    Some (Raise AssertionError,
          requested (GetAttachment "ann@example.com" [AttachmentId.mk (Some "att-2") None None] true)
            (start fetched_item_attachment)).
Proof.
  split.
  - apply (answer_must_hold_one_entry (always []) (start new_file)
             1%positive item1 "ann@example.com" (conj eq_refl (conj eq_refl eq_refl)));
      reflexivity.
  - apply (answer_must_hold_one_entry (always []) (start fetched_item_attachment)
             1%positive item1 "ann@example.com" (conj eq_refl (conj eq_refl eq_refl)));
      reflexivity.
Defined.

(** X4 at the create response of the example, and at one that repeats
    the change-token. *)
Lemma attach_is_all_or_nothing_witness :
  (exists l p aid ck,
     parent_item new_file = Some l /\ heap (start new_file) !! l = Some p /\
     self (snd (attach (always [RElem (created "FileAttachment" "item-1" "ck-2")])
                  (start new_file))) = with_attachment_id (Some aid) new_file /\
     heap (snd (attach (always [RElem (created "FileAttachment" "item-1" "ck-2")])
                  (start new_file))) =
       <[l := mkItem (item_id p) ck (account p)]> (heap (start new_file)) /\
     ck <> changekey p) /\
  self (snd (attach (always [RElem (created "FileAttachment" "item-1" "ck-1")])
               (start new_file))) = new_file /\
  heap (snd (attach (always [RElem (created "FileAttachment" "item-1" "ck-1")])
               (start new_file))) = heap (start new_file).
Proof.
  split.
  - exact (attach_is_all_or_nothing (always [RElem (created "FileAttachment" "item-1" "ck-2")])
             (start new_file) (Ok tt) _ eq_refl).
  - exact (attach_is_all_or_nothing (always [RElem (created "FileAttachment" "item-1" "ck-1")])
             (start new_file) (Raise AssertionError) _ eq_refl).
Defined.

(** X6 at an attachment that was never sent. *)
Lemma local_payload_needs_no_service_witness :
  content (always []) (start new_file) = (Ok (VBytes (bytes_of_string "hello")), start new_file) /\
  set_content (VStr "hello") (start new_file) = (Raise AssertionError, start new_file).
Proof.
  destruct (local_payload_needs_no_service (always []) (start new_file) VNone
              (VBytes (bytes_of_string "hello")) eq_refl) as (Hread & _ & Hset).
  split; [apply Hread; reflexivity|apply Hset; reflexivity].
Defined.

(** X7 at a read that fetches the payload. *)
Lemma content_changes_only_the_payload_witness :
  heap (snd (content with_payload (start fetched_file))) = heap (start fetched_file) /\
  (self (snd (content with_payload (start fetched_file))) = fetched_file \/
   exists b, VBytes (bytes_of_string "hello") = VBytes b /\
             self (snd (content with_payload (start fetched_file))) =
               with_content (VBytes b) fetched_file).
Proof.
  exact (content_changes_only_the_payload with_payload (start fetched_file)
           (Ok (VBytes (bytes_of_string "hello"))) _ eq_refl).
Defined.

(** X8 at the create response of the example. *)
Lemma attach_keeps_the_payload_witness :
  content (always [RElem (created "FileAttachment" "item-1" "ck-2")])
    (snd (attach (always [RElem (created "FileAttachment" "item-1" "ck-2")]) (start new_file))) =
  (Ok (VBytes (bytes_of_string "hello")),
   snd (attach (always [RElem (created "FileAttachment" "item-1" "ck-2")]) (start new_file))).
Proof.
  exact (attach_keeps_the_payload (always [RElem (created "FileAttachment" "item-1" "ck-2")])
           (start new_file) _ VNone (bytes_of_string "hello") eq_refl eq_refl).
Defined.

(** X9 at a get response that carries a message. *)
Lemma item_is_fetched_once_witness :
  item 2 (answering [RElem (got_item [AttachmentId_element; Message_element])])
    (start fetched_item_attachment) =
    Some (Ok (VObj "Message" []),
          mkState (with_item (VObj "Message" []) fetched_item_attachment)
            (heap (start fetched_item_attachment))
            [GetAttachment "ann@example.com" [AttachmentId.mk (Some "att-2") None None] true]) /\
  item 1 (answering [RElem (got_item [AttachmentId_element; Message_element])])
    (mkState (with_item (VObj "Message" []) fetched_item_attachment)
       (heap (start fetched_item_attachment))
       [GetAttachment "ann@example.com" [AttachmentId.mk (Some "att-2") None None] true]) =
    Some (Ok (VObj "Message" []),
          mkState (with_item (VObj "Message" []) fetched_item_attachment)
            (heap (start fetched_item_attachment))
            [GetAttachment "ann@example.com" [AttachmentId.mk (Some "att-2") None None] true]).
Proof.
  eapply (item_is_fetched_once
            (answering [RElem (got_item [AttachmentId_element; Message_element])])
            0 (start fetched_item_attachment) 1%positive item1 "ann@example.com"
            (AttachmentId.mk (Some "att-2") None None)
            (got_item [AttachmentId_element; Message_element]) _ (VObj "Message" [])
            (conj eq_refl (conj eq_refl eq_refl)) eq_refl eq_refl eq_refl).
  - vm_compute. reflexivity.
  - reflexivity.
  - discriminate.
Defined.

(** X10 at a get response that carries no item. *)
Lemma item_missing_in_answer_witness :
  item 2 (answering [RElem (got_item [AttachmentId_element])]) (start fetched_item_attachment) =
    Some (Raise (ValueError "ItemAttachment must have an account"),
          requested (GetAttachment "ann@example.com" [AttachmentId.mk (Some "att-2") None None] true)
            (start fetched_item_attachment)) /\
  item 2 (answering [RElem (got_item [])]) (start fetched_item_attachment) =
    Some (Raise AssertionError,
          requested (GetAttachment "ann@example.com" [AttachmentId.mk (Some "att-2") None None] true)
            (start fetched_item_attachment)).
Proof.
  split.
  - refine (item_missing_in_answer (answering [RElem (got_item [AttachmentId_element])])
              0 (start fetched_item_attachment) 1%positive item1 "ann@example.com"
              (AttachmentId.mk (Some "att-2") None None) (got_item [AttachmentId_element])
              (mkAttachment None (Some (AttachmentId.mk (Some "att-2") None None))
                 VNone VNone VNone VNone VNone VNone VNone (ItemAttachment VNone))
              (conj eq_refl (conj eq_refl eq_refl)) eq_refl eq_refl eq_refl _ eq_refl).
    vm_compute. reflexivity.
  - refine (item_missing_in_answer (answering [RElem (got_item [])])
              0 (start fetched_item_attachment) 1%positive item1 "ann@example.com"
              (AttachmentId.mk (Some "att-2") None None) (got_item [])
              (mkAttachment None None
                 VNone VNone VNone VNone VNone VNone VNone (ItemAttachment VNone))
              (conj eq_refl (conj eq_refl eq_refl)) eq_refl eq_refl eq_refl _ eq_refl).
    vm_compute. reflexivity.
Defined.

(** X12 at two attachments of different classes, names and payloads. *)
Lemma attached_equal_by_identity_witness :
  __eq__ length_hash fetched_file
    (AnAttachment (with_attachment_id (Some (AttachmentId.mk (Some "att-1") None None))
                     new_item_attachment)) = Ok true /\
  __eq__ length_hash fetched_file (AnAttachmentId (AttachmentId.mk (Some "att-1") None None))
    = Ok true.
Proof.
  apply (attached_equal_by_identity length_hash fetched_file
           (with_attachment_id (Some (AttachmentId.mk (Some "att-1") None None))
              new_item_attachment)
           (AttachmentId.mk (Some "att-1") None None)); reflexivity.
Defined.

(** X13 at an attachment that was never sent, with and without owner. *)
Lemma unattached_equal_whatever_owner_witness :
  __eq__ length_hash new_file (AnAttachment (with_parent_item None new_file)) = Ok true.
Proof.
  apply (unattached_equal_whatever_owner length_hash new_file None eq_refl). reflexivity.
Defined.

(** X14 at an attachment with a name and no content type. *)
Lemma attachment_clean_raises_witness :
  exists t,
    clean guess_txt (ret tt) (start new_file) =
      (Raise (TypeError "clean() got an unexpected keyword argument 'version'"),
       mkState (with_content_type (VStr t) new_file) (heap (start new_file)) []) /\
    t <> EmptyString /\
    (t = "application/octet-stream" \/ guess_txt "report.txt" = Some t).
Proof.
  apply (attachment_clean_raises guess_txt (ret tt) (start new_file)); reflexivity.
Defined.

Import registry.

(** X15 at [Mailbox], for a declared and an undeclared name. *)
Lemma get_field_by_fieldname_finds_last_witness :
  fst (get_field_by_fieldname fst ["Mailbox"; "EWSElement"] "email_address" classes) =
    inr ("email_address", Some "EmailAddress") /\
  fst (get_field_by_fieldname fst ["Mailbox"; "EWSElement"] "routing_type" classes) =
    inl (KeyError "routing_type") /\
  get_fields_map ["Mailbox"; "EWSElement"]
    (snd (get_field_by_fieldname fst ["Mailbox"; "EWSElement"] "email_address" classes)) =
    Some (by_name fst Mailbox_descriptors).
Proof.
  split; [|split].
  - destruct (get_field_by_fieldname_finds_last fst "Mailbox" ["EWSElement"] classes
                (Tuple Mailbox_descriptors) "email_address" eq_refl eq_refl) as [-> _].
    reflexivity.
  - destruct (get_field_by_fieldname_finds_last fst "Mailbox" ["EWSElement"] classes
                (Tuple Mailbox_descriptors) "routing_type" eq_refl eq_refl) as [-> _].
    reflexivity.
  - destruct (get_field_by_fieldname_finds_last fst "Mailbox" ["EWSElement"] classes
                (Tuple Mailbox_descriptors) "email_address" eq_refl eq_refl) as (-> & Hm & _).
    exact Hm.
Defined.

(** X16 at [Mailbox.add_field(routing_type, 1)]. *)
Lemma add_field_is_seen_by_lookup_witness :
  add_field ["Mailbox"; "EWSElement"] routing_type 1 classes =
    (inr tt,
     <["Mailbox" := mkClassDict
         (Some (Tuple [("name", Some "Name"); routing_type;
                       ("email_address", Some "EmailAddress");
                       ("mailbox_type", Some "MailboxType"); ("item_id", None)])) None]>
       classes) /\
  fst (get_field_by_fieldname fst ["Mailbox"; "EWSElement"] "routing_type"
         (<["Mailbox" := mkClassDict
             (Some (Tuple [("name", Some "Name"); routing_type;
                           ("email_address", Some "EmailAddress");
                           ("mailbox_type", Some "MailboxType"); ("item_id", None)])) None]>
            classes)) = inr routing_type.
Proof.
  destruct (add_field_is_seen_by_lookup fst "Mailbox" ["EWSElement"] classes
              Mailbox_descriptors routing_type 1) as (Hadd & _ & Hget & _).
  - apply (bool_decide_unpack _). vm_compute. reflexivity.
  - reflexivity.
  - reflexivity.
  - intros g Hg. unfold Mailbox_descriptors in Hg.
    repeat (apply elem_of_cons in Hg as [->|Hg]; [discriminate|]).
    apply elem_of_nil in Hg. destruct Hg.
  - split; [exact Hadd|exact Hget].
Defined.

(** X17 at [Mailbox]: adding and removing [routing_type]. *)
Lemma remove_field_undoes_add_field_witness :
  exists cs1 cs2,
    add_field ["Mailbox"; "EWSElement"] routing_type (-1) classes = (inr tt, cs1) /\
    remove_field ["Mailbox"; "EWSElement"] routing_type cs1 = (inr tt, cs2) /\
    get_FIELDS ["Mailbox"; "EWSElement"] cs2 = Some (Tuple Mailbox_descriptors) /\
    cs2 = <["Mailbox" := mkClassDict (Some (Tuple Mailbox_descriptors)) None]> classes.
Proof.
  apply (remove_field_undoes_add_field "Mailbox" ["EWSElement"] classes
           Mailbox_descriptors routing_type (-1) eq_refl).
  apply (bool_decide_unpack _). vm_compute. reflexivity.
Defined.

(** X18 at [Room], a subclass of [Mailbox], after a lookup on
    [Mailbox]. *)
Lemma inherited_dictionary_hides_added_field_witness :
  exists cs1 cs2,
    snd (get_field_by_fieldname fst ["Mailbox"; "EWSElement"] "name" classes) = cs1 /\
    add_field ["Room"; "Mailbox"; "EWSElement"] routing_type 0 cs1 = (inr tt, cs2) /\
    (exists l', get_FIELDS ["Room"; "Mailbox"; "EWSElement"] cs2 = Some (Tuple l') /\
                routing_type ∈ l') /\
    get_field_by_fieldname fst ["Room"; "Mailbox"; "EWSElement"] "routing_type" cs2 =
      (inl (KeyError "routing_type"), cs2).
Proof.
  apply (inherited_dictionary_hides_added_field fst "Room" "Mailbox" ["EWSElement"] classes
           Mailbox_descriptors routing_type 0 "name"); try reflexivity.
  - discriminate.
  - apply (bool_decide_unpack _). vm_compute. reflexivity.
  - intros g Hg. unfold Mailbox_descriptors in Hg.
    repeat (apply elem_of_cons in Hg as [->|Hg]; [discriminate|]).
    apply elem_of_nil in Hg. destruct Hg.
Defined.

(** X19 at [Attachment], whose [FIELDS] is a list. *)
Lemma add_field_refuses_a_list_witness :
  add_field ["Attachment"; "EWSElement"] routing_type 0 classes = (inl ConcatTypeError, classes) /\
  exists cs1 cs2,
    remove_field ["Attachment"; "EWSElement"] ("size", Some "Size") classes = (inr tt, cs1) /\
    get_FIELDS ["Attachment"; "EWSElement"] cs1 =
      Some (Tuple (filter (fun x => x <> ("size", Some "Size")) Attachment_descriptors)) /\
    add_field ["Attachment"; "EWSElement"] routing_type 0 cs1 = (inr tt, cs2) /\
    exists l', get_FIELDS ["Attachment"; "EWSElement"] cs2 = Some (Tuple l') /\
               routing_type ∈ l'.
Proof.
  apply (add_field_refuses_a_list "Attachment" ["EWSElement"] classes
           Attachment_descriptors routing_type ("size", Some "Size") 0 eq_refl).
Defined.

Import EWSElement attachment_init.

(** X20 at [ItemId('AAMkAD', changekey='CQAAAB')] and at a keyword that
    is no slot. *)
Lemma ItemId_constructor_arguments_witness :
  ItemId_init.__init__ ItemId.ItemIdC [Some "AAMkAD"] {[ "changekey" := Some "CQAAAB" ]} =
    Ok (ItemId.mk ItemId.ItemIdC None (Some "CQAAAB")) /\
  exists msg,
    ItemId_init.__init__ ItemId.ItemIdC [] {[ "item_id" := Some "AAMkAD" ]} =
      Raise (TypeError msg).
Proof.
  destruct (ItemId_constructor_arguments ItemId.ItemIdC) as (_ & _ & Hkw & Hbad).
  split; [apply Hkw|].
  apply (Hbad [] {[ "item_id" := Some "AAMkAD" ]} "item_id");
    [eexists; apply lookup_singleton_eq|discriminate|discriminate].
Defined.

(** X21 at the keywords of the mailbox of the examples, and at a keyword
    [Mailbox] does not declare. *)
Lemma init_sets_the_declared_fields_witness :
  (exists self,
     __init__ Mailbox.FIELDS ann_kwargs = Ok self /\
     (forall n, is_Some (self !! n) <-> n ∈ Field.name <$> Mailbox.FIELDS) /\
     (NoDup (Field.name <$> Mailbox.FIELDS) ->
      forall n, n ∈ Field.name <$> Mailbox.FIELDS ->
                self !! n = Some (default VNone (ann_kwargs !! n)))) /\
  exists msg,
    __init__ Mailbox.FIELDS {[ "routing_type" := VStr "SMTP" ]} = Raise (TypeError msg).
Proof.
  split.
  - apply (init_sets_the_declared_fields Mailbox.FIELDS ann_kwargs).
    intros n [v Hv]. unfold ann_kwargs in Hv. each_key Hv.
  - apply (init_sets_the_declared_fields Mailbox.FIELDS {[ "routing_type" := VStr "SMTP" ]})
      with (n := "routing_type"); [eexists; apply lookup_singleton_eq|by_computation].
Defined.

(** X22 at an instance whose values are valid. *)
Lemma clean_replaces_by_validated_witness :
  clean sized_FIELDS sized = (Ok tt, sized) <->
  (forall f, f ∈ sized_FIELDS ->
     exists v v', sized !! Field.name f = Some v /\ Field.clean f v = Ok v' /\
                  sized !! Field.name f = Some v') /\
  (forall n, n ∉ Field.name <$> sized_FIELDS -> sized !! n = sized !! n).
Proof.
  apply (clean_replaces_by_validated sized_FIELDS sized sized). by_computation.
Defined.

(** X23 at a mailbox whose type is outside the choices. *)
Lemma clean_stops_at_first_failure_witness :
  clean Mailbox.FIELDS robot = (Raise (ValueError "value is not a valid choice"), robot).
Proof.
  apply (clean_stops_at_first_failure
           [fields.TextField "name" "Name" false None;
            fields.TextField "email_address" "EmailAddress" false None]
           [fields.ItemIdField "item_id"]
           (fields.TextField "mailbox_type" "MailboxType" false (Some Mailbox.MAILBOX_TYPES))
           robot robot (VStr "Robot")); reflexivity.
Defined.

(** X24 at the mailbox of the examples. *)
Lemma decode_encoded_never_returns_witness :
  exists el,
    fst (to_xml Mailbox.class "Exchange2016" ann) = Ok el /\
    tag el = request_tag Mailbox.class /\
    from_xml Mailbox.class (Some el) = Raise AssertionError.
Proof.
  destruct (to_xml Mailbox.class "Exchange2016" ann) as [[el|e] self'] eqn:Hrun;
    [|vm_compute in Hrun; discriminate].
  exists el. split; [reflexivity|].
  apply (decode_encoded_never_returns Mailbox.class "Exchange2016" ann) with (self' := self').
  exact Hrun.
Defined.


(** X26 at keywords that give both [content] and [_content]. *)
Lemma FileAttachment_constructor_keywords_witness :
  (exists self,
     FileAttachment__init__ (named FileAttachment_names) file_kwargs = Ok self /\
     self !! "_content" = Some (VStr "not bytes") /\
     self !! "parent_item" = Some VNone /\
     self !! "name" = Some (VStr "report.txt")) /\
  exists msg,
    FileAttachment__init__ (named FileAttachment_names) {[ "item" := VNone ]} =
      Raise (TypeError msg).
Proof.
  split.
  - destruct (FileAttachment_constructor_keywords (named FileAttachment_names) file_kwargs
                eq_refl) as [Hok _].
    destruct Hok as (self & Hinit & Hc & Hp & Hn & _).
    { intros n [v Hv]. unfold file_kwargs in Hv. each_key Hv. }
    exists self. split; [exact Hinit|]. split; [exact Hc|]. split; [exact Hp|].
    apply (Hn "name"); [by_computation|discriminate].
  - apply (FileAttachment_constructor_keywords (named FileAttachment_names)
             {[ "item" := VNone ]} eq_refl) with (n := "item");
      [eexists; apply lookup_singleton_eq|by_computation].
Defined.

(** X27 at keywords that give both [item] and [_item]. *)
Lemma ItemAttachment_constructor_keywords_witness :
  (exists self,
     ItemAttachment__init__ (named ItemAttachment_names) item_kwargs = Ok self /\
     self !! "_item" = Some (VObj "Message" []) /\
     self !! "parent_item" = Some VNone /\
     self !! "name" = Some (VStr "note")) /\
  exists msg,
    ItemAttachment__init__ (named ItemAttachment_names) {[ "content" := VNone ]} =
      Raise (TypeError msg).
Proof.
  split.
  - destruct (ItemAttachment_constructor_keywords (named ItemAttachment_names) item_kwargs
                eq_refl) as [Hok _].
    destruct Hok as (self & Hinit & Hc & Hp & Hn & _).
    { intros n [v Hv]. unfold item_kwargs in Hv. each_key Hv. }
    exists self. split; [exact Hinit|]. split; [exact Hc|]. split; [exact Hp|].
    apply (Hn "name"); [by_computation|discriminate].
  - apply (ItemAttachment_constructor_keywords (named ItemAttachment_names)
             {[ "content" := VNone ]} eq_refl) with (n := "content");
      [eexists; apply lookup_singleton_eq|by_computation].
Defined.

End FurtherWitnesses.
